(** * terraform-provider-tss: field reconciliation, value resolution and
      ephemeral leases

    A shallow embedding of [internal/provider/resource_secret.go] and
    [internal/provider/ephemeral_resource_secrets.go].

    Conventions of the embedding:
    - Go [int]/[int64] values are [Z]; identifiers are parsed with
      [Atoi], which range-checks against the 64-bit [int].
    - Go strings are [string] (byte strings).  [strings.ToLower] and
      [strings.EqualFold] are embedded as they act on ASCII names: the
      letters [A-Z] fold to [a-z], every other byte is left alone.
      Outside ASCII Go folds by the Unicode tables, where two names
      can share a lower-cased form without being equal under
      [EqualFold], and conversely; the characterisation of
      [reorderFieldsToMatchPlan] therefore names, for each step, the
      test the code applies there (the lower-cased key of lines
      840-860, [EqualFold] in lines 863-877).
    - The three-state framework values [types.String], [types.Int64]
      and [types.Bool] are inductive types (null / unknown / known).
    - Go's [(T, error)] is [GoError + T]; [inl] is the error.
    - The TSS SDK client ([*server.Server]) is a record of operations
      over an abstract remote world [W]; every remote call is appended
      to a call log, so that "no remote call was made" is a statement
      about that log.
    - [tflog] calls have no effect on results and are not embedded. *)

From Stdlib Require Import ZArith Ascii String DecimalString DecimalPos.
From stdpp Require Import base option list gmap strings sorting.

Local Open Scope string_scope.
Local Open Scope list_scope.
Local Open Scope Z_scope.

(** ** Go strings *)

Module strings.

(** ASCII case mapping of one byte. *)
Definition lower_ascii (c : ascii) : ascii :=
  let n := nat_of_ascii c in
  if (65 <=? n)%nat && (n <=? 90)%nat then ascii_of_nat (n + 32) else c.

(** [strings.ToLower], on ASCII bytes. *)
Fixpoint ToLower (s : string) : string :=
  match s with
  | EmptyString => EmptyString
  | String c s' => String (lower_ascii c) (ToLower s')
  end.

(** [strings.EqualFold], on ASCII bytes: byte-wise comparison under case
    folding. *)
Fixpoint EqualFold (s t : string) : bool :=
  match s, t with
  | EmptyString, EmptyString => true
  | String a s', String b t' =>
      Ascii.eqb (lower_ascii a) (lower_ascii b) && EqualFold s' t'
  | _, _ => false
  end.

Fixpoint HasPrefix (s prefix : string) : bool :=
  match prefix, s with
  | EmptyString, _ => true
  | String b p', String a s' => Ascii.eqb a b && HasPrefix s' p'
  | String _ _, EmptyString => false
  end.

(** [strings.Contains]. *)
Fixpoint Contains (s substr : string) : bool :=
  HasPrefix s substr
  || match s with
     | EmptyString => false
     | String _ s' => Contains s' substr
     end.

End strings.

(** ** [strconv] *)

Module strconv.

Inductive NumErrKind := ErrSyntax | ErrRange.

Definition digit_of (c : ascii) : option Z :=
  let n := nat_of_ascii c in
  if (48 <=? n)%nat && (n <=? 57)%nat then Some (Z.of_nat n - 48) else None.

(** The result of scanning decimal digits as [ParseUint] does: the
    number, the syntax error of a byte that is no digit, or the range
    error of a prefix that no longer fits 64 unsigned bits.  The scan
    stops at whichever comes first. *)
Inductive Scan := Digits (n : Z) | Invalid | Overflow.

Definition uint64_max : Z := 2 ^ 64 - 1.

(** [ParseUint], base 10: [cutoff] is the smallest number whose tenfold
    overflows. *)
Definition cutoff : Z := uint64_max / 10 + 1.

Fixpoint parse_digits (s : string) (acc : Z) : Scan :=
  match s with
  | EmptyString => Digits acc
  | String c s' =>
      match digit_of c with
      | Some d =>
          if cutoff <=? acc then Overflow
          else
            let n1 := 10 * acc + d in
            if uint64_max <? n1 then Overflow else parse_digits s' n1
      | None => Invalid
      end
  end.

Definition int_min : Z := - 2 ^ 63.
Definition int_max : Z := 2 ^ 63 - 1.

(** A value outside the 64-bit [int] is reported as [ErrRange] together
    with the nearest bound, as [ParseInt] does. *)
Definition in_range (z : Z) : Z * option NumErrKind :=
  if z <? int_min then (int_min, Some ErrRange)
  else if int_max <? z then (int_max, Some ErrRange)
  else (z, None).

Definition parse_unsigned (s : string) : Scan :=
  match s with
  | EmptyString => Invalid
  | _ => parse_digits s 0
  end.

(** [strconv.Atoi]: optional sign, at least one decimal digit, nothing
    else; the pair is Go's [(int, error)], with 0 beside a syntax error
    and the nearest bound beside a range error.  Digits that overflow
    give the range error even when a byte that is no digit follows
    them. *)
Definition Atoi (s : string) : Z * option NumErrKind :=
  match s with
  | EmptyString => (0, Some ErrSyntax)
  | String c rest =>
      if Ascii.eqb c "-"%char then
        match parse_unsigned rest with
        | Digits z => in_range (- z)
        | Overflow => (int_min, Some ErrRange)
        | Invalid => (0, Some ErrSyntax)
        end
      else if Ascii.eqb c "+"%char then
        match parse_unsigned rest with
        | Digits z => in_range z
        | Overflow => (int_max, Some ErrRange)
        | Invalid => (0, Some ErrSyntax)
        end
      else
        match parse_unsigned s with
        | Digits z => in_range z
        | Overflow => (int_max, Some ErrRange)
        | Invalid => (0, Some ErrSyntax)
        end
  end.

(** [strconv.Itoa]. *)
Definition Itoa (z : Z) : string := NilZero.string_of_int (Z.to_int z).

End strconv.

(** ** Errors and diagnostics *)

(** Go error values, as far as the provider builds them: the error of a
    failed [strconv.Atoi], an error returned by the remote client, and
    the shapes of [fmt.Errorf] in the source ([%w] wrapping an error,
    ['%s'] quoting a field name, and both).  Format strings are kept verbatim. *)
Inductive GoError :=
| NumError (func num : string) (kind : strconv.NumErrKind)
| ClientError (msg : string)
| ErrorfW (format : string) (wrapped : GoError)
| ErrorfS (format : string) (arg : string)
| ErrorfSW (format : string) (arg : string) (wrapped : GoError).

(** [strconv.Atoi] with its error as a [GoError]. *)
Definition Atoi (s : string) : Z * option GoError :=
  match strconv.Atoi s with
  | (z, None) => (z, None)
  | (z, Some k) => (z, Some (NumError "Atoi" s k))
  end.

Inductive Severity := SeverityError | SeverityWarning.

(** An argument of [fmt.Sprintf] in a diagnostic's detail. *)
Inductive Arg := ArgError (e : GoError) | ArgInt (d : Z) | ArgString (s : string).

(** [diag.Diagnostic]: severity, summary, and the detail as its format
    string with its arguments. *)
Record Diagnostic := {
  severity : Severity;
  summary : string;
  detail : string;
  detail_args : list Arg
}.

Definition Diagnostics := list Diagnostic.

Definition NewErrorDiagnostic (s d : string) (args : list Arg) : Diagnostic :=
  {| severity := SeverityError; summary := s; detail := d; detail_args := args |}.

Definition AddError (ds : Diagnostics) (s d : string) (args : list Arg) : Diagnostics :=
  ds ++ [NewErrorDiagnostic s d args].

Definition AddWarning (ds : Diagnostics) (s d : string) (args : list Arg) : Diagnostics :=
  ds ++ [{| severity := SeverityWarning; summary := s; detail := d; detail_args := args |}].

Definition is_error (d : Diagnostic) : bool :=
  match severity d with SeverityError => true | SeverityWarning => false end.

Definition is_warning (d : Diagnostic) : bool :=
  match severity d with SeverityWarning => true | SeverityError => false end.

(** [Diagnostics.HasError]. *)
Definition HasError (ds : Diagnostics) : bool := existsb is_error ds.

(** [Diagnostics.Errors] and [Diagnostics.Warnings]. *)
Definition Errors (ds : Diagnostics) : Diagnostics := List.filter is_error ds.
Definition Warnings (ds : Diagnostics) : Diagnostics := List.filter is_warning ds.

(** ** Framework attribute values *)

Module types.

Inductive String := StringNull | StringUnknown | StringValue (s : string).
Inductive Int64 := Int64Null | Int64Unknown | Int64Value (z : Z).
Inductive Bool := BoolNull | BoolUnknown | BoolValue (b : bool).

(** The part of [attr.Value] the provider calls. *)
Class Value (T : Type) := { IsNull : T -> bool; IsUnknown : T -> bool }.

#[global] Instance String_Value : Value String := {|
  IsNull v := match v with StringNull => true | _ => false end;
  IsUnknown v := match v with StringUnknown => true | _ => false end |}.

#[global] Instance Int64_Value : Value Int64 := {|
  IsNull v := match v with Int64Null => true | _ => false end;
  IsUnknown v := match v with Int64Unknown => true | _ => false end |}.

#[global] Instance Bool_Value : Value Bool := {|
  IsNull v := match v with BoolNull => true | _ => false end;
  IsUnknown v := match v with BoolUnknown => true | _ => false end |}.

(** [ValueString], [ValueInt64], [ValueBool]: the known value, and the
    zero value for null and unknown. *)
Definition ValueString (v : String) : string :=
  match v with StringValue s => s | _ => EmptyString end.

Definition ValueInt64 (v : Int64) : Z :=
  match v with Int64Value z => z | _ => 0 end.

Definition ValueBool (v : Bool) : bool :=
  match v with BoolValue b => b | _ => false end.

End types.

(** ** The SDK's data ([github.com/DelineaXPM/tss-sdk-go/v2/server])

    The SDK is not part of the repository; the records carry the struct
    fields the provider reads or writes.  [Name], [IsFile], [IsNotes],
    [IsPassword] and [Fields] of the template types carry a [Template]
    prefix to keep them apart from the same-named fields of [Secret] and
    [SecretField]. *)

Module server.

Record SecretField := {
  FieldDescription : string;
  FieldID : Z;
  FieldName : string;
  FileAttachmentID : Z;
  Filename : string;
  IsFile : bool;
  IsNotes : bool;
  IsPassword : bool;
  ItemID : Z;
  ItemValue : string;
  Slug : string
}.

Definition with_ItemValue (f : SecretField) (v : string) : SecretField :=
  {| FieldDescription := FieldDescription f; FieldID := FieldID f;
     FieldName := FieldName f; FileAttachmentID := FileAttachmentID f;
     Filename := Filename f; IsFile := IsFile f; IsNotes := IsNotes f;
     IsPassword := IsPassword f; ItemID := ItemID f; ItemValue := v;
     Slug := Slug f |}.

Definition with_Filename (f : SecretField) (v : string) : SecretField :=
  {| FieldDescription := FieldDescription f; FieldID := FieldID f;
     FieldName := FieldName f; FileAttachmentID := FileAttachmentID f;
     Filename := v; IsFile := IsFile f; IsNotes := IsNotes f;
     IsPassword := IsPassword f; ItemID := ItemID f; ItemValue := ItemValue f;
     Slug := Slug f |}.

Definition with_FileAttachmentID (f : SecretField) (v : Z) : SecretField :=
  {| FieldDescription := FieldDescription f; FieldID := FieldID f;
     FieldName := FieldName f; FileAttachmentID := v;
     Filename := Filename f; IsFile := IsFile f; IsNotes := IsNotes f;
     IsPassword := IsPassword f; ItemID := ItemID f; ItemValue := ItemValue f;
     Slug := Slug f |}.

Record SecretTemplateField := {
  SecretTemplateFieldID : Z;
  TemplateName : string;
  FieldSlugName : string;
  Description : string;
  TemplateIsFile : bool;
  TemplateIsNotes : bool;
  TemplateIsPassword : bool
}.

Record SecretTemplate := {
  TemplateFields : list SecretTemplateField
}.

Record SshKeyArgs := {
  GeneratePassphrase : bool;
  GenerateSshKeys : bool
}.

Record Secret := {
  ID : Z;
  Name : string;
  FolderID : Z;
  SiteID : Z;
  SecretTemplateID : Z;
  Fields : list SecretField;
  Active : bool;
  sshKeyArgs : option SshKeyArgs;
  SecretPolicyID : Z;
  PasswordTypeWebScriptID : Z;
  LauncherConnectAsSecretID : Z;
  CheckOutIntervalMinutes : Z;
  CheckedOut : bool;
  CheckOutEnabled : bool;
  AutoChangeEnabled : bool;
  CheckOutChangePasswordEnabled : bool;
  DelayIndexing : bool;
  EnableInheritPermissions : bool;
  EnableInheritSecretPolicy : bool;
  ProxyEnabled : bool;
  RequiresComment : bool;
  SessionRecordingEnabled : bool;
  WebLauncherRequiresIncognitoMode : bool
}.

Definition with_Fields (s : Secret) (fs : list SecretField) : Secret :=
  {| ID := ID s; Name := Name s; FolderID := FolderID s; SiteID := SiteID s;
     SecretTemplateID := SecretTemplateID s; Fields := fs; Active := Active s;
     sshKeyArgs := sshKeyArgs s; SecretPolicyID := SecretPolicyID s;
     PasswordTypeWebScriptID := PasswordTypeWebScriptID s;
     LauncherConnectAsSecretID := LauncherConnectAsSecretID s;
     CheckOutIntervalMinutes := CheckOutIntervalMinutes s;
     CheckedOut := CheckedOut s; CheckOutEnabled := CheckOutEnabled s;
     AutoChangeEnabled := AutoChangeEnabled s;
     CheckOutChangePasswordEnabled := CheckOutChangePasswordEnabled s;
     DelayIndexing := DelayIndexing s;
     EnableInheritPermissions := EnableInheritPermissions s;
     EnableInheritSecretPolicy := EnableInheritSecretPolicy s;
     ProxyEnabled := ProxyEnabled s; RequiresComment := RequiresComment s;
     SessionRecordingEnabled := SessionRecordingEnabled s;
     WebLauncherRequiresIncognitoMode := WebLauncherRequiresIncognitoMode s |}.

Definition with_ID (s : Secret) (id : Z) : Secret :=
  {| ID := id; Name := Name s; FolderID := FolderID s; SiteID := SiteID s;
     SecretTemplateID := SecretTemplateID s; Fields := Fields s; Active := Active s;
     sshKeyArgs := sshKeyArgs s; SecretPolicyID := SecretPolicyID s;
     PasswordTypeWebScriptID := PasswordTypeWebScriptID s;
     LauncherConnectAsSecretID := LauncherConnectAsSecretID s;
     CheckOutIntervalMinutes := CheckOutIntervalMinutes s;
     CheckedOut := CheckedOut s; CheckOutEnabled := CheckOutEnabled s;
     AutoChangeEnabled := AutoChangeEnabled s;
     CheckOutChangePasswordEnabled := CheckOutChangePasswordEnabled s;
     DelayIndexing := DelayIndexing s;
     EnableInheritPermissions := EnableInheritPermissions s;
     EnableInheritSecretPolicy := EnableInheritSecretPolicy s;
     ProxyEnabled := ProxyEnabled s; RequiresComment := RequiresComment s;
     SessionRecordingEnabled := SessionRecordingEnabled s;
     WebLauncherRequiresIncognitoMode := WebLauncherRequiresIncognitoMode s |}.

End server.

(** ** The resource's state model ([resource_secret.go], lines 37-83) *)

Record SecretField := {
  FieldName : types.String;
  ItemValue : types.String;
  ItemID : types.Int64;
  FieldID : types.Int64;
  FileAttachmentID : types.Int64;
  Slug : types.String;
  FieldDescription : types.String;
  Filename : types.String;
  IsFile : types.Bool;
  IsNotes : types.Bool;
  IsPassword : types.Bool;
  IsList : types.Bool;
  ListType : types.String
}.

Definition with_FileAttachmentID (f : SecretField) (v : types.Int64) : SecretField :=
  {| FieldName := FieldName f; ItemValue := ItemValue f; ItemID := ItemID f;
     FieldID := FieldID f; FileAttachmentID := v; Slug := Slug f;
     FieldDescription := FieldDescription f; Filename := Filename f;
     IsFile := IsFile f; IsNotes := IsNotes f; IsPassword := IsPassword f;
     IsList := IsList f; ListType := ListType f |}.

Definition with_Filename (f : SecretField) (v : types.String) : SecretField :=
  {| FieldName := FieldName f; ItemValue := ItemValue f; ItemID := ItemID f;
     FieldID := FieldID f; FileAttachmentID := FileAttachmentID f; Slug := Slug f;
     FieldDescription := FieldDescription f; Filename := v;
     IsFile := IsFile f; IsNotes := IsNotes f; IsPassword := IsPassword f;
     IsList := IsList f; ListType := ListType f |}.

Record SshKeyArgs := {
  GeneratePassphrase : types.Bool;
  GenerateSshKeys : types.Bool
}.

Record SecretResourceState := {
  ID : types.String;
  Name : types.String;
  FolderID : types.String;
  SiteID : types.String;
  SecretTemplateID : types.String;
  Fields : list SecretField;
  sshKeyArgs : option SshKeyArgs;
  Active : types.Bool;
  SecretPolicyID : types.Int64;
  PasswordTypeWebScriptID : types.Int64;
  LauncherConnectAsSecretID : types.Int64;
  CheckOutIntervalMinutes : types.Int64;
  CheckedOut : types.Bool;
  CheckOutEnabled : types.Bool;
  AutoChangeEnabled : types.Bool;
  CheckOutChangePasswordEnabled : types.Bool;
  DelayIndexing : types.Bool;
  EnableInheritPermissions : types.Bool;
  EnableInheritSecretPolicy : types.Bool;
  ProxyEnabled : types.Bool;
  RequiresComment : types.Bool;
  SessionRecordingEnabled : types.Bool;
  WebLauncherRequiresIncognitoMode : types.Bool
}.

Definition with_Fields (s : SecretResourceState) (fs : list SecretField) : SecretResourceState :=
  {| ID := ID s; Name := Name s; FolderID := FolderID s; SiteID := SiteID s;
     SecretTemplateID := SecretTemplateID s; Fields := fs;
     sshKeyArgs := sshKeyArgs s; Active := Active s;
     SecretPolicyID := SecretPolicyID s;
     PasswordTypeWebScriptID := PasswordTypeWebScriptID s;
     LauncherConnectAsSecretID := LauncherConnectAsSecretID s;
     CheckOutIntervalMinutes := CheckOutIntervalMinutes s;
     CheckedOut := CheckedOut s; CheckOutEnabled := CheckOutEnabled s;
     AutoChangeEnabled := AutoChangeEnabled s;
     CheckOutChangePasswordEnabled := CheckOutChangePasswordEnabled s;
     DelayIndexing := DelayIndexing s;
     EnableInheritPermissions := EnableInheritPermissions s;
     EnableInheritSecretPolicy := EnableInheritSecretPolicy s;
     ProxyEnabled := ProxyEnabled s; RequiresComment := RequiresComment s;
     SessionRecordingEnabled := SessionRecordingEnabled s;
     WebLauncherRequiresIncognitoMode := WebLauncherRequiresIncognitoMode s |}.

Definition with_SshKeyArgs (s : SecretResourceState) (a : option SshKeyArgs) : SecretResourceState :=
  {| ID := ID s; Name := Name s; FolderID := FolderID s; SiteID := SiteID s;
     SecretTemplateID := SecretTemplateID s; Fields := Fields s;
     sshKeyArgs := a; Active := Active s;
     SecretPolicyID := SecretPolicyID s;
     PasswordTypeWebScriptID := PasswordTypeWebScriptID s;
     LauncherConnectAsSecretID := LauncherConnectAsSecretID s;
     CheckOutIntervalMinutes := CheckOutIntervalMinutes s;
     CheckedOut := CheckedOut s; CheckOutEnabled := CheckOutEnabled s;
     AutoChangeEnabled := AutoChangeEnabled s;
     CheckOutChangePasswordEnabled := CheckOutChangePasswordEnabled s;
     DelayIndexing := DelayIndexing s;
     EnableInheritPermissions := EnableInheritPermissions s;
     EnableInheritSecretPolicy := EnableInheritSecretPolicy s;
     ProxyEnabled := ProxyEnabled s; RequiresComment := RequiresComment s;
     SessionRecordingEnabled := SessionRecordingEnabled s;
     WebLauncherRequiresIncognitoMode := WebLauncherRequiresIncognitoMode s |}.

(** The name of a state field, as every comparison in the source reads
    it: [field.FieldName.ValueString()]. *)
Definition fieldNameOf (f : SecretField) : string := types.ValueString (FieldName f).

(** ** [reorderFieldsToMatchPlan] (lines 836-880) *)

(** Lines 840-843: the map from lower-cased name to state field; a later
    field with the same key overwrites an earlier one. *)
Definition stateFieldMap (stateFields : list SecretField) : gmap string SecretField :=
  foldl (fun m field => <[strings.ToLower (fieldNameOf field) := field]> m) ∅ stateFields.

(** Lines 848-860: walk the plan, emit the mapped state field when there
    is one. *)
Fixpoint matchPlanFields (m : gmap string SecretField) (planFields : list SecretField)
  : list SecretField :=
  match planFields with
  | [] => []
  | planField :: rest =>
      match m !! strings.ToLower (fieldNameOf planField) with
      | Some stateField => stateField :: matchPlanFields m rest
      | None => matchPlanFields m rest
      end
  end.

(** Lines 863-877: append every state field whose name no field of the
    result so far carries; the search runs over the growing result. *)
Fixpoint appendUnplanned (reorderedFields stateFields : list SecretField)
  : list SecretField :=
  match stateFields with
  | [] => reorderedFields
  | stateField :: rest =>
      let found :=
        existsb (fun reorderedField =>
                   strings.EqualFold (fieldNameOf stateField) (fieldNameOf reorderedField))
                reorderedFields in
      if found then appendUnplanned reorderedFields rest
      else appendUnplanned (reorderedFields ++ [stateField]) rest
  end.

Definition reorderFieldsToMatchPlan (planFields stateFields : list SecretField)
  : list SecretField :=
  appendUnplanned (matchPlanFields (stateFieldMap stateFields) planFields) stateFields.

(** ** Template binding *)

(** [getSecretData], lines 1049-1059: the first template field, in
    declaration order, whose name or slug equals the declared field name
    under case folding. *)
Fixpoint lookupTemplateField (fieldName : string)
    (records : list server.SecretTemplateField) : option server.SecretTemplateField :=
  match records with
  | [] => None
  | record :: rest =>
      if strings.EqualFold (server.TemplateName record) fieldName
         || strings.EqualFold (server.FieldSlugName record) fieldName
      then Some record
      else lookupTemplateField fieldName rest
  end.

(** The loop condition of [generatePassword], lines 914-916. *)
Definition templateFieldMatches (field : server.SecretField)
    (tf : server.SecretTemplateField) : bool :=
  ((0 <? server.FieldID field)
     && (server.SecretTemplateFieldID tf =? server.FieldID field))
  || strings.EqualFold (server.TemplateName tf) (server.FieldName field)
  || strings.EqualFold (server.FieldSlugName tf) (server.FieldName field).

(** [generatePassword], lines 911-920. *)
Fixpoint findTemplateField (field : server.SecretField)
    (tfs : list server.SecretTemplateField) : option server.SecretTemplateField :=
  match tfs with
  | [] => None
  | tf :: rest =>
      if templateFieldMatches field tf then Some tf
      else findTemplateField field rest
  end.

(** ** [getSecretData]: the field list (lines 1041-1128) *)

Definition buildSecretField (template : server.SecretTemplate) (field : SecretField)
  : GoError + server.SecretField :=
  let fieldName := fieldNameOf field in
  match lookupTemplateField fieldName (server.TemplateFields template) with
  | None => inl (ErrorfS "field '%s' not found in secret template" fieldName)
  | Some templateField =>
      let itemValue :=
        if types.IsNull (ItemValue field) then EmptyString
        else types.ValueString (ItemValue field) in
      let secretField :=
        {| server.FieldDescription := server.Description templateField;
           server.FieldID := server.SecretTemplateFieldID templateField;
           server.FieldName := server.TemplateName templateField;
           server.FileAttachmentID := 0;
           server.Filename := EmptyString;
           server.IsFile := server.TemplateIsFile templateField;
           server.IsNotes := server.TemplateIsNotes templateField;
           server.IsPassword := server.TemplateIsPassword templateField;
           server.ItemID := 0;
           server.ItemValue := itemValue;
           server.Slug := server.FieldSlugName templateField |} in
      if server.TemplateIsFile templateField
         || (negb (types.IsNull (IsFile field)) && types.ValueBool (IsFile field))
      then
        let secretField :=
          if negb (types.IsNull (FileAttachmentID field))
          then server.with_FileAttachmentID secretField
                 (types.ValueInt64 (FileAttachmentID field))
          else secretField in
        let secretField :=
          if negb (types.IsNull (Filename field))
          then server.with_Filename secretField (types.ValueString (Filename field))
          else secretField in
        inr secretField
      else inr secretField
  end.

(** The loop over [state.Fields]; the first unbound field aborts. *)
Fixpoint buildSecretFields (template : server.SecretTemplate) (fields : list SecretField)
  : GoError + list server.SecretField :=
  match fields with
  | [] => inr []
  | field :: rest =>
      match buildSecretField template field with
      | inl err => inl err
      | inr secretField =>
          match buildSecretFields template rest with
          | inl err => inl err
          | inr secretFields => inr (secretField :: secretFields)
          end
      end
  end.

(** [if !v.IsNull() { x = int(v.ValueInt64()) }] over a zero-initialised
    [x], and its boolean twin (lines 1154-1198). *)
Definition optInt (v : types.Int64) : Z :=
  if negb (types.IsNull v) then types.ValueInt64 v else 0.

Definition optBool (v : types.Bool) : bool :=
  if negb (types.IsNull v) then types.ValueBool v else false.

(** Lines 1131-1207: the secret assembled from parsed identifiers, the
    bound fields and the remaining attributes of the state. *)
Definition assembleSecret (state : SecretResourceState) (folderID siteID templateID : Z)
    (fields : list server.SecretField) : server.Secret :=
  {| server.ID := 0;
     server.Name := types.ValueString (Name state);
     server.FolderID := folderID;
     server.SiteID := siteID;
     server.SecretTemplateID := templateID;
     server.Fields := fields;
     server.Active := types.ValueBool (Active state);
     server.sshKeyArgs :=
       match sshKeyArgs state with
       | Some a =>
           Some {| server.GeneratePassphrase := types.ValueBool (GeneratePassphrase a);
                   server.GenerateSshKeys := types.ValueBool (GenerateSshKeys a) |}
       | None => None
       end;
     server.SecretPolicyID := optInt (SecretPolicyID state);
     server.PasswordTypeWebScriptID := optInt (PasswordTypeWebScriptID state);
     server.LauncherConnectAsSecretID := optInt (LauncherConnectAsSecretID state);
     server.CheckOutIntervalMinutes := optInt (CheckOutIntervalMinutes state);
     server.CheckedOut := optBool (CheckedOut state);
     server.CheckOutEnabled := optBool (CheckOutEnabled state);
     server.AutoChangeEnabled := optBool (AutoChangeEnabled state);
     server.CheckOutChangePasswordEnabled := optBool (CheckOutChangePasswordEnabled state);
     server.DelayIndexing := optBool (DelayIndexing state);
     server.EnableInheritPermissions := optBool (EnableInheritPermissions state);
     server.EnableInheritSecretPolicy := optBool (EnableInheritSecretPolicy state);
     server.ProxyEnabled := optBool (ProxyEnabled state);
     server.RequiresComment := optBool (RequiresComment state);
     server.SessionRecordingEnabled := optBool (SessionRecordingEnabled state);
     server.WebLauncherRequiresIncognitoMode :=
       optBool (WebLauncherRequiresIncognitoMode state) |}.

(** ** [flattenSecret] (lines 1210-1321) *)

(** The SSH-key heuristic on a field name (lines 519-520, 614-615,
    732-733, 1257-1258). *)
Definition nameLooksLikeSshKey (fieldName : string) : bool :=
  strings.Contains (strings.ToLower fieldName) "key"
  || strings.Contains (strings.ToLower fieldName) "passphrase".

(** Lines 1219-1268, one remote field. *)
Definition flattenField (f : server.SecretField) : SecretField :=
  let itemValue := types.StringValue (server.ItemValue f) in
  let field :=
    {| FieldName := types.StringValue (server.FieldName f);
       ItemValue := itemValue;
       ItemID := types.Int64Value (server.ItemID f);
       FieldID := types.Int64Value (server.FieldID f);
       FileAttachmentID := types.Int64Value (server.FileAttachmentID f);
       Slug := types.StringValue (server.Slug f);
       FieldDescription := types.StringValue (server.FieldDescription f);
       Filename := types.StringValue (server.Filename f);
       IsFile := types.BoolValue (server.IsFile f);
       IsNotes := types.BoolValue (server.IsNotes f);
       IsPassword := types.BoolValue (server.IsPassword f);
       IsList := types.BoolNull;
       ListType := types.StringNull |} in
  let field :=
    if server.IsFile f then
      let field := with_FileAttachmentID field (types.Int64Value (server.FileAttachmentID f)) in
      if negb (String.eqb (server.Filename f) EmptyString)
      then with_Filename field (types.StringValue (server.Filename f))
      else field
    else field in
  let isSSHKeyField := nameLooksLikeSshKey (server.FieldName f) in
  if isSSHKeyField && negb (String.eqb (server.Filename f) EmptyString)
  then with_Filename field (types.StringValue (server.Filename f))
  else field.

(** [if x != 0 { state.X = types.Int64Value(int64(x)) }] over the zero
    value of [types.Int64], which is null (lines 1291-1302). *)
Definition nonZeroInt64 (x : Z) : types.Int64 :=
  if negb (x =? 0) then types.Int64Value x else types.Int64Null.

(** Lines 1271-1313: the state built from the remote secret. *)
Definition flattenedState (secret : server.Secret) : SecretResourceState :=
  let fields := map flattenField (server.Fields secret) in
      {| Name := types.StringValue (server.Name secret);
         ID := types.StringValue (strconv.Itoa (server.ID secret));
         FolderID := types.StringValue (strconv.Itoa (server.FolderID secret));
         SiteID := types.StringValue (strconv.Itoa (server.SiteID secret));
         SecretTemplateID := types.StringValue (strconv.Itoa (server.SecretTemplateID secret));
         Fields := fields;
         Active := types.BoolValue (server.Active secret);
         sshKeyArgs :=
           match server.sshKeyArgs secret with
           | Some a =>
               Some {| GeneratePassphrase := types.BoolValue (server.GeneratePassphrase a);
                       GenerateSshKeys := types.BoolValue (server.GenerateSshKeys a) |}
           | None => None
           end;
         SecretPolicyID := nonZeroInt64 (server.SecretPolicyID secret);
         PasswordTypeWebScriptID := nonZeroInt64 (server.PasswordTypeWebScriptID secret);
         LauncherConnectAsSecretID := nonZeroInt64 (server.LauncherConnectAsSecretID secret);
         CheckOutIntervalMinutes := nonZeroInt64 (server.CheckOutIntervalMinutes secret);
         CheckedOut := types.BoolValue (server.CheckedOut secret);
         CheckOutEnabled := types.BoolValue (server.CheckOutEnabled secret);
         AutoChangeEnabled := types.BoolValue (server.AutoChangeEnabled secret);
         CheckOutChangePasswordEnabled :=
           types.BoolValue (server.CheckOutChangePasswordEnabled secret);
         DelayIndexing := types.BoolValue (server.DelayIndexing secret);
         EnableInheritPermissions := types.BoolValue (server.EnableInheritPermissions secret);
         EnableInheritSecretPolicy := types.BoolValue (server.EnableInheritSecretPolicy secret);
         ProxyEnabled := types.BoolValue (server.ProxyEnabled secret);
         RequiresComment := types.BoolValue (server.RequiresComment secret);
         SessionRecordingEnabled := types.BoolValue (server.SessionRecordingEnabled secret);
         WebLauncherRequiresIncognitoMode :=
           types.BoolValue (server.WebLauncherRequiresIncognitoMode secret) |}.

(** The error result of [flattenSecret] is [nil] on every path. *)
Definition flattenSecret (secret : server.Secret) : GoError + SecretResourceState :=
  inr (flattenedState secret).

(** ** Plan modifiers of [itemvalue] (lines 1323-1471) *)

(** The part of [planmodifier.StringRequest] the modifiers read:
    [StateRawIsNull] is [req.State.Raw.IsNull()] (true on create) and
    [PathSteps] the rendered steps of [req.Path]. *)
Record StringRequest := {
  ConfigValue : types.String;
  StateValue : types.String;
  PlanValue : types.String;
  StateRawIsNull : bool;
  PathSteps : list string
}.

Definition isEmptyString (s : string) : bool := String.eqb s EmptyString.

Definition shouldComputeSshKeyValue (req : StringRequest) : bool :=
  if negb (StateRawIsNull req) then false
  else if negb (types.IsNull (ConfigValue req))
          && isEmptyString (types.ValueString (ConfigValue req)) then false
  else if (length (PathSteps req) <? 3)%nat then false
  else if negb (String.eqb (List.hd EmptyString (PathSteps req)) "fields")
          || negb (String.eqb (List.last (PathSteps req) EmptyString) "itemvalue")
       then false
  else isEmptyString (types.ValueString (PlanValue req)).

(** [sshKeyFieldPlanModifier.PlanModifyString]; the result is
    [resp.PlanValue]. *)
Definition sshKeyFieldPlanModifier_PlanModifyString (req : StringRequest) : types.String :=
  if negb (types.IsNull (ConfigValue req)) then ConfigValue req
  else if negb (types.IsNull (StateValue req))
          && negb (isEmptyString (types.ValueString (StateValue req)))
       then StateValue req
  else if StateRawIsNull req
          && (types.IsNull (PlanValue req)
              || isEmptyString (types.ValueString (PlanValue req)))
          && shouldComputeSshKeyValue req
       then types.StringUnknown
  else if types.IsNull (PlanValue req) then types.StringValue EmptyString
  else PlanValue req.

Definition shouldComputePasswordValue (req : StringRequest) : bool :=
  if negb (StateRawIsNull req) then false
  else if negb (types.IsNull (ConfigValue req))
          && isEmptyString (types.ValueString (ConfigValue req)) then false
  else true.

(** [passwordFieldPlanModifier.PlanModifyString] (lines 1429-1455). *)
Definition passwordFieldPlanModifier_PlanModifyString (req : StringRequest) : types.String :=
  if negb (types.IsNull (ConfigValue req))
     && negb (isEmptyString (types.ValueString (ConfigValue req)))
  then ConfigValue req
  else if (negb (types.IsNull (StateValue req))
           && negb (isEmptyString (types.ValueString (StateValue req))))
          && (types.IsNull (ConfigValue req)
              || isEmptyString (types.ValueString (ConfigValue req)))
       then StateValue req
  else if StateRawIsNull req
          && (types.IsNull (PlanValue req)
              || isEmptyString (types.ValueString (PlanValue req)))
          && shouldComputePasswordValue req
       then types.StringUnknown
  else PlanValue req.

(** ** The per-field loops of [Create], [Read] and [Update] *)

(** Lines 588-594 (and 508-514): generation intent recorded in state. *)
Definition hasSshKeyArgsOf (state : SecretResourceState) : bool :=
  match sshKeyArgs state with
  | Some a => types.ValueBool (GenerateSshKeys a) || types.ValueBool (GeneratePassphrase a)
  | None => false
  end.

Definition sameNameFold (fieldName : string) (f : SecretField) : bool :=
  strings.EqualFold (fieldNameOf f) fieldName.

Definition sameNameExact (fieldName : string) (f : SecretField) : bool :=
  String.eqb (fieldNameOf f) fieldName.

(** [Update], lines 611-673, the body for one field of [updatedSecret];
    iteration [i] reads its copy [field] and writes [Fields[i]] only. *)
Definition preserveStateValue (hasSshKeyArgs : bool)
    (planFields stateFields : list SecretField) (field : server.SecretField)
  : server.SecretField :=
  let fieldName := server.FieldName field in
  let isSSHKeyField := hasSshKeyArgs && nameLooksLikeSshKey fieldName in
  let isPasswordField :=
    match List.find (sameNameFold fieldName) stateFields with
    | Some stateField =>
        negb (types.IsNull (IsPassword stateField))
        && types.ValueBool (IsPassword stateField)
    | None => false
    end in
  if isSSHKeyField || isPasswordField then
    match List.find (sameNameFold fieldName) stateFields with
    | Some stateField =>
        let updated :=
          match List.find (sameNameFold fieldName) planFields with
          | Some planField =>
              if types.IsNull (ItemValue planField)
                 || isEmptyString (types.ValueString (ItemValue planField))
              then server.with_ItemValue field (types.ValueString (ItemValue stateField))
              else field
          | None =>
              server.with_ItemValue field (types.ValueString (ItemValue stateField))
          end in
        if negb (types.IsNull (Filename stateField))
           && negb (isEmptyString (types.ValueString (Filename stateField)))
        then server.with_Filename updated (types.ValueString (Filename stateField))
        else updated
    | None => field
    end
  else field.

(** [Create], lines 408-425. *)
Definition keepPlanAttachment (planFields : list SecretField) (field : SecretField)
  : SecretField :=
  if types.ValueBool (IsFile field) then
    match List.find (fun planField =>
                       sameNameExact (fieldNameOf field) planField
                       && types.ValueBool (IsFile planField)) planFields with
    | Some planField =>
        with_Filename (with_FileAttachmentID field (FileAttachmentID planField))
                      (Filename planField)
    | None => field
    end
  else field.

(** [Read], lines 517-541 (and [Update], lines 736-753). *)
Definition keepStateAttachment (hasSshKeyArgs : bool) (oldFields : list SecretField)
    (field : SecretField) : SecretField :=
  let fieldName := fieldNameOf field in
  let isSSHKeyField := hasSshKeyArgs && nameLooksLikeSshKey fieldName in
  if types.ValueBool (IsFile field) || isSSHKeyField then
    match List.find (sameNameExact fieldName) oldFields with
    | Some oldField =>
        let kept :=
          if negb (types.IsNull (FileAttachmentID oldField))
          then with_FileAttachmentID field (FileAttachmentID oldField)
          else field in
        if negb (types.IsNull (Filename oldField))
           && negb (isEmptyString (types.ValueString (Filename oldField)))
        then with_Filename kept (Filename oldField)
        else kept
    | None => field
    end
  else field.

(** [Update], lines 730-767: state first, then the plan's filename when
    the filename is still empty. *)
Definition keepUpdateAttachment (hasSshKeyArgs : bool)
    (planFields stateFields : list SecretField) (field : SecretField) : SecretField :=
  let fieldName := fieldNameOf field in
  let isSSHKeyField := hasSshKeyArgs && nameLooksLikeSshKey fieldName in
  if types.ValueBool (IsFile field) || isSSHKeyField then
    let kept := keepStateAttachment hasSshKeyArgs stateFields field in
    if types.IsNull (Filename kept)
       || isEmptyString (types.ValueString (Filename kept))
    then
      match List.find (sameNameExact fieldName) planFields with
      | Some planField =>
          if negb (types.IsNull (Filename planField))
             && negb (isEmptyString (types.ValueString (Filename planField)))
          then with_Filename kept (Filename planField)
          else kept
      | None => kept
      end
    else kept
  else field.

(** ** The remote client *)

(** One entry of the call log per method of [*server.Server] invoked. *)
Inductive Call :=
| CallSecretTemplate (id : Z)
| CallSecret (id : Z)
| CallCreateSecret (secret : server.Secret)
| CallUpdateSecret (secret : server.Secret)
| CallDeleteSecret (id : Z)
| CallGeneratePassword (slug : string) (template : server.SecretTemplate).

(** The client's operations over the remote world [W].  [secretField] is
    the SDK's [Secret.Field(name)], returning [(value, ok)]. *)
Record Server (W : Type) := {
  doSecretTemplate : Z -> W -> (GoError + server.SecretTemplate) * W;
  doSecret : Z -> W -> (GoError + server.Secret) * W;
  doCreateSecret : server.Secret -> W -> (GoError + server.Secret) * W;
  doUpdateSecret : server.Secret -> W -> (GoError + server.Secret) * W;
  doDeleteSecret : Z -> W -> option GoError * W;
  doGeneratePassword : string -> server.SecretTemplate -> W -> (GoError + string) * W;
  secretField : server.Secret -> string -> option string
}.

Arguments doSecretTemplate {W}.
Arguments doSecret {W}.
Arguments doCreateSecret {W}.
Arguments doUpdateSecret {W}.
Arguments doDeleteSecret {W}.
Arguments doGeneratePassword {W}.
Arguments secretField {W}.

Record World (W : Type) := {
  remote : W;
  calls : list Call
}.

Arguments remote {W}.
Arguments calls {W}.

(** What a lifecycle callback leaves in its response: the state handed to
    [resp.State.Set], if it was reached, and the diagnostics. *)
Record Response := {
  State : option SecretResourceState;
  Diags : Diagnostics
}.

Definition failed (ds : Diagnostics) : Response := {| State := None; Diags := ds |}.

Section Provider.

Context {W : Type}.

(** Computations against the remote world, logging the calls. *)
Definition M (A : Type) : Type := World W -> A * World W.

#[global] Instance M_ret : MRet M := fun A a w => (a, w).

#[global] Instance M_bind : MBind M :=
  fun A B f m w => let '(a, w') := m w in f a w'.

Definition remoteCall {A : Type} (c : Call) (op : W -> A * W) : M A :=
  fun w =>
    let '(a, r) := op (remote w) in
    (a, {| remote := r; calls := calls w ++ [c] |}).

Definition SecretTemplate (client : Server W) (id : Z) : M (GoError + server.SecretTemplate) :=
  remoteCall (CallSecretTemplate id) (doSecretTemplate client id).

Definition Secret (client : Server W) (id : Z) : M (GoError + server.Secret) :=
  remoteCall (CallSecret id) (doSecret client id).

Definition CreateSecret (client : Server W) (s : server.Secret) : M (GoError + server.Secret) :=
  remoteCall (CallCreateSecret s) (doCreateSecret client s).

Definition UpdateSecret (client : Server W) (s : server.Secret) : M (GoError + server.Secret) :=
  remoteCall (CallUpdateSecret s) (doUpdateSecret client s).

Definition DeleteSecret (client : Server W) (id : Z) : M (option GoError) :=
  remoteCall (CallDeleteSecret id) (doDeleteSecret client id).

Definition GeneratePassword (client : Server W) (slug : string)
    (template : server.SecretTemplate) : M (GoError + string) :=
  remoteCall (CallGeneratePassword slug template) (doGeneratePassword client slug template).

(** ** [getSecretData] (lines 995-1208) *)

Definition getSecretData (state : SecretResourceState) (client : Server W)
  : M (GoError + server.Secret) :=
  match Atoi (types.ValueString (FolderID state)) with
  | (_, Some err) => mret (inl (ErrorfW "invalid Folder ID: %w" err))
  | (folderID, None) =>
  match Atoi (types.ValueString (SiteID state)) with
  | (_, Some err) => mret (inl (ErrorfW "invalid Site ID: %w" err))
  | (siteID, None) =>
  match Atoi (types.ValueString (SecretTemplateID state)) with
  | (_, Some err) => mret (inl (ErrorfW "invalid Template ID: %w" err))
  | (templateID, None) =>
      t ← SecretTemplate client templateID;
      match t with
      | inl err => mret (inl (ErrorfW "failed to retrieve secret template: %w" err))
      | inr template =>
          match buildSecretFields template (Fields state) with
          | inl err => mret (inl err)
          | inr fields =>
              mret (inr (assembleSecret state folderID siteID templateID fields))
          end
      end
  end end end.

(** ** [generatePassword] (lines 892-946) *)

(** Lines 910-943: iteration [i] reads its copy [field] and writes
    [secret.Fields[i].ItemValue] only; a failed generation aborts. *)
Fixpoint generatePasswords (client : Server W) (template : server.SecretTemplate)
    (fields : list server.SecretField) : M (GoError + list server.SecretField) :=
  match fields with
  | [] => mret (inr [])
  | field :: rest =>
      let continue (field' : server.SecretField) : M (GoError + list server.SecretField) :=
        r ← generatePasswords client template rest;
        match r with
        | inl err => mret (inl err)
        | inr fields' => mret (inr (field' :: fields'))
        end in
      match findTemplateField field (server.TemplateFields template) with
      | Some templateField =>
          if server.TemplateIsPassword templateField
             && isEmptyString (server.ItemValue field)
          then
            g ← GeneratePassword client (server.FieldSlugName templateField) template;
            match g with
            | inl err =>
                mret (inl (ErrorfSW "failed to generate password for field %s: %w"
                                    (server.FieldName field) err))
            | inr generatedPassword =>
                continue (server.with_ItemValue field generatedPassword)
            end
          else continue field
      | None => continue field
      end
  end.

Definition generatePassword (state : SecretResourceState) (client : Server W)
  : M (GoError + server.Secret) :=
  r ← getSecretData state client;
  match r with
  | inl err => mret (inl err)
  | inr secret =>
      match Atoi (types.ValueString (SecretTemplateID state)) with
      | (_, Some err) => mret (inl (ErrorfW "invalid Template ID: %w" err))
      | (templateID, None) =>
          t ← SecretTemplate client templateID;
          match t with
          | inl err => mret (inl (ErrorfW "failed to retrieve secret template: %w" err))
          | inr template =>
              g ← generatePasswords client template (server.Fields secret);
              match g with
              | inl err => mret (inl err)
              | inr fields => mret (inr (server.with_Fields secret fields))
              end
          end
      end
  end.

(** ** [readSecretByID] (lines 948-993)

    The Go result [(state, diags)] carries either a state and no
    diagnostics or [nil] and one error diagnostic; it is the sum here. *)
Definition readSecretByID (client : Server W) (id : string)
  : M (Diagnostics + SecretResourceState) :=
  match Atoi id with
  | (_, Some err) =>
      mret (inl [NewErrorDiagnostic "Secret Conversion Error" "invalid secret ID: %s"
                                    [ArgError err]])
  | (secretID, None) =>
      r ← Secret client secretID;
      match r with
      | inl err =>
          mret (inl [NewErrorDiagnostic "Secret Retrieval Error"
                                        "Failed to retrieve secret: %s" [ArgError err]])
      | inr secret =>
          match flattenSecret secret with
          | inl err =>
              mret (inl [NewErrorDiagnostic "State Error" "Failed to flatten secret: %s"
                                            [ArgError err]])
          | inr state => mret (inr state)
          end
      end
  end.

Definition clientNotConfigured : Response :=
  failed (AddError [] "Client Error" "The server client is not configured" []).

(** ** [Create] (lines 313-441) *)
Definition Create (client : option (Server W)) (plan : SecretResourceState) : M Response :=
  match client with
  | None => mret clientNotConfigured
  | Some client =>
      r ← generatePassword plan client;
      match r with
      | inl err =>
          mret (failed (AddError [] "Secret Data Error" "Failed to prepare secret data: %s"
                                 [ArgError err]))
      | inr newSecret =>
          c ← CreateSecret client newSecret;
          match c with
          | inl err =>
              mret (failed (AddError [] "Secret Creation Error" "Failed to create secret: %s"
                                     [ArgError err]))
          | inr createdSecret =>
              let stringCreatedSecret := strconv.Itoa (server.ID createdSecret) in
              rd ← readSecretByID client stringCreatedSecret;
              match rd with
              | inl readDiags => mret (failed readDiags)
              | inr newState =>
                  let newState :=
                    with_Fields newState
                      (reorderFieldsToMatchPlan (Fields plan) (Fields newState)) in
                  let newState :=
                    match sshKeyArgs plan with
                    | Some a => with_SshKeyArgs newState (Some a)
                    | None => newState
                    end in
                  let newState :=
                    with_Fields newState
                      (map (keepPlanAttachment (Fields plan)) (Fields newState)) in
                  mret {| State := Some newState; Diags := [] |}
              end
          end
      end
  end.

(** ** [Read] (lines 443-546) *)
Definition Read (client : option (Server W)) (state : SecretResourceState) : M Response :=
  let originalFields := Fields state in
  match client with
  | None => mret clientNotConfigured
  | Some client =>
      rd ← readSecretByID client (types.ValueString (ID state));
      match rd with
      | inl readDiags => mret (failed readDiags)
      | inr newState =>
          let newState :=
            with_Fields newState
              (reorderFieldsToMatchPlan originalFields (Fields newState)) in
          let newState :=
            match sshKeyArgs state with
            | Some a => with_SshKeyArgs newState (Some a)
            | None => newState
            end in
          let hasSshKeyArgs := hasSshKeyArgsOf state in
          let newState :=
            with_Fields newState
              (map (keepStateAttachment hasSshKeyArgs (Fields state)) (Fields newState)) in
          mret {| State := Some newState; Diags := [] |}
      end
  end.

(** ** [Update] (lines 549-772) *)
Definition Update (client : option (Server W)) (plan state : SecretResourceState)
  : M Response :=
  match client with
  | None => mret clientNotConfigured
  | Some client =>
      let updatePlan := plan in
      let hasSshKeyArgs := hasSshKeyArgsOf state in
      let updatePlan := with_SshKeyArgs updatePlan None in
      r ← getSecretData updatePlan client;
      match r with
      | inl err =>
          mret (failed (AddError [] "Secret Data Error" "Failed to prepare secret data: %s"
                                 [ArgError err]))
      | inr updatedSecret =>
          let updatedSecret :=
            server.with_Fields updatedSecret
              (map (preserveStateValue hasSshKeyArgs (Fields plan) (Fields state))
                   (server.Fields updatedSecret)) in
          let us := types.ValueString (ID state) in
          match Atoi us with
          | (_, Some err) =>
              mret (failed (AddError [] "Error converting ID from string to int"
                                     "Failed to update secret: %s" [ArgError err]))
          | (ustoi, None) =>
              let updatedSecret := server.with_ID updatedSecret ustoi in
              u ← UpdateSecret client updatedSecret;
              match u with
              | inl err =>
                  mret (failed (AddError [] "Secret Update Error"
                                         "Failed to update secret: %s" [ArgError err]))
              | inr _ =>
                  rd ← readSecretByID client us;
                  match rd with
                  | inl readDiags => mret (failed readDiags)
                  | inr newState =>
                      let newState :=
                        with_Fields newState
                          (reorderFieldsToMatchPlan (Fields plan) (Fields newState)) in
                      let newState :=
                        match sshKeyArgs plan with
                        | Some a => with_SshKeyArgs newState (Some a)
                        | None => newState
                        end in
                      let newState :=
                        with_Fields newState
                          (map (keepUpdateAttachment hasSshKeyArgs (Fields plan) (Fields state))
                               (Fields newState)) in
                      mret {| State := Some newState; Diags := [] |}
                  end
              end
          end
      end
  end.

(** ** [Delete] (lines 775-832)

    The error of [strconv.Atoi] is logged (lines 804-809) and execution
    goes on with the integer [Atoi] returned beside it. *)
Definition Delete (client : option (Server W)) (state : SecretResourceState) : M Response :=
  let id := types.ValueString (ID state) in
  match client with
  | None => mret clientNotConfigured
  | Some client =>
      let '(idtoi, _) := Atoi id in
      e ← DeleteSecret client idtoi;
      match e with
      | Some err =>
          mret (failed (AddError [] "Secret Deletion Error" "Failed to delete secret: %s"
                                 [ArgError err]))
      | None => mret {| State := None; Diags := [] |}
      end
  end.

End Provider.

(** ** The ephemeral resource ([ephemeral_resource_secrets.go]) *)

(** [SecretModel] (lines 32-35). *)
Record SecretModel := {
  SecretID : types.Int64;
  Value : types.String
}.

(** [TSSSecretsEphemeralResourceModel] (lines 25-29). *)
Record TSSSecretsEphemeralResourceModel := {
  IDs : list types.Int64;
  Field : types.String;
  Secrets : list SecretModel
}.

(** [TSSSecretsPrivateData] (lines 40-44), the value handed to
    [json.Marshal] and stored under the key [tss_secrets_data]. *)
Record TSSSecretsPrivateData := {
  PrivateIDs : list types.Int64;
  PrivateField : string;
  PrivateSecrets : list SecretModel
}.

(** [time.Duration] counts nanoseconds; instants are nanoseconds too. *)
Definition Minute : Z := 60 * 1000000000.

(** What [Open] leaves in [ephemeral.OpenResponse]. *)
Record OpenResponse := {
  Result : option TSSSecretsEphemeralResourceModel;
  RenewAt : option Z;
  Private : option TSSSecretsPrivateData;
  OpenDiagnostics : Diagnostics
}.

(** What [Renew] leaves in [ephemeral.RenewResponse], which has no
    result. *)
Record RenewResponse := {
  RenewRenewAt : option Z;
  RenewPrivate : option TSSSecretsPrivateData;
  RenewDiagnostics : Diagnostics
}.

Section Ephemeral.

Context {W : Type}.

(** [Open], lines 124-178: the loop with its two accumulators, [results]
    and [resp.Diagnostics]. *)
Fixpoint openLoop (client : Server W) (field : types.String) (ids : list types.Int64)
    (results : list SecretModel) (diags : Diagnostics)
  : M (list SecretModel * Diagnostics) :=
  match ids with
  | [] => mret (results, diags)
  | id :: rest =>
      let secretID := types.ValueInt64 id in
      r ← Secret client secretID;
      match r with
      | inl err =>
          openLoop client field rest results
            (AddWarning diags "Secret Fetch Warning"
                        "Failed to fetch secret with ID %d: %s"
                        [ArgInt secretID; ArgError err])
      | inr secret =>
          match secretField client secret (types.ValueString field) with
          | None =>
              openLoop client field rest results
                (AddError diags "Field Not Found" "Field %s not found in the secret"
                          [ArgString (types.ValueString field)])
          | Some fieldValue =>
              openLoop client field rest
                (results ++ [{| SecretID := types.Int64Value secretID;
                                Value := types.StringValue fieldValue |}])
                diags
          end
      end
  end.

(** [Open] (lines 87-200), on a decoded configuration [data] at the
    instant [now]. *)
Definition Open (client : option (Server W)) (data : TSSSecretsEphemeralResourceModel)
    (now : Z) : M OpenResponse :=
  match client with
  | None =>
      mret {| Result := None; RenewAt := None; Private := None;
              OpenDiagnostics :=
                AddError [] "Provider not configured"
                  "Cannot fetch secrets because the provider is not configured." [] |}
  | Some client =>
      if (length (IDs data) =? 0)%nat || types.IsNull (Field data) then
        mret {| Result := None; RenewAt := None; Private := None;
                OpenDiagnostics :=
                  AddError [] "Missing Required Field"
                    "Both secret_ids and field are required" [] |}
      else
        lr ← openLoop client (Field data) (IDs data) [] [];
        let '(results, diags) := lr in
        let data := {| IDs := IDs data; Field := Field data; Secrets := results |} in
        mret {| Result := Some data;
                RenewAt := Some (now + 5 * Minute);
                Private :=
                  Some {| PrivateIDs := IDs data;
                          PrivateField := types.ValueString (Field data);
                          PrivateSecrets := Secrets data |};
                OpenDiagnostics := diags |}
  end.

(** [Renew], lines 239-288: its own copy of the loop. *)
Fixpoint renewLoop (client : Server W) (field : string) (ids : list types.Int64)
    (results : list SecretModel) (diags : Diagnostics)
  : M (list SecretModel * Diagnostics) :=
  match ids with
  | [] => mret (results, diags)
  | id :: rest =>
      let secretID := types.ValueInt64 id in
      r ← Secret client secretID;
      match r with
      | inl err =>
          renewLoop client field rest results
            (AddWarning diags "Secret Fetch Warning"
                        "Failed to fetch secret with ID %d: %s"
                        [ArgInt secretID; ArgError err])
      | inr secret =>
          match secretField client secret field with
          | None =>
              renewLoop client field rest results
                (AddError diags "Field Not Found" "Field %s not found in the secret"
                          [ArgString field])
          | Some fieldValue =>
              renewLoop client field rest
                (results ++ [{| SecretID := types.Int64Value secretID;
                                Value := types.StringValue fieldValue |}])
                diags
          end
      end
  end.

(** [Renew] (lines 202-307).  [private] is what lines 206-221 obtain:
    [None] when no bytes are stored under the key, [Some (inl err)] when
    [json.Unmarshal] rejects them, [Some (inr privateData)] otherwise.
    [r.client] is used without a nil check, so the client is given. *)
Definition Renew (client : Server W) (private : option (GoError + TSSSecretsPrivateData))
    (now : Z) : M RenewResponse :=
  match private with
  | None =>
      mret {| RenewRenewAt := None; RenewPrivate := None;
              RenewDiagnostics :=
                AddError [] "Missing Private Data"
                  "Private data was not found for renewal." [] |}
  | Some (inl err) =>
      mret {| RenewRenewAt := None; RenewPrivate := None;
              RenewDiagnostics :=
                AddError [] "Invalid Private Data" "Failed to unmarshal private data." [] |}
  | Some (inr privateData) =>
      if (length (PrivateIDs privateData) =? 0)%nat
         || isEmptyString (PrivateField privateData) then
        mret {| RenewRenewAt := None; RenewPrivate := None;
                RenewDiagnostics :=
                  AddError [] "Missing Private Data Fields"
                    "Secret ID and field are required." [] |}
      else
        lr ← renewLoop client (PrivateField privateData) (PrivateIDs privateData) [] [];
        let '(results, diags) := lr in
        let privateData :=
          {| PrivateIDs := PrivateIDs privateData;
             PrivateField := PrivateField privateData;
             PrivateSecrets := results |} in
        mret {| RenewRenewAt := Some (now + 5 * Minute);
                RenewPrivate := Some privateData;
                RenewDiagnostics := diags |}
  end.

End Ephemeral.

(** ** The binding order the specification describes

    Section 4.1 of the specification words template binding as three
    rules tried one after the other over the whole template: by id when
    the field carries a non-zero template-field id, else by name, else by
    slug.  [bindByPriority] follows those words; the source's loops are
    [lookupTemplateField] and [findTemplateField] above. *)

Definition matchById (id : Z) (tfs : list server.SecretTemplateField)
  : option server.SecretTemplateField :=
  List.find (fun tf => server.SecretTemplateFieldID tf =? id) tfs.

Definition matchByName (name : string) (tfs : list server.SecretTemplateField)
  : option server.SecretTemplateField :=
  List.find (fun tf => strings.EqualFold (server.TemplateName tf) name) tfs.

Definition matchBySlug (name : string) (tfs : list server.SecretTemplateField)
  : option server.SecretTemplateField :=
  List.find (fun tf => strings.EqualFold (server.FieldSlugName tf) name) tfs.

Definition bindByPriority (id : Z) (name : string)
    (tfs : list server.SecretTemplateField) : option server.SecretTemplateField :=
  match (if id =? 0 then None else matchById id tfs) with
  | Some tf => Some tf
  | None =>
      match matchByName name tfs with
      | Some tf => Some tf
      | None => matchBySlug name tfs
      end
  end.

(** ** Predicates used in the statements *)

(** Two state fields carry the same name up to case. *)
Definition sameName (p r : SecretField) : bool :=
  strings.EqualFold (fieldNameOf p) (fieldNameOf r).

(** Every desired field has a same-named remote field. *)
Definition covered (D R : list SecretField) : Prop :=
  forall p, p ∈ D -> exists r, r ∈ R /\ sameName p r = true.

(** The key of a field in [stateFieldMap], and one step of the loop that
    builds the map. *)
Definition fieldKey (f : SecretField) : string := strings.ToLower (fieldNameOf f).

Definition insertField (m : gmap string SecretField) (f : SecretField)
  : gmap string SecretField := <[fieldKey f := f]> m.

(** The lower-cased names of a field list, the keys of [stateFieldMap]. *)
Definition fieldKeys (fs : list SecretField) : list string :=
  map (fun f => strings.ToLower (fieldNameOf f)) fs.

(** ** Concrete data for runs *)

Definition mkTemplateField (id : Z) (name slug : string) (isPassword : bool)
  : server.SecretTemplateField :=
  {| server.SecretTemplateFieldID := id; server.TemplateName := name;
     server.FieldSlugName := slug; server.Description := EmptyString;
     server.TemplateIsFile := false; server.TemplateIsNotes := false;
     server.TemplateIsPassword := isPassword |}.

(** A declared field: a name, a template-field id and an item value,
    every other attribute null. *)
Definition declaredField (name : string) (id : types.Int64) (value : types.String)
  : SecretField :=
  {| FieldName := types.StringValue name; ItemValue := value;
     ItemID := types.Int64Null; FieldID := id; FileAttachmentID := types.Int64Null;
     Slug := types.StringNull; FieldDescription := types.StringNull;
     Filename := types.StringNull; IsFile := types.BoolNull; IsNotes := types.BoolNull;
     IsPassword := types.BoolNull; IsList := types.BoolNull;
     ListType := types.StringNull |}.

(** A remote field as the store returns it. *)
Definition remoteField (id : Z) (name slug value : string) (isPassword : bool)
  : server.SecretField :=
  {| server.FieldDescription := EmptyString; server.FieldID := id;
     server.FieldName := name; server.FileAttachmentID := 0;
     server.Filename := EmptyString; server.IsFile := false; server.IsNotes := false;
     server.IsPassword := isPassword; server.ItemID := 0; server.ItemValue := value;
     server.Slug := slug |}.

Definition accountTemplate : server.SecretTemplate :=
  {| server.TemplateFields :=
       [mkTemplateField 1 "Username" "username" false;
        mkTemplateField 2 "Password" "password" true] |}.

(** A template in which the slug of the first field is the name of the
    second. *)
Definition overlappingTemplate : list server.SecretTemplateField :=
  [mkTemplateField 5 "Secret" "password" false;
   mkTemplateField 7 "Password" "pw" true].

(** [covered] as a computation. *)
Definition coveredb (D R : list SecretField) : bool :=
  forallb (fun p => existsb (sameName p) R) D.

(** A plan that declares the user name only. *)
Definition planUsername : list SecretField :=
  [declaredField "username" types.Int64Null types.StringNull].

(** A remote answer with a field the plan does not declare. *)
Definition remoteUsernameNotes : list SecretField :=
  [flattenField (remoteField 1 "Username" "username" "alice" false);
   flattenField (remoteField 3 "Notes" "notes" "n/a" false)].

(** A remote answer with two fields of one name up to case. *)
Definition remoteTwoUsernames : list SecretField :=
  [flattenField (remoteField 1 "Username" "username" "alice" false);
   flattenField (remoteField 4 "USERNAME" "username-2" "bob" false)].

(** A plan in the opposite order of the remote answer. *)
Definition planPasswordUsername : list SecretField :=
  [declaredField "password" types.Int64Null types.StringNull;
   declaredField "username" types.Int64Null types.StringNull].

Definition remoteUsernamePassword : list SecretField :=
  [flattenField (remoteField 1 "Username" "username" "alice" false);
   flattenField (remoteField 2 "Password" "password" "s3cret" true)].

(** The loop condition of [lookupTemplateField] as a predicate. *)
Definition nameOrSlugMatches (fieldName : string) (tf : server.SecretTemplateField) : bool :=
  strings.EqualFold (server.TemplateName tf) fieldName
  || strings.EqualFold (server.FieldSlugName tf) fieldName.

(** A state field whose item value is known. *)
Definition itemValueKnown (f : SecretField) : Prop :=
  exists v, ItemValue f = types.StringValue v.

(** ** An in-memory remote store for concrete runs *)

Record Vault := {
  vaultSecrets : list server.Secret;
  vaultNextID : Z
}.

Definition storedSecret (id : Z) (fields : list server.SecretField) : server.Secret :=
  {| server.ID := id; server.Name := "account"; server.FolderID := 10;
     server.SiteID := 1; server.SecretTemplateID := 6001; server.Fields := fields;
     server.Active := true; server.sshKeyArgs := None; server.SecretPolicyID := 0;
     server.PasswordTypeWebScriptID := 0; server.LauncherConnectAsSecretID := 0;
     server.CheckOutIntervalMinutes := 0; server.CheckedOut := false;
     server.CheckOutEnabled := false; server.AutoChangeEnabled := false;
     server.CheckOutChangePasswordEnabled := false; server.DelayIndexing := false;
     server.EnableInheritPermissions := false;
     server.EnableInheritSecretPolicy := false; server.ProxyEnabled := false;
     server.RequiresComment := false; server.SessionRecordingEnabled := false;
     server.WebLauncherRequiresIncognitoMode := false |}.

Definition hasID (id : Z) (s : server.Secret) : bool := server.ID s =? id.

(** Template 6001 is [accountTemplate]; a secret is found by its id; a
    created secret receives the next free id; an update replaces the
    stored secret; the generated password is a fixed string; a field is
    extracted by exact name or slug. *)
Definition vaultServer : Server Vault :=
  {| doSecretTemplate id w :=
       if id =? 6001 then (inr accountTemplate, w)
       else (inl (ClientError "template not found"), w);
     doSecret id w :=
       match List.find (hasID id) (vaultSecrets w) with
       | Some s => (inr s, w)
       | None => (inl (ClientError "secret not found"), w)
       end;
     doCreateSecret s w :=
       let s' := server.with_ID s (vaultNextID w) in
       (inr s', {| vaultSecrets := s' :: vaultSecrets w;
                   vaultNextID := vaultNextID w + 1 |});
     doUpdateSecret s w :=
       (inr s, {| vaultSecrets :=
                    s :: List.filter (fun t => negb (hasID (server.ID s) t)) (vaultSecrets w);
                  vaultNextID := vaultNextID w |});
     doDeleteSecret id w :=
       (None, {| vaultSecrets := List.filter (fun t => negb (hasID id t)) (vaultSecrets w);
                 vaultNextID := vaultNextID w |});
     doGeneratePassword slug template w := (inr "generated-by-vault", w);
     secretField s name :=
       option_map server.ItemValue
         (List.find (fun f => String.eqb name (server.FieldName f)
                              || String.eqb name (server.Slug f))
                    (server.Fields s)) |}.

(** A vault holding secret 1, an account with a user name and a
    password. *)
Definition vault1 : Vault :=
  {| vaultSecrets :=
       [storedSecret 1 [remoteField 1 "Username" "username" "alice" false;
                        remoteField 2 "Password" "password" "secret1" true]];
     vaultNextID := 2 |}.

Definition freshWorld (v : Vault) : World Vault := {| remote := v; calls := [] |}.

(** The durable state of secret 1 after a read. *)
Definition state1 : SecretResourceState :=
  flattenedState (storedSecret 1 [remoteField 1 "Username" "username" "alice" false;
                                  remoteField 2 "Password" "password" "secret1" true]).

(** A plan or state with the given identifiers and fields, every other
    attribute null. *)
Definition mkState (id folder site template : types.String) (fields : list SecretField)
    (args : option SshKeyArgs) : SecretResourceState :=
  {| ID := id; Name := types.StringValue "account"; FolderID := folder; SiteID := site;
     SecretTemplateID := template; Fields := fields; sshKeyArgs := args;
     Active := types.BoolNull; SecretPolicyID := types.Int64Null;
     PasswordTypeWebScriptID := types.Int64Null;
     LauncherConnectAsSecretID := types.Int64Null;
     CheckOutIntervalMinutes := types.Int64Null; CheckedOut := types.BoolNull;
     CheckOutEnabled := types.BoolNull; AutoChangeEnabled := types.BoolNull;
     CheckOutChangePasswordEnabled := types.BoolNull; DelayIndexing := types.BoolNull;
     EnableInheritPermissions := types.BoolNull;
     EnableInheritSecretPolicy := types.BoolNull; ProxyEnabled := types.BoolNull;
     RequiresComment := types.BoolNull; SessionRecordingEnabled := types.BoolNull;
     WebLauncherRequiresIncognitoMode := types.BoolNull |}.

(** The identifier [v] does not parse, with error [err]. *)
Definition unparsable (v : types.String) (err : GoError) : Prop :=
  snd (Atoi (types.ValueString v)) = Some err.

(** [e] is the error [getSecretData] builds for an identifier of [plan]
    that does not parse; its format string names the attribute. *)
Definition namesUnparsable (plan : SecretResourceState) (e : GoError) : Prop :=
  exists err,
    (e = ErrorfW "invalid Folder ID: %w" err /\ unparsable (FolderID plan) err)
    \/ (e = ErrorfW "invalid Site ID: %w" err /\ unparsable (SiteID plan) err)
    \/ (e = ErrorfW "invalid Template ID: %w" err /\ unparsable (SecretTemplateID plan) err).

(** A plan for secret 1 that declares both fields with values. *)
Definition plan1 : SecretResourceState :=
  mkState types.StringNull (types.StringValue "10") (types.StringValue "1")
          (types.StringValue "6001")
          [declaredField "username" types.Int64Null (types.StringValue "alice");
           declaredField "password" types.Int64Null (types.StringValue "secret2")]
          None.

(** The same plan with a folder id that is not a number. *)
Definition planBadFolder : SecretResourceState :=
  mkState types.StringNull (types.StringValue "ten") (types.StringValue "1")
          (types.StringValue "6001") (Fields plan1) None.

(** A prior state whose secret id is not a number. *)
Definition stateBadID : SecretResourceState :=
  mkState (types.StringValue "abc") (types.StringValue "10") (types.StringValue "1")
          (types.StringValue "6001") (Fields state1) None.

(** The names of submitted fields, lower-cased. *)
Definition submittedKeys (fs : list server.SecretField) : list string :=
  map (fun f => strings.ToLower (server.FieldName f)) fs.

(** The prior state marks the field named [fieldName] for preservation
    (lines 614-628): generation intent with a key-like name, or a
    same-named prior field flagged as password. *)
Definition preservable (hasSshKeyArgs : bool) (stateFields : list SecretField)
    (fieldName : string) : bool :=
  (hasSshKeyArgs && nameLooksLikeSshKey fieldName)
  || match List.find (sameNameFold fieldName) stateFields with
     | Some stateField =>
         negb (types.IsNull (IsPassword stateField))
         && types.ValueBool (IsPassword stateField)
     | None => false
     end.

(** A plan for secret 1 that declares the password as the empty string. *)
Definition planEmptyPassword : SecretResourceState :=
  mkState types.StringNull (types.StringValue "10") (types.StringValue "1")
          (types.StringValue "6001")
          [declaredField "username" types.Int64Null (types.StringValue "alice");
           declaredField "password" types.Int64Null (types.StringValue EmptyString)]
          None.

(** The request the password modifier sees for a field declared [config]
    with prior value [prior] on an update, whatever the plan value
    before it. *)
Definition updateRequest (config prior planned : types.String) : StringRequest :=
  {| ConfigValue := config; StateValue := prior; PlanValue := planned;
     StateRawIsNull := false; PathSteps := ["fields"; "1"; "itemvalue"] |}.

(** A plan for secret 1 whose password value is what the modifier plans
    for an undeclared password. *)
Definition planPreservedPassword : SecretResourceState :=
  mkState types.StringNull (types.StringValue "10") (types.StringValue "1")
          (types.StringValue "6001")
          [declaredField "username" types.Int64Null (types.StringValue "alice");
           declaredField "password" types.Int64Null
             (passwordFieldPlanModifier_PlanModifyString
                (updateRequest types.StringNull (types.StringValue "secret1")
                               types.StringUnknown))]
          None.

(** The secret [Update] submits for secret 1 when user name and password
    resolve to their prior values. *)
Definition submittedUnchanged : server.Secret :=
  server.with_ID
    (assembleSecret planEmptyPassword 10 1 6001
       [remoteField 1 "Username" "username" "alice" false;
        remoteField 2 "Password" "password" "secret1" true])
    1.

(** ** Per-id outcomes of a batch fetch

    What the remote store answers for each id of a batch, in order, the
    remote world threaded from one fetch to the next: the fetch fails,
    or the secret lacks the field, or the field value is extracted. *)
Inductive Outcome :=
| FetchFailed (id : Z) (err : GoError)
| FieldMissing (id : Z)
| Extracted (id : Z) (value : string).

Definition outcomeOf {W : Type} (client : Server W) (fieldName : string) (id : Z)
    (fetched : GoError + server.Secret) : Outcome :=
  match fetched with
  | inl err => FetchFailed id err
  | inr secret =>
      match secretField client secret fieldName with
      | None => FieldMissing id
      | Some value => Extracted id value
      end
  end.

Fixpoint fetchOutcomes {W : Type} (client : Server W) (fieldName : string)
    (ids : list types.Int64) (r : W) : list Outcome * W :=
  match ids with
  | [] => ([], r)
  | id :: rest =>
      let '(fetched, r1) := doSecret client (types.ValueInt64 id) r in
      let '(outs, r2) := fetchOutcomes client fieldName rest r1 in
      (outcomeOf client fieldName (types.ValueInt64 id) fetched :: outs, r2)
  end.

(** The result entry an outcome contributes, if any. *)
Definition outcomeResult (o : Outcome) : option SecretModel :=
  match o with
  | Extracted id value =>
      Some {| SecretID := types.Int64Value id; Value := types.StringValue value |}
  | _ => None
  end.

(** The diagnostic an outcome contributes, if any. *)
Definition outcomeDiagnostic (fieldName : string) (o : Outcome) : option Diagnostic :=
  match o with
  | FetchFailed id err =>
      Some {| severity := SeverityWarning; summary := "Secret Fetch Warning";
              detail := "Failed to fetch secret with ID %d: %s";
              detail_args := [ArgInt id; ArgError err] |}
  | FieldMissing id =>
      Some (NewErrorDiagnostic "Field Not Found" "Field %s not found in the secret"
                               [ArgString fieldName])
  | Extracted _ _ => None
  end.

Definition isFetchFailed (o : Outcome) : bool :=
  match o with FetchFailed _ _ => true | _ => false end.

Definition isFieldMissing (o : Outcome) : bool :=
  match o with FieldMissing _ => true | _ => false end.

Definition fetchCalls (ids : list types.Int64) : list Call :=
  map (fun id => CallSecret (types.ValueInt64 id)) ids.

(** The configuration a fresh [Open] receives for the inputs held in a
    carry-state. *)
Definition configOf (privateData : TSSSecretsPrivateData) : TSSSecretsEphemeralResourceModel :=
  {| IDs := PrivateIDs privateData;
     Field := types.StringValue (PrivateField privateData);
     Secrets := [] |}.

(** Ids 1 and 2, of which the vault holds only the first. *)
Definition openOneTwo : TSSSecretsEphemeralResourceModel :=
  {| IDs := [types.Int64Value 1; types.Int64Value 2];
     Field := types.StringValue "password";
     Secrets := [] |}.

(** A carry-state with an empty field name, and one with ids and field
    name in place. *)
Definition carryEmptyField : TSSSecretsPrivateData :=
  {| PrivateIDs := [types.Int64Value 2]; PrivateField := EmptyString;
     PrivateSecrets := [] |}.

Definition carryOneTwo : TSSSecretsPrivateData :=
  {| PrivateIDs := [types.Int64Value 1; types.Int64Value 2];
     PrivateField := "password";
     PrivateSecrets := [] |}.

(** ** Proof automation *)

(** Unfolding of the monad's operations. *)
Ltac unfold_M := unfold mbind, M_bind, mret, M_ret, remoteCall in *.

(** Case analysis of a membership in a concrete call log. *)
Ltac call_cases H :=
  repeat (apply elem_of_cons in H as [H|H]; [try discriminate H|]);
  try (by apply elem_of_nil in H).

(** ** The data source of one secret
    ([ephemeral_resource_secrets.go], second part, [TSSSecretDataSource]) *)

(** The state structure of [Read] (lines 426-430). *)
Record SecretDataSourceState := {
  DataSecretID : types.String;
  DataField : types.String;
  DataSecretValue : types.String
}.

Record SecretDataSourceResponse := {
  DataState : option SecretDataSourceState;
  DataDiagnostics : Diagnostics
}.

(** ** The data source of several secrets ([TSSSecretsDataSource]) *)

(** The state structure of its [Read]; the entries of [secrets] have the
    shape of [SecretModel]. *)
Record SecretsDataSourceState := {
  DataIDs : list types.Int64;
  DataFieldName : types.String;
  DataSecrets : list SecretModel
}.

Record SecretsDataSourceResponse := {
  SecretsDataState : option SecretsDataSourceState;
  SecretsDataDiagnostics : Diagnostics
}.

Section DataSources.

Context {W : Type}.

(** [TSSSecretDataSource.Read] (lines 422-506), on a decoded
    configuration. *)
Definition TSSSecretDataSource_Read (client : option (Server W))
    (state : SecretDataSourceState) : M SecretDataSourceResponse :=
  match client with
  | None =>
      mret {| DataState := None;
              DataDiagnostics :=
                AddError [] "Client Error" "The server client is not configured" [] |}
  | Some client =>
      match Atoi (types.ValueString (DataSecretID state)) with
      | (_, Some err) =>
          mret {| DataState := None;
                  DataDiagnostics :=
                    AddError [] "Invalid Secret ID" "Secret ID must be an integer" [] |}
      | (secretID, None) =>
          r ← Secret client secretID;
          match r with
          | inl err =>
              mret {| DataState := None;
                      DataDiagnostics :=
                        AddError [] "Secret Fetch Error" "Failed to fetch secret: %s"
                                 [ArgError err] |}
          | inr secret =>
              let fieldName := types.ValueString (DataField state) in
              match secretField client secret fieldName with
              | None =>
                  mret {| DataState := None;
                          DataDiagnostics :=
                            AddError [] "Field Not Found"
                                     "The secret does not contain the field '%s'"
                                     [ArgString fieldName] |}
              | Some fieldValue =>
                  mret {| DataState :=
                            Some {| DataSecretID := DataSecretID state;
                                    DataField := DataField state;
                                    DataSecretValue := types.StringValue fieldValue |};
                          DataDiagnostics := [] |}
              end
          end
      end
  end.

(** [TSSSecretsDataSource.Read], the loop over [state.IDs]. *)
Fixpoint secretsReadLoop (client : Server W) (field : types.String)
    (ids : list types.Int64) (results : list SecretModel) (diags : Diagnostics)
  : M (list SecretModel * Diagnostics) :=
  match ids with
  | [] => mret (results, diags)
  | id :: rest =>
      let secretID := types.ValueInt64 id in
      r ← Secret client secretID;
      match r with
      | inl err =>
          secretsReadLoop client field rest results
            (AddWarning diags "Secret Fetch Warning"
                        "Failed to fetch secret with ID %d: %s"
                        [ArgInt secretID; ArgError err])
      | inr secret =>
          let fieldName := types.ValueString field in
          match secretField client secret fieldName with
          | None =>
              secretsReadLoop client field rest results
                (AddError diags "Field Not Found"
                          "The secret does not contain the field '%s'"
                          [ArgString fieldName])
          | Some fieldValue =>
              secretsReadLoop client field rest
                (results ++ [{| SecretID := types.Int64Value secretID;
                                Value := types.StringValue fieldValue |}])
                diags
          end
      end
  end.

(** [TSSSecretsDataSource.Read], on a decoded configuration.  The state
    is set whatever the diagnostics of the loop are. *)
Definition TSSSecretsDataSource_Read (client : option (Server W))
    (state : SecretsDataSourceState) : M SecretsDataSourceResponse :=
  match client with
  | None =>
      mret {| SecretsDataState := None;
              SecretsDataDiagnostics :=
                AddError [] "Client Error" "The server client is not configured" [] |}
  | Some client =>
      lr ← secretsReadLoop client (DataFieldName state) (DataIDs state) [] [];
      let '(results, diags) := lr in
      mret {| SecretsDataState :=
                Some {| DataIDs := DataIDs state;
                        DataFieldName := DataFieldName state;
                        DataSecrets := results |};
              SecretsDataDiagnostics := diags |}
  end.

End DataSources.

(** ** The provider's [Configure] ([provider.go], lines 68-170) *)

(** [TSSProviderModel]. *)
Record TSSProviderModel := {
  ServerURL : types.String;
  Username : types.String;
  Password : types.String;
  Domain : types.String
}.

(** What [os.Getenv] returns for the four variables [Configure] reads;
    an unset variable reads as the empty string. *)
Record Environment := {
  TSS_SERVER_URL : string;
  TSS_USERNAME : string;
  TSS_PASSWORD : string;
  TSS_DOMAIN : string
}.

(** [server.Configuration] with its [server.UserCredential]. *)
Module configuration.

Record UserCredential := {
  Username : string;
  Password : string;
  Domain : string
}.

Record Configuration := {
  ServerURL : string;
  Credentials : UserCredential
}.

End configuration.

(** What [Configure] leaves in its response: the client stored as
    [DataSourceData], [ResourceData] and [EphemeralResourceData], when
    they are set, and the diagnostics. *)
Record ConfigureResponse (C : Type) := {
  ProviderData : option C;
  ConfigureDiagnostics : Diagnostics
}.

Arguments ProviderData {C}.
Arguments ConfigureDiagnostics {C}.

(** A configuration value, when it is not the empty string, replaces the
    value of the environment (lines 95-106). *)
Definition orConfig (fromEnv : string) (fromConfig : types.String) : string :=
  if negb (isEmptyString (types.ValueString fromConfig))
  then types.ValueString fromConfig
  else fromEnv.

(** The configuration that line 142 hands to [server.New]. *)
Definition serverConfigOf (env : Environment) (data : TSSProviderModel)
  : configuration.Configuration :=
  {| configuration.ServerURL := orConfig (TSS_SERVER_URL env) (ServerURL data);
     configuration.Credentials :=
       {| configuration.Username := orConfig (TSS_USERNAME env) (Username data);
          configuration.Password := orConfig (TSS_PASSWORD env) (Password data);
          configuration.Domain := orConfig (TSS_DOMAIN env) (Domain data) |} |}.

Definition missingServerURL : Diagnostic :=
  NewErrorDiagnostic "Missing Server URL Configuration"
    ("While configuring the provider, the Server URL was not found in "
     +:+ "the TSS_SEVRER_URL environment variable or provider "
     +:+ "configuration block server_url attribute.") [].

Definition missingUsername : Diagnostic :=
  NewErrorDiagnostic "Missing Username Configuration"
    ("While configuring the provider, the username was not found in "
     +:+ "the TSS_USERNAME environment variable or provider "
     +:+ "configuration block username attribute.") [].

Definition missingPassword : Diagnostic :=
  NewErrorDiagnostic "Missing Password Configuration"
    ("While configuring the provider, the password was not found in "
     +:+ "the TSS_PASSWORD environment variable or provider "
     +:+ "configuration block password attribute.") [].

(** [TSSProvider.Configure], on a decoded configuration block; [New] is
    the SDK's [server.New].  The detail of the last diagnostic is the
    string "Error: " followed by the text of the error. *)
Definition Configure {C : Type} (New : configuration.Configuration -> GoError + C)
    (env : Environment) (data : TSSProviderModel) : ConfigureResponse C :=
  let serverConfig := serverConfigOf env data in
  let diags : Diagnostics := [] in
  let diags :=
    if isEmptyString (configuration.ServerURL serverConfig)
    then diags ++ [missingServerURL] else diags in
  let diags :=
    if isEmptyString (configuration.Username (configuration.Credentials serverConfig))
    then diags ++ [missingUsername] else diags in
  let diags :=
    if isEmptyString (configuration.Password (configuration.Credentials serverConfig))
    then diags ++ [missingPassword] else diags in
  match New serverConfig with
  | inl err =>
      {| ProviderData := None;
         ConfigureDiagnostics :=
           AddError diags "An unexpected error occurred when creating the tss client"
                    "Error: " [ArgError err] |}
  | inr tssClient =>
      {| ProviderData := Some tssClient; ConfigureDiagnostics := diags |}
  end.

(** ** The program's entry point ([main], second version) *)

(** What a run of [main] comes to. *)
Inductive MainOutcome :=
| IndexOutOfRange
| PassphraseNotSet
| EncryptFile (passphrase stateFile : string)
| DecryptFile (passphrase stateFile : string)
| InvalidAction
| Serve.

(** [main] on [os.Args] (the program name first) and the value of the
    environment variable [TFSTATE_PASSPHRASE].  [os.Args[2]] is read
    right after [os.Args[1]], before anything else. *)
Definition main (Args : list string) (TFSTATE_PASSPHRASE : string) : MainOutcome :=
  if (2 <=? length Args)%nat then
    match Args !! 1%nat, Args !! 2%nat with
    | Some action, Some stateFile =>
        let passphrase := TFSTATE_PASSPHRASE in
        if isEmptyString passphrase then PassphraseNotSet
        else if String.eqb action "encrypt" then EncryptFile passphrase stateFile
        else if String.eqb action "decrypt" then DecryptFile passphrase stateFile
        else InvalidAction
    | _, _ => IndexOutOfRange
    end
  else Serve.

(** ** Further predicates used in the statements *)

(** No field of [E] carries, up to case, the name of a field of [acc] or
    of an earlier field of [E]. *)
Fixpoint freshAgainst (acc E : list SecretField) : Prop :=
  match E with
  | [] => True
  | x :: E' => (forall a, a ∈ acc -> sameName x a = false) /\ freshAgainst (acc ++ [x]) E'
  end.

(** A value of Go's 64-bit [int]. *)
Definition inIntRange (z : Z) : Prop := strconv.int_min <= z <= strconv.int_max.

(** The field counts as a file field for [getSecretData] (line 1112). *)
Definition sendsAttachment (tf : server.SecretTemplateField) (field : SecretField) : bool :=
  server.TemplateIsFile tf
  || (negb (types.IsNull (IsFile field)) && types.ValueBool (IsFile field)).

(** Calls that prepare a secret: they read from the remote store or ask
    it for a value, and change no secret. *)
Definition isPreparationCall (c : Call) : bool :=
  match c with
  | CallSecretTemplate _ | CallGeneratePassword _ _ => true
  | _ => false
  end.

(** The slug for which [generatePassword] asks a value for [field]: the
    slug of the template field bound to it, when that one is a password
    field and the value of [field] is empty. *)
Definition generationSlug (template : server.SecretTemplate) (field : server.SecretField)
  : option string :=
  match findTemplateField field (server.TemplateFields template) with
  | Some templateField =>
      if server.TemplateIsPassword templateField && isEmptyString (server.ItemValue field)
      then Some (server.FieldSlugName templateField)
      else None
  | None => None
  end.

Definition generationCall (template : server.SecretTemplate) (field : server.SecretField)
  : option Call :=
  match generationSlug template field with
  | Some slug => Some (CallGeneratePassword slug template)
  | None => None
  end.

(** A plan that declares a field the account template does not have. *)
Definition planUnknownField : SecretResourceState :=
  mkState types.StringNull (types.StringValue "10") (types.StringValue "1")
          (types.StringValue "6001")
          [declaredField "username" types.Int64Null (types.StringValue "alice");
           declaredField "pin" types.Int64Null (types.StringValue "0000")]
          None.

(** A template whose password field has a name that is not its slug,
    a store that serves it for every template id, and a vault holding
    secret 1 of that template. *)
Definition slugTemplate : server.SecretTemplate :=
  {| server.TemplateFields :=
       [mkTemplateField 1 "Username" "username" false;
        mkTemplateField 2 "Account Password" "password" true] |}.

Definition slugServer : Server Vault :=
  {| doSecretTemplate id w := (inr slugTemplate, w);
     doSecret := doSecret vaultServer;
     doCreateSecret := doCreateSecret vaultServer;
     doUpdateSecret := doUpdateSecret vaultServer;
     doDeleteSecret := doDeleteSecret vaultServer;
     doGeneratePassword := doGeneratePassword vaultServer;
     secretField := secretField vaultServer |}.

Definition slugSecret : server.Secret :=
  storedSecret 1 [remoteField 1 "Username" "username" "alice" false;
                  remoteField 2 "Account Password" "password" "old-secret" true].

Definition slugVault : Vault := {| vaultSecrets := [slugSecret]; vaultNextID := 2 |}.

(** A plan that declares the password by its slug, with a new value. *)
Definition planBySlug : SecretResourceState :=
  mkState (types.StringValue "1") (types.StringValue "10") (types.StringValue "1")
          (types.StringValue "6001")
          [declaredField "username" types.Int64Null (types.StringValue "alice");
           declaredField "password" types.Int64Null (types.StringValue "new-secret")]
          None.

(** The state an import of secret 1 leaves: the identifier only. *)
Definition importedState : SecretResourceState :=
  mkState (types.StringValue "1") types.StringNull types.StringNull types.StringNull
          [] None.

(** ** The plan modifiers of [itemvalue] in sequence

    [Schema] (lines 214-218) lists [UseStateForUnknown],
    [sshKeyFieldPlanModifier] and [passwordFieldPlanModifier]; each
    modifier of the list sees as [req.PlanValue] the [resp.PlanValue]
    the one before it left.  [itemvaluePlanModifiers] is the part of the
    sequence this repository defines, on the request as
    [UseStateForUnknown] left it. *)
Definition with_PlanValue (req : StringRequest) (v : types.String) : StringRequest :=
  {| ConfigValue := ConfigValue req; StateValue := StateValue req; PlanValue := v;
     StateRawIsNull := StateRawIsNull req; PathSteps := PathSteps req |}.

Definition itemvaluePlanModifiers (req : StringRequest) : types.String :=
  let planValue := sshKeyFieldPlanModifier_PlanModifyString req in
  passwordFieldPlanModifier_PlanModifyString (with_PlanValue req planValue).

(** The request for the item value of field 1 on create: no prior state. *)
Definition createRequest (config planned : types.String) : StringRequest :=
  {| ConfigValue := config; StateValue := types.StringNull; PlanValue := planned;
     StateRawIsNull := true; PathSteps := ["fields"; "1"; "itemvalue"] |}.

(** The id an outcome is about. *)
Definition outcomeId (o : Outcome) : Z :=
  match o with
  | FetchFailed id _ | FieldMissing id | Extracted id _ => id
  end.

(** The diagnostic an outcome contributes in [TSSSecretsDataSource.Read]:
    the one of [Open] but for the detail of a missing field. *)
Definition dataOutcomeDiagnostic (fieldName : string) (o : Outcome) : option Diagnostic :=
  match o with
  | FetchFailed id err =>
      Some {| severity := SeverityWarning; summary := "Secret Fetch Warning";
              detail := "Failed to fetch secret with ID %d: %s";
              detail_args := [ArgInt id; ArgError err] |}
  | FieldMissing id =>
      Some (NewErrorDiagnostic "Field Not Found"
                               "The secret does not contain the field '%s'"
                               [ArgString fieldName])
  | Extracted _ _ => None
  end.

(** Severity and summary of a diagnostic. *)
Definition headline (d : Diagnostic) : Severity * string := (severity d, summary d).

(** An environment without the four variables, and a client constructor
    that accepts every configuration and returns it. *)
Definition emptyEnvironment : Environment :=
  {| TSS_SERVER_URL := EmptyString; TSS_USERNAME := EmptyString;
     TSS_PASSWORD := EmptyString; TSS_DOMAIN := EmptyString |}.

Definition acceptingNew (config : configuration.Configuration)
  : GoError + configuration.Configuration := inr config.

(** A configuration block with a server URL and a user name only. *)
Definition blockWithoutPassword : TSSProviderModel :=
  {| ServerURL := types.StringValue "https://vault.example/SecretServer";
     Username := types.StringValue "svc-terraform";
     Password := types.StringNull;
     Domain := types.StringNull |}.

(** The state [Read] sets (lines 495-541) for the prior state [state]
    when the fetch returned [secret]. *)
Definition refreshedState (state : SecretResourceState) (secret : server.Secret)
  : SecretResourceState :=
  let newState := flattenedState secret in
  let newState :=
    with_Fields newState (reorderFieldsToMatchPlan (Fields state) (Fields newState)) in
  let newState :=
    match sshKeyArgs state with
    | Some a => with_SshKeyArgs newState (Some a)
    | None => newState
    end in
  with_Fields newState
    (map (keepStateAttachment (hasSshKeyArgsOf state) (Fields state)) (Fields newState)).

(** What the scan of the decimal digits of [v] gives: [v] when it fits
    64 unsigned bits, the range error otherwise. *)
Definition scanned (v : Z) : strconv.Scan :=
  if v <=? strconv.uint64_max then strconv.Digits v else strconv.Overflow.

(** No field of [R] carries, under [strings.EqualFold], the name of a
    field of [seen] or of an earlier field of [R]; this is the test of
    lines 865-870, which decides whether an entry is appended. *)
Fixpoint distinctNames (seen R : list SecretField) : bool :=
  match R with
  | [] => true
  | r :: R' => negb (existsb (sameName r) seen) && distinctNames (seen ++ [r]) R'
  end.

(** Two fields of [R] with one lower-cased name, the key of the map of
    lines 840-843, also have one name under [strings.EqualFold], the
    test of lines 865-870. *)
Definition sameKeySameName (R : list SecretField) : bool :=
  forallb (fun r =>
             forallb (fun r' => implb (String.eqb (fieldKey r) (fieldKey r'))
                                      (sameName r r')) R) R.

(** ** The reconciler in words *)

(** Every field of [D] has, lower-cased, the lower-cased name of a field
    of [R]: the lookup of line 850 succeeds for each of them. *)
Definition keyCovered (D R : list SecretField) : bool :=
  forallb (fun p => existsb (fun r => String.eqb (fieldKey r) (fieldKey p)) R) D.

(** The last field of [R] whose lower-cased name is [k]. *)
Definition lastWithKey (R : list SecretField) (k : string) : option SecretField :=
  last (List.filter (fun r => String.eqb (fieldKey r) k) R).

(** The fields of [R] that no earlier field of [R] matches in name under
    [strings.EqualFold], in the order of [R]. *)
Fixpoint firstOfEachName (R : list SecretField) : list SecretField :=
  match R with
  | [] => []
  | r :: R' => r :: List.filter (fun x => negb (sameName x r)) (firstOfEachName R')
  end.

(** Of those, the fields that no field of [M] matches in name. *)
Definition unplannedFields (M R : list SecretField) : list SecretField :=
  List.filter (fun x => negb (existsb (sameName x) M)) (firstOfEachName R).

(** ** Write-protected values *)

(** [h] is the only field of [fields] that carries its name, as
    [strings.EqualFold] compares names. *)
Definition onlyOfItsName (fields : list server.SecretField) (h : server.SecretField)
  : Prop :=
  forall x, x ∈ fields ->
    strings.EqualFold (server.FieldName x) (server.FieldName h) = true -> x = h.

(** A password field as a store that write-protects it returns it: the
    value is withheld. *)
Definition masked (f : server.SecretField) : server.SecretField :=
  if server.IsPassword f then server.with_ItemValue f EmptyString else f.

(** [vaultServer] with write-protected passwords: what is submitted is
    stored as it is, and a secret is returned with the value of every
    password field withheld. *)
Definition maskingServer : Server Vault :=
  {| doSecretTemplate := doSecretTemplate vaultServer;
     doSecret id w :=
       match List.find (hasID id) (vaultSecrets w) with
       | Some s => (inr (server.with_Fields s (map masked (server.Fields s))), w)
       | None => (inl (ClientError "secret not found"), w)
       end;
     doCreateSecret := doCreateSecret vaultServer;
     doUpdateSecret := doUpdateSecret vaultServer;
     doDeleteSecret := doDeleteSecret vaultServer;
     doGeneratePassword := doGeneratePassword vaultServer;
     secretField := secretField vaultServer |}.

(** The durable state of secret 1 after a read from [maskingServer]. *)
Definition state1Masked : SecretResourceState :=
  flattenedState (storedSecret 1 [remoteField 1 "Username" "username" "alice" false;
                                  remoteField 2 "Password" "password" EmptyString true]).

(** A plan for secret 1 that leaves both values empty. *)
Definition planEmptyBoth : SecretResourceState :=
  mkState types.StringNull (types.StringValue "10") (types.StringValue "1")
          (types.StringValue "6001")
          [declaredField "username" types.Int64Null (types.StringValue EmptyString);
           declaredField "password" types.Int64Null (types.StringValue EmptyString)]
          None.

(** * Properties *)

(** ** Sanity checks of the string and number helpers *)

Example Atoi_42 : strconv.Atoi "42" = (42, None).
Proof. reflexivity. Qed.

Example Atoi_neg : strconv.Atoi "-7" = (-7, None).
Proof. reflexivity. Qed.

Example Atoi_abc : strconv.Atoi "abc" = (0, Some strconv.ErrSyntax).
Proof. reflexivity. Qed.

Example Atoi_huge :
  strconv.Atoi "99999999999999999999" = (strconv.int_max, Some strconv.ErrRange).
Proof. reflexivity. Qed.

Example Atoi_first_out_of_range :
  strconv.Atoi "9223372036854775808" = (strconv.int_max, Some strconv.ErrRange).
Proof. reflexivity. Qed.

Example Atoi_min : strconv.Atoi "-9223372036854775808" = (strconv.int_min, None).
Proof. reflexivity. Qed.

(** The scan stops at the first digit that overflows 64 bits, before it
    reaches a byte that is not a digit; a byte that is not a digit met
    earlier is a syntax error. *)
Example Atoi_overflow_then_letter :
  strconv.Atoi "99999999999999999999x" = (strconv.int_max, Some strconv.ErrRange).
Proof. reflexivity. Qed.

Example Atoi_negative_overflow_then_letter :
  strconv.Atoi "-99999999999999999999x" = (strconv.int_min, Some strconv.ErrRange).
Proof. reflexivity. Qed.

Example Atoi_digits_then_letter : strconv.Atoi "12x" = (0, Some strconv.ErrSyntax).
Proof. reflexivity. Qed.

Example Atoi_sign_only : strconv.Atoi "-" = (0, Some strconv.ErrSyntax).
Proof. reflexivity. Qed.

Example Itoa_42 : strconv.Itoa 42 = "42".
Proof. reflexivity. Qed.

Example EqualFold_mixed_case : strings.EqualFold "PassWord" "password" = true.
Proof. reflexivity. Qed.

(** ** Case folding *)

(** Folding is reflexive and symmetric; the proofs go byte by byte and
    do not pass through [strings.ToLower]. *)
Lemma EqualFold_refl (s : string) : strings.EqualFold s s = true.
Proof. induction s as [|a s IH]; simpl; [done|]. by rewrite Ascii.eqb_refl. Qed.

Lemma EqualFold_sym (s t : string) :
  strings.EqualFold s t = strings.EqualFold t s.
Proof.
  revert t. induction s as [|a s IH]; intros [|b t]; simpl; try done.
  by rewrite Ascii.eqb_sym, IH.
Qed.

(** On ASCII bytes, two names are equal under folding exactly when their
    lower-cased forms are equal. *)
Lemma EqualFold_ToLower (s t : string) :
  strings.EqualFold s t = true <-> strings.ToLower s = strings.ToLower t.
Proof.
  revert t. induction s as [|a s IH]; intros [|b t]; simpl; split; try done.
  - intros [Hab Hst]%andb_prop. apply Ascii.eqb_eq in Hab.
    apply IH in Hst. by rewrite Hab, Hst.
  - intros Heq. injection Heq as Hab Hst.
    apply andb_true_intro. split; [by apply Ascii.eqb_eq | by apply IH].
Qed.

Lemma lower_ascii_eqb_trans (a b c : ascii) :
  Ascii.eqb (strings.lower_ascii a) (strings.lower_ascii b) = true ->
  Ascii.eqb (strings.lower_ascii b) (strings.lower_ascii c) = true ->
  Ascii.eqb (strings.lower_ascii a) (strings.lower_ascii c) = true.
Proof. rewrite !Ascii.eqb_eq. congruence. Qed.

(** Folding is transitive, again byte by byte. *)
Lemma EqualFold_trans (s t u : string) :
  strings.EqualFold s t = true -> strings.EqualFold t u = true ->
  strings.EqualFold s u = true.
Proof.
  revert t u. induction s as [|a s IH]; intros [|b t] [|c u]; simpl; try done.
  intros [Hab Hst]%andb_prop [Hbc Htu]%andb_prop.
  apply andb_true_intro. split; [by eapply lower_ascii_eqb_trans|by eapply IH].
Qed.

(** ** The field reconciler *)

Section Reconciler.

Implicit Types (D R : list SecretField) (m : gmap string SecretField).

Lemma fold_lookup_Some m R k f :
  foldl insertField m R !! k = Some f -> (f ∈ R /\ fieldKey f = k) \/ m !! k = Some f.
Proof.
  revert m. induction R as [|a R IH]; intros m; simpl; [by right|].
  intros [[Hin Hk]|Hm]%IH.
  - left. split; [by apply elem_of_cons; right | done].
  - unfold insertField in Hm. destruct (decide (fieldKey a = k)) as [<-|Hne].
    + rewrite lookup_insert_eq in Hm. injection Hm as <-.
      left. split; [apply elem_of_cons; by left | done].
    + rewrite lookup_insert_ne in Hm by done. by right.
Qed.

Lemma fold_lookup_is_Some m R k :
  (exists r, r ∈ R /\ fieldKey r = k) \/ is_Some (m !! k) -> is_Some (foldl insertField m R !! k).
Proof.
  revert m. induction R as [|a R IH]; intros m; simpl.
  - intros [(r & Hin & _)|H]; [by apply elem_of_nil in Hin | done].
  - intros [(r & Hin & Hk)|H]; apply IH.
    + apply elem_of_cons in Hin as [->|Hin].
      * right. unfold insertField. rewrite Hk, lookup_insert_eq. by eexists.
      * left. by exists r.
    + right. unfold insertField. destruct (decide (fieldKey a = k)) as [<-|Hne].
      * rewrite lookup_insert_eq. by eexists.
      * by rewrite lookup_insert_ne.
Qed.

Lemma fold_lookup_fresh m R k :
  k ∉ map fieldKey R -> foldl insertField m R !! k = m !! k.
Proof.
  revert m. induction R as [|a R IH]; intros m; simpl; [done|].
  intros Hk. apply not_elem_of_cons in Hk as [Hne Hk].
  rewrite IH by done. unfold insertField. by rewrite lookup_insert_ne.
Qed.

Lemma fold_lookup_NoDup m R f :
  NoDup (map fieldKey R) -> f ∈ R -> foldl insertField m R !! fieldKey f = Some f.
Proof.
  revert m. induction R as [|a R IH]; intros m Hnd Hin; simpl.
  - by apply elem_of_nil in Hin.
  - simpl in Hnd. apply NoDup_cons in Hnd as [Ha Hnd].
    apply elem_of_cons in Hin as [->|Hin].
    + rewrite fold_lookup_fresh by done. unfold insertField. by rewrite lookup_insert_eq.
    + by apply IH.
Qed.

Lemma stateFieldMap_Some R k f :
  stateFieldMap R !! k = Some f -> f ∈ R /\ fieldKey f = k.
Proof.
  intros H. apply fold_lookup_Some in H as [H|H]; [done|].
  by rewrite lookup_empty in H.
Qed.

(** With pairwise distinct keys the map does not depend on the order of
    the remote fields. *)
Lemma stateFieldMap_Permutation R R' :
  NoDup (fieldKeys R) -> R ≡ₚ R' -> stateFieldMap R = stateFieldMap R'.
Proof.
  intros Hnd Hp.
  assert (Hnd' : NoDup (fieldKeys R')).
  { unfold fieldKeys in *. by rewrite <- Hp. }
  apply map_eq. intros k.
  destruct (stateFieldMap R !! k) as [f|] eqn:E.
  - apply stateFieldMap_Some in E as [Hin <-]. symmetry.
    apply fold_lookup_NoDup; [done | by rewrite <- Hp].
  - destruct (stateFieldMap R' !! k) as [f|] eqn:E'; [|done].
    apply stateFieldMap_Some in E' as [Hin <-].
    rewrite <- Hp in Hin.
    unfold stateFieldMap in E.
    rewrite (fold_lookup_NoDup ∅ R f Hnd Hin) in E. done.
Qed.

Lemma appendUnplanned_spec (acc R : list SecretField) :
  exists extras,
    appendUnplanned acc R = acc ++ extras
    /\ sublist extras R
    /\ forall x, x ∈ extras -> forall a, a ∈ acc -> sameName x a = false.
Proof.
  revert acc. induction R as [|r R IH]; intros acc; simpl.
  - exists []. rewrite app_nil_r. split; [done|]. split; [done|].
    intros x Hx. by apply elem_of_nil in Hx.
  - destruct (existsb _ acc) eqn:E.
    + destruct (IH acc) as (extras & Heq & Hsub & Hno).
      exists extras. split; [done|]. split; [by apply sublist_cons|done].
    + destruct (IH (acc ++ [r])) as (extras & Heq & Hsub & Hno).
      exists (r :: extras). split; [by rewrite Heq, <- app_assoc|].
      split; [by apply sublist_skip|].
      intros x Hx a Ha. apply elem_of_cons in Hx as [->|Hx].
      * destruct (sameName r a) eqn:Hra; [|done].
        assert (existsb (fun reorderedField =>
                  strings.EqualFold (fieldNameOf r) (fieldNameOf reorderedField)) acc = true)
          as Hex; [|congruence].
        apply existsb_exists. exists a. split; [by apply list_elem_of_In|done].
      * apply Hno; [done|]. apply elem_of_app. by left.
Qed.

End Reconciler.

Lemma coveredb_covered (D R : list SecretField) :
  coveredb D R = true -> covered D R.
Proof.
  unfold coveredb, covered. intros H p Hp.
  rewrite forallb_forall in H. apply list_elem_of_In in Hp.
  apply H in Hp. apply existsb_exists in Hp as (r & Hr & Hs).
  exists r. split; [by apply list_elem_of_In | done].
Qed.

Lemma matchPlanFields_elem_of (m : gmap string SecretField) (D : list SecretField) x :
  x ∈ matchPlanFields m D <-> exists q, q ∈ D /\ m !! fieldKey q = Some x.
Proof.
  induction D as [|p D IH]; simpl.
  - split; [by intros ?%elem_of_nil | by intros (q & ?%elem_of_nil & _)].
  - fold (fieldKey p). destruct (m !! fieldKey p) as [f|] eqn:E.
    + rewrite elem_of_cons, IH. split.
      * intros [->|(q & Hq & Hm)].
        -- exists p. split; [apply elem_of_cons; by left|done].
        -- exists q. split; [apply elem_of_cons; by right|done].
      * intros (q & [->|Hq]%elem_of_cons & Hm).
        -- left. congruence.
        -- right. by exists q.
    + rewrite IH. split.
      * intros (q & Hq & Hm). exists q. split; [apply elem_of_cons; by right|done].
      * intros (q & [->|Hq]%elem_of_cons & Hm); [congruence|]. by exists q.
Qed.

(** *** The reconciler in words

    The lemmas of this part use of [strings.EqualFold] only that a name
    folds to itself and that folding is transitive, and of
    [strings.ToLower] nothing; the map of lines 840-843 is read through
    its keys. *)

Lemma filter_and {A : Type} (f g : A -> bool) (l : list A) :
  List.filter (fun x => f x && g x) l = List.filter f (List.filter g l).
Proof.
  induction l as [|x l IH]; simpl; [done|].
  destruct (g x); simpl; rewrite ?andb_true_r, ?andb_false_r.
  - destruct (f x); by rewrite IH.
  - done.
Qed.

Lemma filter_implied {A : Type} (f g : A -> bool) (l : list A) :
  (forall x, f x = true -> g x = true) ->
  List.filter f (List.filter g l) = List.filter f l.
Proof.
  intros H. induction l as [|x l IH]; simpl; [done|].
  destruct (g x) eqn:Eg; simpl.
  - by rewrite IH.
  - destruct (f x) eqn:Ef; [|done]. apply H in Ef. congruence.
Qed.

(** What the loop of lines 863-877 appends to [acc]. *)
Lemma appendUnplanned_unplannedFields (acc R : list SecretField) :
  appendUnplanned acc R = acc ++ unplannedFields acc R.
Proof.
  unfold unplannedFields. revert acc.
  induction R as [|r R IH]; intros acc; simpl; [by rewrite app_nil_r|].
  change (existsb (fun reorderedField =>
                     strings.EqualFold (fieldNameOf r) (fieldNameOf reorderedField)) acc)
    with (existsb (sameName r) acc).
  destruct (existsb (sameName r) acc) eqn:Ex; simpl.
  - rewrite IH. f_equal. symmetry. apply filter_implied.
    intros x Hx. apply negb_true_iff. apply negb_true_iff in Hx.
    destruct (sameName x r) eqn:Hxr; [|done].
    apply existsb_exists in Ex as (a & Ha & Hra).
    assert (existsb (sameName x) acc = true) as Hex; [|congruence].
    apply existsb_exists. exists a. split; [done|].
    unfold sameName in *. by eapply EqualFold_trans.
  - rewrite IH, <- app_assoc. simpl. f_equal. f_equal.
    rewrite <- filter_and. apply filter_ext. intros x.
    rewrite existsb_app. simpl. by rewrite orb_false_r, negb_orb.
Qed.

(** The map of lines 840-843 holds, under a key, the last remote field
    with that lower-cased name. *)
Lemma fold_lookup_lastWithKey (m : gmap string SecretField) (R : list SecretField) k :
  foldl insertField m R !! k
  = match lastWithKey R k with Some f => Some f | None => m !! k end.
Proof.
  unfold lastWithKey. revert m. induction R as [|a R IH]; intros m; simpl; [done|].
  rewrite IH. unfold insertField.
  destruct (String.eqb_spec (fieldKey a) k) as [->|Hne].
  - rewrite last_cons. destruct (last _); [done|]. by rewrite lookup_insert_eq.
  - destruct (last _); [done|]. by rewrite lookup_insert_ne.
Qed.

Lemma stateFieldMap_lastWithKey (R : list SecretField) k :
  stateFieldMap R !! k = lastWithKey R k.
Proof.
  unfold stateFieldMap.
  change (foldl insertField ∅ R !! k = lastWithKey R k).
  rewrite fold_lookup_lastWithKey, lookup_empty. by destruct (lastWithKey R k).
Qed.

Lemma keyCovered_lookup (D R : list SecretField) p :
  keyCovered D R = true -> p ∈ D -> is_Some (lastWithKey R (fieldKey p)).
Proof.
  unfold keyCovered. rewrite forallb_forall. intros H Hp%list_elem_of_In.
  apply H, existsb_exists in Hp as (r & Hr & Hk).
  apply String.eqb_eq in Hk. rewrite <- stateFieldMap_lastWithKey.
  apply fold_lookup_is_Some. left. exists r. split; [by apply list_elem_of_In|done].
Qed.

Lemma keyCovered_Permutation (D R R' : list SecretField) :
  R ≡ₚ R' -> keyCovered D R = true -> keyCovered D R' = true.
Proof.
  unfold keyCovered. rewrite !forallb_forall. intros Hp H p Hin.
  apply H, existsb_exists in Hin as (r & Hr & Hk).
  apply existsb_exists. exists r. split; [|done].
  apply list_elem_of_In. rewrite <- Hp. by apply list_elem_of_In.
Qed.

(** With every lookup succeeding, the first loop emits one field per
    desired field. *)
Lemma matchPlanFields_keyCovered (D R : list SecretField) :
  keyCovered D R = true ->
  Some <$> matchPlanFields (stateFieldMap R) D
  = (fun p => lastWithKey R (fieldKey p)) <$> D.
Proof.
  intros Hc.
  assert (H : forall p, p ∈ D -> is_Some (lastWithKey R (fieldKey p)))
    by (intros p; by apply keyCovered_lookup).
  clear Hc. induction D as [|p D IH]; simpl; [done|].
  fold (fieldKey p). rewrite stateFieldMap_lastWithKey.
  destruct (H p) as [f Hf]; [apply elem_of_cons; by left|].
  rewrite Hf. simpl. f_equal. apply IH. intros q Hq. apply H, elem_of_cons. by right.
Qed.

Lemma reorder_keyCovered (D R : list SecretField) :
  keyCovered D R = true ->
  take (length D) (reorderFieldsToMatchPlan D R) = matchPlanFields (stateFieldMap R) D
  /\ drop (length D) (reorderFieldsToMatchPlan D R)
     = unplannedFields (matchPlanFields (stateFieldMap R) D) R.
Proof.
  intros Hc. pose proof (matchPlanFields_keyCovered D R Hc) as HM.
  apply (f_equal length) in HM. rewrite !length_fmap in HM.
  unfold reorderFieldsToMatchPlan. rewrite appendUnplanned_unplannedFields, <- HM.
  split; [apply take_app_length|apply drop_app_length].
Qed.

(** C6, as amended.  When every desired field has, lower-cased, the
    lower-cased name of a remote field, the first [length D] entries of
    the reconciled sequence follow the desired order, each one the last
    remote field with the lower-cased name of its desired field; after
    them come exactly those remote fields, in remote order, whose name
    under case folding is the name of none of these entries and of no
    earlier remote field.  When the lower-cased remote names are
    pairwise distinct, the first [length D] entries are the same for
    every permutation of the remote sequence; and when moreover every
    remote field has the lower-cased name of a desired field, nothing
    follows them, so that for every permutation of the remote sequence
    the result is these entries, in the desired order. *)
Theorem reorder_follows_plan_then_appends (D R : list SecretField) :
  keyCovered D R = true ->
  let out := reorderFieldsToMatchPlan D R in
  let matched := take (length D) out in
  length matched = length D
  /\ Some <$> matched = (fun p => lastWithKey R (fieldKey p)) <$> D
  /\ drop (length D) out = unplannedFields matched R
  /\ (NoDup (fieldKeys R) ->
      forall R', R ≡ₚ R' ->
        take (length D) (reorderFieldsToMatchPlan D R') = matched)
  /\ (NoDup (fieldKeys R) ->
      (forall r, r ∈ R -> fieldKey r ∈ fieldKeys D) ->
      forall R', R ≡ₚ R' -> reorderFieldsToMatchPlan D R' = matched).
Proof.
  intros Hc out matched. subst out matched.
  destruct (reorder_keyCovered D R Hc) as [Htake Hdrop].
  pose proof (matchPlanFields_keyCovered D R Hc) as HM.
  rewrite Htake, Hdrop.
  assert (Hperm : NoDup (fieldKeys R) -> forall R', R ≡ₚ R' ->
            matchPlanFields (stateFieldMap R') D = matchPlanFields (stateFieldMap R) D).
  { intros Hnd R' Hp. by rewrite (stateFieldMap_Permutation R R' Hnd Hp). }
  split; [|split; [done|split; [done|split]]].
  - apply (f_equal length) in HM. by rewrite !length_fmap in HM.
  - intros Hnd R' Hp.
    destruct (reorder_keyCovered D R' (keyCovered_Permutation D R R' Hp Hc)) as [-> _].
    by apply Hperm.
  - intros Hnd Hback R' Hp.
    assert (Hnd' : NoDup (fieldKeys R')).
    { unfold fieldKeys in *. by rewrite <- Hp. }
    unfold reorderFieldsToMatchPlan.
    rewrite appendUnplanned_unplannedFields, (Hperm Hnd R' Hp).
    assert (unplannedFields (matchPlanFields (stateFieldMap R) D) R' = []) as ->;
      [|by rewrite app_nil_r].
    unfold unplannedFields.
    assert (Hall : forall x, x ∈ R' ->
              negb (existsb (sameName x) (matchPlanFields (stateFieldMap R) D)) = false).
    { intros x Hx. apply negb_false_iff, existsb_exists. exists x.
      split; [|apply EqualFold_refl].
      apply list_elem_of_In, matchPlanFields_elem_of.
      rewrite <- Hp in Hx.
      pose proof (Hback x Hx) as Hk. unfold fieldKeys in Hk.
      apply list_elem_of_In, in_map_iff in Hk as (p & Hkp & Hp').
      exists p. split; [by apply list_elem_of_In|].
      change (strings.ToLower (fieldNameOf p)) with (fieldKey p) in Hkp.
      rewrite Hkp. by apply (fold_lookup_NoDup ∅ R x). }
    assert (Hsub : forall x, x ∈ firstOfEachName R' -> x ∈ R').
    { clear. induction R' as [|r R' IH]; simpl; [done|].
      intros x [->|Hx]%elem_of_cons; apply elem_of_cons; [by left|right].
      apply IH. apply list_elem_of_In in Hx. apply filter_In in Hx as [Hx _].
      by apply list_elem_of_In. }
    induction (firstOfEachName R') as [|x l IH]; simpl; [done|].
    rewrite Hall by (apply Hsub, elem_of_cons; by left).
    apply IH. intros y Hy. apply Hsub, elem_of_cons. by right.
Qed.

Lemma reorder_follows_plan_then_appends_witness :
  keyCovered planPasswordUsername remoteUsernamePassword = true
  /\ reorderFieldsToMatchPlan planPasswordUsername remoteUsernamePassword
     = reverse remoteUsernamePassword
  /\ reorderFieldsToMatchPlan planPasswordUsername (reverse remoteUsernamePassword)
     = reverse remoteUsernamePassword.
Proof.
  assert (Hnd : NoDup (fieldKeys remoteUsernamePassword)).
  { apply (bool_decide_unpack _). vm_compute. reflexivity. }
  assert (Hback : forall r, r ∈ remoteUsernamePassword ->
                    fieldKey r ∈ fieldKeys planPasswordUsername).
  { intros r Hr. call_cases Hr; subst r; vm_compute;
      [apply elem_of_cons; right|]; apply elem_of_cons; by left. }
  destruct (reorder_follows_plan_then_appends planPasswordUsername remoteUsernamePassword
              eq_refl) as (_ & _ & _ & _ & Hall).
  split; [reflexivity|]. split.
  - exact (Hall Hnd Hback remoteUsernamePassword (Permutation_refl _)).
  - exact (Hall Hnd Hback (reverse remoteUsernamePassword) (Permutation_swap _ _ [])).
Defined.

Example reorder_password_username :
  reorderFieldsToMatchPlan planPasswordUsername remoteUsernamePassword
  = reverse remoteUsernamePassword.
Proof. vm_compute. reflexivity. Qed.

(** An undeclared remote name that occurs twice: the first of the two
    fields is appended, the second is not. *)
Example reorder_appends_first_of_a_name :
  reorderFieldsToMatchPlan planUsername
    (remoteUsernameNotes ++ [flattenField (remoteField 9 "NOTES" "notes-2" "more" false)])
  = remoteUsernameNotes.
Proof. vm_compute. reflexivity. Qed.

(** C6 as the specification states it fails twice: a remote field that
    the plan does not declare is appended, so the result is longer than
    the desired sequence; and with two remote fields of one name up to
    case the entry that is kept depends on the order of the remote
    sequence.  In both inputs every desired name has a remote field of
    that name, under case folding and lower-cased alike. *)
Lemma reorder_claim_counterexample :
  (covered planUsername remoteUsernameNotes
   /\ keyCovered planUsername remoteUsernameNotes = true
   /\ ~ Forall2 (fun p r => r ∈ remoteUsernameNotes /\ sameName p r = true)
         planUsername (reorderFieldsToMatchPlan planUsername remoteUsernameNotes))
  /\ (covered planUsername remoteTwoUsernames
      /\ keyCovered planUsername remoteTwoUsernames = true
      /\ remoteTwoUsernames ≡ₚ reverse remoteTwoUsernames
      /\ reorderFieldsToMatchPlan planUsername (reverse remoteTwoUsernames)
         <> reorderFieldsToMatchPlan planUsername remoteTwoUsernames).
Proof.
  split.
  - split; [apply coveredb_covered; reflexivity|]. split; [reflexivity|].
    intros H. apply Forall2_length in H. vm_compute in H. discriminate.
  - split; [apply coveredb_covered; reflexivity|]. split; [reflexivity|].
    split; [apply Permutation_swap|].
    vm_compute. discriminate.
Qed.

(** ** Template binding *)

Lemma find_first {A : Type} (P : A -> bool) (l : list A) :
  match List.find P l with
  | Some x =>
      exists i : nat, l !! i = Some x /\ P x = true
        /\ forall (j : nat) y, (j < i)%nat -> l !! j = Some y -> P y = false
  | None => forall y, y ∈ l -> P y = false
  end.
Proof.
  induction l as [|a l IH]; simpl.
  - intros y Hy. by apply elem_of_nil in Hy.
  - destruct (P a) eqn:Pa.
    + exists 0%nat. repeat split; [done|]. intros j y Hj. lia.
    + destruct (List.find P l) as [x|].
      * destruct IH as (i & Hi & Px & Hlt).
        exists (S i). repeat split; try done.
        intros [|j] y Hj Hy; simpl in Hy; [congruence|].
        apply (Hlt j); [lia | done].
      * intros y [->|Hy]%elem_of_cons; [done | by apply IH].
Qed.

Lemma lookupTemplateField_find (fieldName : string) (records : list server.SecretTemplateField) :
  lookupTemplateField fieldName records = List.find (nameOrSlugMatches fieldName) records.
Proof.
  induction records as [|r rs IH]; simpl; [done|].
  unfold nameOrSlugMatches at 1. by rewrite IH.
Qed.

Lemma findTemplateField_find (field : server.SecretField) (tfs : list server.SecretTemplateField) :
  findTemplateField field tfs = List.find (templateFieldMatches field) tfs.
Proof. induction tfs as [|r rs IH]; simpl; [done|]. by rewrite IH. Qed.

(** C4, as amended.  Binding scans the template once, in declaration
    order, and takes the first template field for which any rule holds:
    in [getSecretData] the rules are equality up to case of the declared
    field name with the template field's name or with its slug (the
    declared template-field id is not read); in [generatePassword] the
    rules are those two and equality of ids when the field's id is
    positive.  No template field before the bound one satisfies any rule,
    and binding fails exactly when no template field satisfies one. *)
Theorem template_binding_first_match :
  (forall fieldName records,
      match lookupTemplateField fieldName records with
      | Some tf =>
          exists i : nat, records !! i = Some tf
            /\ nameOrSlugMatches fieldName tf = true
            /\ forall (j : nat) tf', (j < i)%nat -> records !! j = Some tf' ->
                 nameOrSlugMatches fieldName tf' = false
      | None => forall tf, tf ∈ records -> nameOrSlugMatches fieldName tf = false
      end)
  /\ (forall field tfs,
      match findTemplateField field tfs with
      | Some tf =>
          exists i : nat, tfs !! i = Some tf
            /\ templateFieldMatches field tf = true
            /\ forall (j : nat) tf', (j < i)%nat -> tfs !! j = Some tf' ->
                 templateFieldMatches field tf' = false
      | None => forall tf, tf ∈ tfs -> templateFieldMatches field tf = false
      end)
  /\ (forall template field,
      match buildSecretField template field with
      | inr secretField =>
          exists tf,
            lookupTemplateField (fieldNameOf field) (server.TemplateFields template) = Some tf
            /\ server.FieldID secretField = server.SecretTemplateFieldID tf
            /\ server.FieldName secretField = server.TemplateName tf
            /\ server.Slug secretField = server.FieldSlugName tf
      | inl _ =>
          lookupTemplateField (fieldNameOf field) (server.TemplateFields template) = None
      end).
Proof.
  split; [|split].
  - intros fieldName records. rewrite lookupTemplateField_find. apply find_first.
  - intros field tfs. rewrite findTemplateField_find. apply find_first.
  - intros template field. unfold buildSecretField.
    destruct (lookupTemplateField _ _) as [tf|]; [|done].
    repeat match goal with |- context [if ?b then _ else _] => destruct b end;
      by exists tf.
Qed.

Lemma template_binding_first_match_witness :
  exists i : nat,
    overlappingTemplate !! i = Some (mkTemplateField 5 "Secret" "password" false)
    /\ nameOrSlugMatches "password" (mkTemplateField 5 "Secret" "password" false) = true
    /\ forall (j : nat) tf', (j < i)%nat -> overlappingTemplate !! j = Some tf' ->
         nameOrSlugMatches "password" tf' = false.
Proof.
  exact (proj1 template_binding_first_match "password" overlappingTemplate).
Defined.

(** C4 as the specification states it fails: in [overlappingTemplate]
    the slug of the first field is the name of the second.  For a field
    declared as "password" with template-field id 7, binding by priority
    takes the second field (by id, and by name as well), the loop of
    [getSecretData] takes the first (its slug matches); for the field
    [generatePassword] then receives, id 7 and name "Password", its loop
    takes the first field too, although the id rule matches the
    second. *)
Lemma binding_priority_counterexample :
  bindByPriority 7 "password" overlappingTemplate
    = Some (mkTemplateField 7 "Password" "pw" true)
  /\ bindByPriority 0 "password" overlappingTemplate
    = Some (mkTemplateField 7 "Password" "pw" true)
  /\ lookupTemplateField
       (fieldNameOf (declaredField "password" (types.Int64Value 7) types.StringNull))
       overlappingTemplate
    = Some (mkTemplateField 5 "Secret" "password" false)
  /\ findTemplateField (remoteField 7 "Password" "pw" EmptyString true) overlappingTemplate
    = Some (mkTemplateField 5 "Secret" "password" false)
  /\ bindByPriority 7 "Password" overlappingTemplate
    = Some (mkTemplateField 7 "Password" "pw" true).
Proof. repeat split. Qed.

(** ** Durable records built from a remote read *)

Lemma matchPlanFields_elem (R D : list SecretField) (x : SecretField) :
  x ∈ matchPlanFields (stateFieldMap R) D -> x ∈ R.
Proof.
  induction D as [|p D IH]; simpl; [by intros ?%elem_of_nil|].
  destruct (stateFieldMap R !! _) as [f|] eqn:E; [|done].
  intros [->|Hx]%elem_of_cons; [|by apply IH].
  by apply stateFieldMap_Some in E as [? _].
Qed.

Lemma reorder_elem (D R : list SecretField) (x : SecretField) :
  x ∈ reorderFieldsToMatchPlan D R -> x ∈ R.
Proof.
  unfold reorderFieldsToMatchPlan.
  destruct (appendUnplanned_spec (matchPlanFields (stateFieldMap R) D) R)
    as (extras & -> & Hsub & _).
  intros [Hx|Hx]%elem_of_app.
  - by apply matchPlanFields_elem in Hx.
  - by apply (elem_of_sublist extras).
Qed.

Lemma reorder_Forall (P : SecretField -> Prop) (D R : list SecretField) :
  Forall P R -> Forall P (reorderFieldsToMatchPlan D R).
Proof.
  rewrite !Forall_forall. intros H x Hx. by apply H, (reorder_elem D).
Qed.

Lemma keepStateAttachment_ItemValue b old f :
  ItemValue (keepStateAttachment b old f) = ItemValue f.
Proof.
  unfold keepStateAttachment.
  repeat match goal with
         | |- context [if ?c then _ else _] => destruct c
         | |- context [match ?c with Some _ => _ | None => _ end] => destruct c
         end; reflexivity.
Qed.

Lemma keepPlanAttachment_ItemValue planFields f :
  ItemValue (keepPlanAttachment planFields f) = ItemValue f.
Proof.
  unfold keepPlanAttachment.
  repeat match goal with
         | |- context [if ?c then _ else _] => destruct c
         | |- context [match ?c with Some _ => _ | None => _ end] => destruct c
         end; reflexivity.
Qed.

Lemma keepUpdateAttachment_ItemValue b planFields stateFields f :
  ItemValue (keepUpdateAttachment b planFields stateFields f) = ItemValue f.
Proof.
  unfold keepUpdateAttachment.
  repeat match goal with
         | |- context [if ?c then _ else _] => destruct c
         | |- context [match ?c with Some _ => _ | None => _ end] => destruct c
         end; simpl; try apply keepStateAttachment_ItemValue; reflexivity.
Qed.

Lemma flattenField_ItemValue (f : server.SecretField) :
  ItemValue (flattenField f) = types.StringValue (server.ItemValue f).
Proof.
  unfold flattenField.
  repeat match goal with
         | |- context [if ?c then _ else _] => destruct c
         end; reflexivity.
Qed.

Lemma flattenedState_known (secret : server.Secret) :
  Forall itemValueKnown (Fields (flattenedState secret)).
Proof.
  simpl. apply List.Forall_map, Forall_forall. intros f _.
  eexists. apply flattenField_ItemValue.
Qed.

Lemma Forall_map_ItemValue (g : SecretField -> SecretField) (l : list SecretField) :
  (forall f, ItemValue (g f) = ItemValue f) ->
  Forall itemValueKnown l -> Forall itemValueKnown (map g l).
Proof.
  intros Hg Hl. apply List.Forall_map. eapply Forall_impl; [exact Hl|].
  intros f [v Hv]. exists v. by rewrite Hg.
Qed.

Section DurableRecords.

Context {W : Type}.
Implicit Types (client : Server W) (w : World W).

Lemma readSecretByID_known client id w st w' :
  readSecretByID client id w = (inr st, w') -> Forall itemValueKnown (Fields st).
Proof.
  unfold readSecretByID. destruct (Atoi id) as [z [err|]]; unfold_M; [done|].
  unfold Secret. unfold_M.
  destruct (doSecret client z (remote w)) as [[err|secret] r]; [done|].
  unfold flattenSecret. intros [= <- _]. apply flattenedState_known.
Qed.

Lemma with_SshKeyArgs_Fields (st : SecretResourceState) a :
  Fields (with_SshKeyArgs st a) = Fields st.
Proof. reflexivity. Qed.

Lemma Read_known client state w resp w' st :
  Read (Some client) state w = (resp, w') -> State resp = Some st ->
  Forall itemValueKnown (Fields st).
Proof.
  unfold Read. unfold_M.
  destruct (readSecretByID client _ w) as [[ds|newState] w1] eqn:E.
  - intros [= <- _]. done.
  - apply readSecretByID_known in E.
    intros [= <- _] [= <-]. simpl.
    apply Forall_map_ItemValue; [apply keepStateAttachment_ItemValue|].
    destruct (sshKeyArgs state); simpl; by apply reorder_Forall.
Qed.

Lemma Create_known client plan w resp w' st :
  Create (Some client) plan w = (resp, w') -> State resp = Some st ->
  Forall itemValueKnown (Fields st).
Proof.
  unfold Create. unfold_M.
  destruct (generatePassword plan client w) as [[err|newSecret] w1]; [by intros [= <- _]|].
  unfold CreateSecret. unfold_M.
  destruct (doCreateSecret client newSecret (remote w1)) as [[err|created] r];
    [by intros [= <- _]|].
  destruct (readSecretByID client _ _) as [[ds|newState] w2] eqn:E;
    [by intros [= <- _]|].
  apply readSecretByID_known in E.
  intros [= <- _] [= <-]. simpl.
  apply Forall_map_ItemValue; [apply keepPlanAttachment_ItemValue|].
  destruct (sshKeyArgs plan); simpl; by apply reorder_Forall.
Qed.

Lemma Update_known client plan state w resp w' st :
  Update (Some client) plan state w = (resp, w') -> State resp = Some st ->
  Forall itemValueKnown (Fields st).
Proof.
  unfold Update. unfold_M.
  destruct (getSecretData _ client w) as [[err|updatedSecret] w1]; [by intros [= <- _]|].
  destruct (Atoi _) as [ustoi [err|]]; [by intros [= <- _]|].
  unfold UpdateSecret. unfold_M.
  destruct (doUpdateSecret client _ (remote w1)) as [[err|updated] r];
    [by intros [= <- _]|].
  destruct (readSecretByID client _ _) as [[ds|newState] w2] eqn:E;
    [by intros [= <- _]|].
  apply readSecretByID_known in E.
  intros [= <- _] [= <-]. simpl.
  apply Forall_map_ItemValue; [apply keepUpdateAttachment_ItemValue|].
  destruct (sshKeyArgs plan); simpl; by apply reorder_Forall.
Qed.

End DurableRecords.

(** C9.  A remote field is flattened to a state field whose item value
    is the known string the remote store returned, the empty string
    included, never null; hence every field of a state produced by
    [readSecretByID], and of the state that [Create], [Read] or [Update]
    hand to the host, has a known item value, and a prior state cannot
    tell an unset field from an explicitly empty one. *)
Theorem durable_item_values_known :
  (forall f : server.SecretField,
      ItemValue (flattenField f) = types.StringValue (server.ItemValue f)
      /\ types.IsNull (ItemValue (flattenField f)) = false)
  /\ (forall secret : server.Secret,
      flattenSecret secret = inr (flattenedState secret)
      /\ Fields (flattenedState secret) = map flattenField (server.Fields secret))
  /\ (forall (W : Type) (client : Server W) id w st w',
      readSecretByID client id w = (inr st, w') -> Forall itemValueKnown (Fields st))
  /\ (forall (W : Type) (client : Server W) plan state w resp w' st,
      (Create (Some client) plan w = (resp, w')
       \/ Read (Some client) state w = (resp, w')
       \/ Update (Some client) plan state w = (resp, w')) ->
      State resp = Some st -> Forall itemValueKnown (Fields st)).
Proof.
  repeat split.
  - apply flattenField_ItemValue.
  - by rewrite flattenField_ItemValue.
  - intros W client id w st w'. apply readSecretByID_known.
  - intros W client plan state w resp w' st [H|[H|H]] Hst.
    + by eapply Create_known.
    + by eapply Read_known.
    + by eapply Update_known.
Qed.

Lemma durable_item_values_known_witness :
  Read (Some vaultServer) state1 (freshWorld vault1)
    = (fst (Read (Some vaultServer) state1 (freshWorld vault1)),
       snd (Read (Some vaultServer) state1 (freshWorld vault1)))
  /\ State (fst (Read (Some vaultServer) state1 (freshWorld vault1))) = Some state1
  /\ Forall itemValueKnown (Fields state1).
Proof.
  split; [reflexivity|]. split; [vm_compute; reflexivity|].
  destruct durable_item_values_known as (_ & _ & _ & H).
  apply (H Vault vaultServer state1 state1 (freshWorld vault1)
           (fst (Read (Some vaultServer) state1 (freshWorld vault1)))
           (snd (Read (Some vaultServer) state1 (freshWorld vault1))) state1).
  - right. left. vm_compute. reflexivity.
  - vm_compute. reflexivity.
Defined.

(** ** Identifier coercion *)

Section Coercion.

Context {W : Type}.
Implicit Types (client : Server W) (w : World W).

Lemma getSecretData_unparsable client plan w :
  (exists err, unparsable (FolderID plan) err
               \/ unparsable (SiteID plan) err
               \/ unparsable (SecretTemplateID plan) err) ->
  exists e, namesUnparsable plan e /\ getSecretData plan client w = (inl e, w).
Proof.
  unfold unparsable, namesUnparsable, getSecretData. intros Hbad.
  destruct (Atoi (types.ValueString (FolderID plan))) as [folderID [e1|]] eqn:E1.
  { eexists. split; [|reflexivity]. exists e1. left. split; [done|]. unfold unparsable. by rewrite E1. }
  destruct (Atoi (types.ValueString (SiteID plan))) as [siteID [e2|]] eqn:E2.
  { eexists. split; [|reflexivity]. exists e2. right. left. split; [done|]. unfold unparsable. by rewrite E2. }
  destruct (Atoi (types.ValueString (SecretTemplateID plan))) as [templateID [e3|]] eqn:E3.
  { eexists. split; [|reflexivity]. exists e3. right. right. split; [done|]. unfold unparsable. by rewrite E3. }
  simpl in Hbad. destruct Hbad as [err [H|[H|H]]]; discriminate.
Qed.

Lemma getSecretData_drop_args_error client plan w e :
  (exists err, unparsable (FolderID plan) err
               \/ unparsable (SiteID plan) err
               \/ unparsable (SecretTemplateID plan) err) ->
  getSecretData plan client w = (inl e, w) ->
  getSecretData (with_SshKeyArgs plan None) client w = (inl e, w).
Proof.
  unfold unparsable, getSecretData.
  change (FolderID (with_SshKeyArgs plan None)) with (FolderID plan).
  change (SiteID (with_SshKeyArgs plan None)) with (SiteID plan).
  change (SecretTemplateID (with_SshKeyArgs plan None)) with (SecretTemplateID plan).
  intros Hbad.
  destruct (Atoi (types.ValueString (FolderID plan))) as [folderID [e1|]]; [done|].
  destruct (Atoi (types.ValueString (SiteID plan))) as [siteID [e2|]]; [done|].
  destruct (Atoi (types.ValueString (SecretTemplateID plan))) as [templateID [e3|]];
    [done|].
  simpl in Hbad. destruct Hbad as [err [H|[H|H]]]; discriminate.
Qed.

Lemma getSecretData_calls client plan w r w' :
  getSecretData plan client w = (r, w') ->
  calls w' = calls w
  \/ exists templateID, calls w' = calls w ++ [CallSecretTemplate templateID].
Proof.
  unfold getSecretData.
  destruct (Atoi _) as [folderID [e1|]]; [intros [= _ <-]; by left|].
  destruct (Atoi _) as [siteID [e2|]]; [intros [= _ <-]; by left|].
  destruct (Atoi _) as [templateID [e3|]]; [intros [= _ <-]; by left|].
  unfold SecretTemplate. unfold_M.
  destruct (doSecretTemplate client templateID (remote w)) as [[err|template] r0].
  - intros [= _ <-]. right. by exists templateID.
  - destruct (buildSecretFields _ _); intros [= _ <-]; right; by exists templateID.
Qed.

End Coercion.

(** C5, as amended.  In [Create] and [Update], a folder, site or
    template id that does not parse fails the operation with a "Secret
    Data Error" whose error names the attribute, and the remote world and
    the call log are untouched.  In [Read], a secret id that does not
    parse fails the operation with a "Secret Conversion Error", again
    with no remote call.  In [Update], a secret id that does not parse
    fails the operation without setting a state, with the error "Error
    converting ID from string to int" unless the preparation of the
    secret failed first, and the only remote call that can precede the
    failure is the template fetch of [getSecretData]; no update is
    sent. *)
Theorem identifier_parse_failures (W : Type) (client : Server W)
    (plan state : SecretResourceState) (w : World W) :
  ((exists err, unparsable (FolderID plan) err
                \/ unparsable (SiteID plan) err
                \/ unparsable (SecretTemplateID plan) err) ->
   exists e, namesUnparsable plan e
     /\ Create (Some client) plan w
        = (failed [NewErrorDiagnostic "Secret Data Error"
                     "Failed to prepare secret data: %s" [ArgError e]], w)
     /\ Update (Some client) plan state w
        = (failed [NewErrorDiagnostic "Secret Data Error"
                     "Failed to prepare secret data: %s" [ArgError e]], w))
  /\ (forall err, unparsable (ID state) err ->
      Read (Some client) state w
      = (failed [NewErrorDiagnostic "Secret Conversion Error" "invalid secret ID: %s"
                   [ArgError err]], w))
  /\ (forall err resp w', unparsable (ID state) err ->
      Update (Some client) plan state w = (resp, w') ->
      State resp = None
      /\ (Diags resp
          = [NewErrorDiagnostic "Error converting ID from string to int"
               "Failed to update secret: %s" [ArgError err]]
          \/ exists e,
               Diags resp
               = [NewErrorDiagnostic "Secret Data Error"
                    "Failed to prepare secret data: %s" [ArgError e]])
      /\ (calls w' = calls w
          \/ exists templateID, calls w' = calls w ++ [CallSecretTemplate templateID])).
Proof.
  split; [|split].
  - intros Hbad.
    destruct (getSecretData_unparsable client plan w Hbad) as (e & Hn & He).
    exists e. split; [done|]. split.
    + unfold Create, generatePassword. unfold_M. by rewrite He.
    + unfold Update. unfold_M.
      by rewrite (getSecretData_drop_args_error client plan w e Hbad He).
  - intros err Herr. unfold unparsable in Herr.
    unfold Read, readSecretByID. unfold_M.
    destruct (Atoi _) as [z [e|]]; simpl in Herr; [|discriminate].
    by injection Herr as ->.
  - intros err resp w' Herr. unfold unparsable in Herr.
    unfold Update. unfold_M.
    destruct (getSecretData _ client w) as [[e|updatedSecret] w1] eqn:E.
    + apply getSecretData_calls in E. intros [= <- <-].
      split; [done|]. split; [|done]. right. by exists e.
    + apply getSecretData_calls in E.
      destruct (Atoi _) as [z [e|]]; simpl in Herr; [|discriminate].
      injection Herr as ->. intros [= <- <-].
      split; [done|]. split; [|done]. by left.
Qed.

Lemma identifier_parse_failures_witness :
  (exists err, unparsable (FolderID planBadFolder) err
               \/ unparsable (SiteID planBadFolder) err
               \/ unparsable (SecretTemplateID planBadFolder) err)
  /\ exists e, namesUnparsable planBadFolder e
       /\ Create (Some vaultServer) planBadFolder (freshWorld vault1)
          = (failed [NewErrorDiagnostic "Secret Data Error"
                       "Failed to prepare secret data: %s" [ArgError e]],
             freshWorld vault1).
Proof.
  assert (Hbad : exists err, unparsable (FolderID planBadFolder) err
                             \/ unparsable (SiteID planBadFolder) err
                             \/ unparsable (SecretTemplateID planBadFolder) err).
  { eexists. left. reflexivity. }
  split; [exact Hbad|].
  destruct (proj1 (identifier_parse_failures Vault vaultServer planBadFolder state1
                     (freshWorld vault1)) Hbad) as (e & Hn & Hc & _).
  exists e. split; [exact Hn | exact Hc].
Defined.

(** C5 as the specification states it fails in [Update]: with a secret
    id that does not parse, the operation fails only after the template
    has been fetched from the remote store. *)
Lemma update_parse_failure_counterexample :
  unparsable (ID stateBadID) (NumError "Atoi" "abc" strconv.ErrSyntax)
  /\ Diags (fst (Update (Some vaultServer) plan1 stateBadID (freshWorld vault1)))
     = [NewErrorDiagnostic "Error converting ID from string to int"
          "Failed to update secret: %s"
          [ArgError (NumError "Atoi" "abc" strconv.ErrSyntax)]]
  /\ calls (snd (Update (Some vaultServer) plan1 stateBadID (freshWorld vault1)))
     = [CallSecretTemplate 6001].
Proof. repeat split. Qed.

(** [Delete] with a secret id that does not parse: the error is logged
    only, the remote store is asked to delete secret 0, and the
    operation reports no error when that call succeeds. *)
Lemma Delete_unparsable_id_deletes_zero :
  unparsable (ID stateBadID) (NumError "Atoi" "abc" strconv.ErrSyntax)
  /\ Diags (fst (Delete (Some vaultServer) stateBadID (freshWorld vault1))) = []
  /\ calls (snd (Delete (Some vaultServer) stateBadID (freshWorld vault1)))
     = [CallDeleteSecret 0].
Proof. repeat split. Qed.

(** ** Value resolution on update *)

Lemma buildSecretField_ItemValue template pf f0 :
  buildSecretField template pf = inr f0 ->
  server.ItemValue f0 = types.ValueString (ItemValue pf).
Proof.
  unfold buildSecretField. destruct (lookupTemplateField _ _) as [tf|]; [|done].
  assert ((if types.IsNull (ItemValue pf) then EmptyString
           else types.ValueString (ItemValue pf)) = types.ValueString (ItemValue pf)) as ->.
  { by destruct (ItemValue pf). }
  repeat match goal with |- context [if ?b then _ else _] => destruct b end;
    by intros [= <-].
Qed.

Lemma buildSecretFields_lookup template pfs fields0 :
  buildSecretFields template pfs = inr fields0 ->
  length fields0 = length pfs
  /\ forall (i : nat) pf, pfs !! i = Some pf ->
       exists f0, fields0 !! i = Some f0 /\ buildSecretField template pf = inr f0.
Proof.
  revert fields0. induction pfs as [|p pfs IH]; intros fields0; simpl.
  - intros [= <-]. split; [done|]. intros i pf Hi. by rewrite lookup_nil in Hi.
  - destruct (buildSecretField template p) as [e|f] eqn:Ef; [done|].
    destruct (buildSecretFields template pfs) as [e|fs]; [done|].
    intros [= <-]. destruct (IH fs eq_refl) as [Hlen Hlk].
    split; [simpl; by rewrite Hlen|].
    intros [|i] pf Hi; simpl in *.
    + injection Hi as <-. by exists f.
    + by apply Hlk.
Qed.

Lemma preserveStateValue_FieldName b planFields stateFields f0 :
  server.FieldName (preserveStateValue b planFields stateFields f0) = server.FieldName f0.
Proof.
  unfold preserveStateValue.
  repeat match goal with
         | |- context [if ?c then _ else _] => destruct c
         | |- context [match ?c with Some _ => _ | None => _ end] => destruct c
         end; reflexivity.
Qed.

(** Whatever branch the loop takes, the submitted value is the plan's
    value or the value of the first same-named prior field. *)
Lemma preserveStateValue_cases b planFields stateFields f0 :
  server.ItemValue (preserveStateValue b planFields stateFields f0) = server.ItemValue f0
  \/ exists sf, List.find (sameNameFold (server.FieldName f0)) stateFields = Some sf
       /\ preservable b stateFields (server.FieldName f0) = true
       /\ server.ItemValue (preserveStateValue b planFields stateFields f0)
          = types.ValueString (ItemValue sf).
Proof.
  unfold preserveStateValue, preservable.
  destruct (List.find (sameNameFold (server.FieldName f0)) stateFields) as [sf|] eqn:Es.
  - destruct (b && nameLooksLikeSshKey (server.FieldName f0)
              || negb (types.IsNull (IsPassword sf)) && types.ValueBool (IsPassword sf))
      eqn:Ep; [|by left].
    destruct (negb (types.IsNull (Filename sf))
              && negb (isEmptyString (types.ValueString (Filename sf))));
      (destruct (List.find (sameNameFold (server.FieldName f0)) planFields) as [pf|];
       [destruct (types.IsNull (ItemValue pf)
                  || isEmptyString (types.ValueString (ItemValue pf)));
        [right; by exists sf | by left]
       | right; by exists sf]).
  - left. by destruct (_ || _).
Qed.

Lemma preserveStateValue_value b planFields stateFields f0 v :
  server.ItemValue f0 = v ->
  (forall sf, sf ∈ stateFields -> sameNameFold (server.FieldName f0) sf = true ->
              types.ValueString (ItemValue sf) = v) ->
  server.ItemValue (preserveStateValue b planFields stateFields f0) = v.
Proof.
  intros Hv Hprior.
  destruct (preserveStateValue_cases b planFields stateFields f0)
    as [->|(sf & Hfind & _ & ->)]; [done|].
  apply List.find_some in Hfind as [Hin Hname].
  apply Hprior; [by apply list_elem_of_In | done].
Qed.

Section UpdateRuns.

Context {W : Type}.
Implicit Types (client : Server W) (w : World W).

Lemma getSecretData_inr client st w secret w1 :
  getSecretData st client w = (inr secret, w1) ->
  exists templateID template fields0,
    buildSecretFields template (Fields st) = inr fields0
    /\ server.Fields secret = fields0
    /\ calls w1 = calls w ++ [CallSecretTemplate templateID].
Proof.
  unfold getSecretData.
  destruct (Atoi _) as [folderID [e1|]]; [done|].
  destruct (Atoi _) as [siteID [e2|]]; [done|].
  destruct (Atoi _) as [templateID [e3|]]; [done|].
  unfold SecretTemplate. unfold_M.
  destruct (doSecretTemplate client templateID (remote w)) as [[err|template] r0]; [done|].
  destruct (buildSecretFields template (Fields st)) as [e|fields0] eqn:Eb; [done|].
  intros [= <- <-]. by exists templateID, template, fields0.
Qed.

Lemma readSecretByID_calls client id w r w' :
  readSecretByID client id w = (r, w') ->
  calls w' = calls w \/ exists z, calls w' = calls w ++ [CallSecret z].
Proof.
  unfold readSecretByID. destruct (Atoi id) as [z [err|]]; [intros [= _ <-]; by left|].
  unfold Secret. unfold_M.
  destruct (doSecret client z (remote w)) as [[err|secret] r0];
    intros [= _ <-]; right; by exists z.
Qed.

(** What [Update] submits: the fields [getSecretData] built from the
    plan, each passed through the preservation loop. *)
Lemma Update_submitted client plan state w resp w' s :
  Update (Some client) plan state w = (resp, w') -> calls w = [] ->
  CallUpdateSecret s ∈ calls w' ->
  exists template fields0,
    buildSecretFields template (Fields plan) = inr fields0
    /\ server.Fields s
       = map (preserveStateValue (hasSshKeyArgsOf state) (Fields plan) (Fields state))
             fields0.
Proof.
  unfold Update. unfold_M. intros Hrun Hw.
  destruct (getSecretData _ client w) as [[e|updatedSecret] w1] eqn:E.
  { apply getSecretData_calls in E. injection Hrun as _ <-. rewrite Hw in E.
    destruct E as [->|[t ->]]; intros Hin; by call_cases Hin. }
  apply getSecretData_inr in E as (templateID & template & fields0 & Hb & Hf & Hc).
  rewrite Hw in Hc. simpl in Hc.
  destruct (Atoi _) as [ustoi [err|]].
  { injection Hrun as _ <-. rewrite Hc. intros Hin. by call_cases Hin. }
  unfold UpdateSecret in Hrun. unfold_M.
  destruct (doUpdateSecret client _ (remote w1)) as [[err|updated] r] eqn:Eu.
  { injection Hrun as _ <-. simpl. rewrite Hc. simpl. intros Hin.
    call_cases Hin. injection Hin as ->.
    exists template, fields0. split; [done|]. simpl. by rewrite Hf. }
  destruct (readSecretByID client _ _) as [rd w2] eqn:Er.
  apply readSecretByID_calls in Er. simpl in Er. rewrite Hc in Er. simpl in Er.
  assert (calls w' = calls w2) as ->.
  { destruct rd; by injection Hrun as _ <-. }
  intros Hin.
  destruct Er as [Er|[z Er]]; rewrite Er in Hin;
    call_cases Hin; injection Hin as ->;
    exists template, fields0; (split; [done|]); simpl; by rewrite Hf.
Qed.

End UpdateRuns.

Lemma appendUnplanned_complete (acc R : list SecretField) (r : SecretField) :
  r ∈ R -> exists x, x ∈ appendUnplanned acc R /\ sameName r x = true.
Proof.
  revert acc. induction R as [|a R IH]; intros acc; [by intros ?%elem_of_nil|].
  intros [->|Hr]%elem_of_cons; simpl.
  - destruct (existsb _ acc) eqn:E.
    + apply existsb_exists in E as (x & Hx & Hs).
      exists x. split; [|done].
      destruct (appendUnplanned_spec acc R) as (extras & -> & _).
      apply elem_of_app. left. by apply list_elem_of_In.
    + exists a. split; [|apply EqualFold_refl].
      destruct (appendUnplanned_spec (acc ++ [a]) R) as (extras & -> & _).
      rewrite !elem_of_app. left. right. by apply list_elem_of_singleton.
  - destruct (existsb _ acc); by apply IH.
Qed.

Lemma fieldKeys_inj (R : list SecretField) (r x : SecretField) :
  NoDup (fieldKeys R) -> r ∈ R -> x ∈ R -> sameName r x = true -> r = x.
Proof.
  intros Hnd Hr Hx Hs. apply EqualFold_ToLower in Hs.
  apply list_elem_of_lookup in Hr as [i Hi], Hx as [j Hj].
  assert (i = j) as ->; [|congruence].
  apply (NoDup_lookup (fieldKeys R) i j (strings.ToLower (fieldNameOf r))); [done|..].
  - change (fieldKeys R) with ((fun f => strings.ToLower (fieldNameOf f)) <$> R).
    by rewrite list_lookup_fmap, Hi.
  - change (fieldKeys R) with ((fun f => strings.ToLower (fieldNameOf f)) <$> R).
    rewrite list_lookup_fmap, Hj. simpl. by rewrite Hs.
Qed.

Lemma reorder_complete (D R : list SecretField) (r : SecretField) :
  NoDup (fieldKeys R) -> r ∈ R -> r ∈ reorderFieldsToMatchPlan D R.
Proof.
  intros Hnd Hr.
  destruct (appendUnplanned_complete (matchPlanFields (stateFieldMap R) D) R r Hr)
    as (x & Hx & Hs).
  fold (reorderFieldsToMatchPlan D R) in Hx.
  by rewrite (fieldKeys_inj R r x Hnd Hr (reorder_elem D R x Hx) Hs).
Qed.

Lemma keepUpdateAttachment_FieldName b planFields stateFields f :
  FieldName (keepUpdateAttachment b planFields stateFields f) = FieldName f.
Proof.
  unfold keepUpdateAttachment, keepStateAttachment.
  repeat match goal with
         | |- context [if ?c then _ else _] => destruct c
         | |- context [match ?c with Some _ => _ | None => _ end] => destruct c
         end; reflexivity.
Qed.

Lemma flattenField_FieldName (f : server.SecretField) :
  FieldName (flattenField f) = types.StringValue (server.FieldName f).
Proof.
  unfold flattenField.
  repeat match goal with
         | |- context [if ?c then _ else _] => destruct c
         end; reflexivity.
Qed.

Lemma fieldKeys_flatten (fs : list server.SecretField) :
  fieldKeys (map flattenField fs) = submittedKeys fs.
Proof.
  unfold fieldKeys, submittedKeys. rewrite map_map. apply map_ext.
  intros f. unfold fieldNameOf. by rewrite flattenField_FieldName.
Qed.

Lemma passwordModifier_preserves (req : StringRequest) (v : string) :
  types.ValueString (ConfigValue req) = EmptyString ->
  StateValue req = types.StringValue v -> v <> EmptyString ->
  passwordFieldPlanModifier_PlanModifyString req = types.StringValue v.
Proof.
  intros Hc Hs Hv. unfold passwordFieldPlanModifier_PlanModifyString.
  rewrite Hc, Hs. simpl.
  assert (isEmptyString v = false) as ->.
  { unfold isEmptyString. by apply String.eqb_neq. }
  rewrite andb_false_r. simpl. by rewrite orb_true_r.
Qed.

(** ** Explicitly empty values *)

Lemma preserveStateValue_empty_plan b planFields stateFields f0 pf sf :
  List.find (sameNameFold (server.FieldName f0)) planFields = Some pf ->
  types.ValueString (ItemValue pf) = EmptyString ->
  List.find (sameNameFold (server.FieldName f0)) stateFields = Some sf ->
  preservable b stateFields (server.FieldName f0) = true ->
  server.ItemValue (preserveStateValue b planFields stateFields f0)
  = types.ValueString (ItemValue sf).
Proof.
  unfold preserveStateValue, preservable. intros -> Hv -> ->.
  rewrite Hv. simpl. rewrite orb_true_r. by destruct (_ && _).
Qed.

Lemma preserveStateValue_not_preservable b planFields stateFields f0 :
  preservable b stateFields (server.FieldName f0) = false ->
  preserveStateValue b planFields stateFields f0 = f0.
Proof.
  unfold preserveStateValue, preservable.
  destruct (List.find _ stateFields); by intros ->.
Qed.

(** C2, as amended (update phase).  An explicit empty string is treated
    like null on update.  [passwordFieldPlanModifier] plans the prior
    value for a field declared as the empty string whose prior value is
    non-empty.  In [Update], when the first plan field carrying the
    submitted field's name has an empty value (null, unknown or the empty
    string) and the prior state marks the field for preservation through
    a same-named prior field, the prior field's value is submitted; when
    the prior state does not mark the field for preservation, the plan's
    value is submitted as it is, the empty string included. *)
Theorem explicit_empty_is_preserved_on_update :
  (forall (req : StringRequest) (v : string),
      ConfigValue req = types.StringValue EmptyString ->
      StateValue req = types.StringValue v -> v <> EmptyString ->
      passwordFieldPlanModifier_PlanModifyString req = types.StringValue v)
  /\ (forall (W : Type) (client : Server W) plan state w resp w' s (i : nat) pfi,
      Update (Some client) plan state w = (resp, w') -> calls w = [] ->
      CallUpdateSecret s ∈ calls w' ->
      Fields plan !! i = Some pfi ->
      exists f,
        server.Fields s !! i = Some f
        /\ (forall pf sf,
              List.find (sameNameFold (server.FieldName f)) (Fields plan) = Some pf ->
              types.ValueString (ItemValue pf) = EmptyString ->
              List.find (sameNameFold (server.FieldName f)) (Fields state) = Some sf ->
              preservable (hasSshKeyArgsOf state) (Fields state) (server.FieldName f) = true ->
              server.ItemValue f = types.ValueString (ItemValue sf))
        /\ (preservable (hasSshKeyArgsOf state) (Fields state) (server.FieldName f) = false ->
            server.ItemValue f = types.ValueString (ItemValue pfi))).
Proof.
  split.
  - intros req v Hc Hs Hv. apply passwordModifier_preserves; [|done..]. by rewrite Hc.
  - intros W client plan state w resp w' s i pfi Hrun Hw Hin Hi.
    destruct (Update_submitted client plan state w resp w' s Hrun Hw Hin)
      as (template & fields0 & Hb & Hs).
    destruct (buildSecretFields_lookup _ _ _ Hb) as [_ Hlk].
    destruct (Hlk i pfi Hi) as (f0 & Hf0 & Hbuild).
    apply buildSecretField_ItemValue in Hbuild.
    set (pres := preserveStateValue (hasSshKeyArgsOf state) (Fields plan) (Fields state)) in *.
    exists (pres f0). split; [|split].
    + rewrite Hs. change (map pres fields0) with (pres <$> fields0).
      by rewrite list_lookup_fmap, Hf0.
    + unfold pres. rewrite preserveStateValue_FieldName.
      intros pf sf Hpf Hv Hsf Hp. by apply (preserveStateValue_empty_plan _ _ _ _ pf).
    + unfold pres. rewrite preserveStateValue_FieldName. intros Hp.
      by rewrite preserveStateValue_not_preservable.
Qed.

Lemma explicit_empty_is_preserved_on_update_witness :
  exists f,
    CallUpdateSecret submittedUnchanged
      ∈ calls (snd (Update (Some vaultServer) planEmptyPassword state1 (freshWorld vault1)))
    /\ server.Fields submittedUnchanged !! 1%nat = Some f
    /\ server.ItemValue f = "secret1".
Proof.
  set (run := Update (Some vaultServer) planEmptyPassword state1 (freshWorld vault1)).
  assert (Hin : CallUpdateSecret submittedUnchanged ∈ calls (snd run)).
  { apply list_elem_of_In. vm_compute. right. left. reflexivity. }
  destruct (proj2 explicit_empty_is_preserved_on_update Vault vaultServer
              planEmptyPassword state1 (freshWorld vault1) (fst run) (snd run)
              submittedUnchanged 1%nat
              (declaredField "password" types.Int64Null (types.StringValue EmptyString)))
    as (f & Hf & Hpres & _).
  - apply surjective_pairing.
  - reflexivity.
  - exact Hin.
  - reflexivity.
  - exists f. split; [exact Hin|]. split; [exact Hf|].
    vm_compute in Hf. injection Hf as <-.
    apply (Hpres (declaredField "password" types.Int64Null (types.StringValue EmptyString))
                 (flattenField (remoteField 2 "Password" "password" "secret1" true)));
      reflexivity.
Defined.

(** C2 as the specification states it fails on update: the plan
    declares the password of secret 1 as the empty string, the prior
    state holds "secret1"; [Update] submits "secret1", and the state
    read back holds "secret1".  The modifier, too, plans "secret1" for a
    field whose configuration is the empty string. *)
Lemma explicit_empty_counterexample :
  (ItemValue <$> Fields planEmptyPassword !! 1%nat) = Some (types.StringValue EmptyString)
  /\ (ItemValue <$> Fields state1 !! 1%nat) = Some (types.StringValue "secret1")
  /\ calls (snd (Update (Some vaultServer) planEmptyPassword state1 (freshWorld vault1)))
     = [CallSecretTemplate 6001; CallUpdateSecret submittedUnchanged; CallSecret 1]
  /\ (server.ItemValue <$> server.Fields submittedUnchanged !! 1%nat) = Some "secret1"
  /\ (State (fst (Update (Some vaultServer) planEmptyPassword state1 (freshWorld vault1)))
        ≫= fun st => ItemValue <$> Fields st !! 1%nat)
     = Some (types.StringValue "secret1")
  /\ passwordFieldPlanModifier_PlanModifyString
       (updateRequest (types.StringValue EmptyString) (types.StringValue "secret1")
                      (types.StringValue EmptyString))
     = types.StringValue "secret1".
Proof. repeat split. Qed.

(** The create phase: for a password field declared as the empty
    string, [Create] asks the remote store for a generated password and
    submits it. *)
Lemma Create_explicit_empty_generates :
  (ItemValue <$> Fields planEmptyPassword !! 1%nat) = Some (types.StringValue EmptyString)
  /\ CallGeneratePassword "password" accountTemplate
       ∈ calls (snd (Create (Some vaultServer) planEmptyPassword (freshWorld vault1)))
  /\ (State (fst (Create (Some vaultServer) planEmptyPassword (freshWorld vault1)))
        ≫= fun st => ItemValue <$> Fields st !! 1%nat)
     = Some (types.StringValue "generated-by-vault").
Proof.
  split; [reflexivity|]. split; [|reflexivity].
  apply list_elem_of_In. vm_compute. right. right. left. reflexivity.
Qed.

(** ** The ephemeral lease *)

Section Lease.

Context {W : Type}.
Implicit Types (client : Server W) (w : World W).

Lemma renewLoop_openLoop client field ids results diags w :
  renewLoop client (types.ValueString field) ids results diags w
  = openLoop client field ids results diags w.
Proof.
  revert results diags w. induction ids as [|id ids IH]; intros results diags w;
    simpl; [done|].
  unfold_M. unfold Secret. unfold_M.
  destruct (doSecret client (types.ValueInt64 id) (remote w)) as [[err|secret] r];
    [apply IH|].
  destruct (secretField client secret (types.ValueString field)); apply IH.
Qed.

(** The loop, accumulator by accumulator, in terms of the per-id
    outcomes. *)
Lemma openLoop_outcomes client field ids results diags w :
  openLoop client field ids results diags w
  = let '(outs, r) := fetchOutcomes client (types.ValueString field) ids (remote w) in
    ((results ++ omap outcomeResult outs,
      diags ++ omap (outcomeDiagnostic (types.ValueString field)) outs),
     {| remote := r; calls := calls w ++ fetchCalls ids |}).
Proof.
  revert results diags w. induction ids as [|id ids IH]; intros results diags w; simpl.
  - unfold_M. rewrite !app_nil_r. by destruct w.
  - unfold_M. unfold Secret. unfold_M.
    destruct (doSecret client (types.ValueInt64 id) (remote w)) as [[err|secret] r1].
    + rewrite IH. simpl.
      destruct (fetchOutcomes client _ ids r1) as [outs r2]. simpl.
      unfold AddWarning. by rewrite <- !app_assoc.
    + destruct (secretField client secret (types.ValueString field)) as [value|] eqn:Ef.
      * rewrite IH. simpl.
        destruct (fetchOutcomes client _ ids r1) as [outs r2]. simpl.
        rewrite Ef. simpl. by rewrite <- !app_assoc.
      * rewrite IH. simpl.
        destruct (fetchOutcomes client _ ids r1) as [outs r2]. simpl.
        rewrite Ef. simpl. unfold AddError. by rewrite <- !app_assoc.
Qed.

Lemma Open_valid client data now w :
  IDs data <> [] -> Field data <> types.StringNull ->
  Open (Some client) data now w
  = let '(outs, r) :=
      fetchOutcomes client (types.ValueString (Field data)) (IDs data) (remote w) in
    let results := omap outcomeResult outs in
    ({| Result := Some {| IDs := IDs data; Field := Field data; Secrets := results |};
        RenewAt := Some (now + 5 * Minute);
        Private := Some {| PrivateIDs := IDs data;
                           PrivateField := types.ValueString (Field data);
                           PrivateSecrets := results |};
        OpenDiagnostics := omap (outcomeDiagnostic (types.ValueString (Field data))) outs |},
     {| remote := r; calls := calls w ++ fetchCalls (IDs data) |}).
Proof.
  intros Hids Hfield. unfold Open.
  assert ((length (IDs data) =? 0)%nat || types.IsNull (Field data) = false) as ->.
  { destruct (IDs data); [done|]. destruct (Field data); done. }
  unfold_M. rewrite openLoop_outcomes.
  by destruct (fetchOutcomes client _ (IDs data) (remote w)) as [outs r].
Qed.

Lemma Renew_valid client privateData now w :
  PrivateIDs privateData <> [] -> PrivateField privateData <> EmptyString ->
  Renew client (Some (inr privateData)) now w
  = let '(outs, r) :=
      fetchOutcomes client (PrivateField privateData) (PrivateIDs privateData) (remote w) in
    let results := omap outcomeResult outs in
    ({| RenewRenewAt := Some (now + 5 * Minute);
        RenewPrivate := Some {| PrivateIDs := PrivateIDs privateData;
                                PrivateField := PrivateField privateData;
                                PrivateSecrets := results |};
        RenewDiagnostics := omap (outcomeDiagnostic (PrivateField privateData)) outs |},
     {| remote := r; calls := calls w ++ fetchCalls (PrivateIDs privateData) |}).
Proof.
  intros Hids Hfield. unfold Renew.
  assert ((length (PrivateIDs privateData) =? 0)%nat
          || isEmptyString (PrivateField privateData) = false) as ->.
  { destruct (PrivateIDs privateData); [done|]. simpl.
    unfold isEmptyString. by apply String.eqb_neq. }
  unfold_M.
  rewrite (renewLoop_openLoop client (types.StringValue (PrivateField privateData))).
  rewrite openLoop_outcomes. simpl.
  by destruct (fetchOutcomes client _ (PrivateIDs privateData) (remote w)) as [outs r].
Qed.

End Lease.

Lemma outcome_diagnostics_HasError (fieldName : string) (outs : list Outcome) :
  HasError (omap (outcomeDiagnostic fieldName) outs) = existsb isFieldMissing outs.
Proof.
  unfold HasError. induction outs as [|[id err|id|id v] outs IH]; simpl; done.
Qed.

Lemma outcome_diagnostics_Warnings (fieldName : string) (outs : list Outcome) :
  length (Warnings (omap (outcomeDiagnostic fieldName) outs))
  = length (List.filter isFetchFailed outs).
Proof.
  unfold Warnings. induction outs as [|[id err|id|id v] outs IH]; [done|..].
  - cbn. by rewrite <- IH.
  - cbn. exact IH.
  - cbn. exact IH.
Qed.

Lemma fetchOutcomes_length {W : Type} (client : Server W) fieldName ids (r : W) :
  length (fst (fetchOutcomes client fieldName ids r)) = length ids.
Proof.
  revert r. induction ids as [|id ids IH]; intros r; simpl; [done|].
  destruct (doSecret client (types.ValueInt64 id) r) as [fetched r1].
  specialize (IH r1). destruct (fetchOutcomes client fieldName ids r1). simpl in *.
  by rewrite IH.
Qed.

(** C7.  [Open] over a non-empty list of ids with a non-null field name
    fetches every id of the list, in order, whatever the earlier fetches
    gave.  An id whose fetch fails contributes one warning and no result
    entry; an id whose secret holds the field contributes its result
    entry; an id whose secret lacks the field contributes an error
    diagnostic, so the response of the whole batch carries an error
    exactly when some fetched secret lacks the field, and fetch failures
    alone never produce one. *)
Theorem open_partial_fetch (W : Type) (client : Server W)
    (data : TSSSecretsEphemeralResourceModel) (now : Z) (w : World W) :
  IDs data <> [] -> Field data <> types.StringNull ->
  exists outs r resp w',
    fetchOutcomes client (types.ValueString (Field data)) (IDs data) (remote w) = (outs, r)
    /\ Open (Some client) data now w = (resp, w')
    /\ length outs = length (IDs data)
    /\ calls w' = calls w ++ fetchCalls (IDs data)
    /\ (Secrets <$> Result resp) = Some (omap outcomeResult outs)
    /\ OpenDiagnostics resp = omap (outcomeDiagnostic (types.ValueString (Field data))) outs
    /\ length (Warnings (OpenDiagnostics resp)) = length (List.filter isFetchFailed outs)
    /\ HasError (OpenDiagnostics resp) = existsb isFieldMissing outs.
Proof.
  intros Hids Hfield.
  pose proof (fetchOutcomes_length client (types.ValueString (Field data)) (IDs data)
                (remote w)) as Hlen.
  rewrite (Open_valid client data now w Hids Hfield).
  destruct (fetchOutcomes client _ (IDs data) (remote w)) as [outs r].
  eexists outs, r, _, _. split; [reflexivity|]. split; [reflexivity|].
  simpl. repeat split; try done.
  - apply outcome_diagnostics_Warnings.
  - apply outcome_diagnostics_HasError.
Qed.

Lemma open_partial_fetch_witness :
  IDs openOneTwo <> [] /\ Field openOneTwo <> types.StringNull
  /\ exists outs r resp w',
       fetchOutcomes vaultServer "password" (IDs openOneTwo) vault1 = (outs, r)
       /\ Open (Some vaultServer) openOneTwo 0 (freshWorld vault1) = (resp, w')
       /\ length outs = 2%nat
       /\ calls w' = [CallSecret 1; CallSecret 2]
       /\ (Secrets <$> Result resp) = Some (omap outcomeResult outs).
Proof.
  assert (H1 : IDs openOneTwo <> []) by discriminate.
  assert (H2 : Field openOneTwo <> types.StringNull) by discriminate.
  split; [exact H1|]. split; [exact H2|].
  destruct (open_partial_fetch Vault vaultServer openOneTwo 0 (freshWorld vault1) H1 H2)
    as (outs & r & resp & w' & Ho & Hopen & Hlen & Hcalls & Hres & _).
  exists outs, r, resp, w'. repeat split; assumption.
Defined.

(** The scenario of the specification: ids 1 and 2, the fetch of id 2
    fails; the result holds the value of id 1 only, one warning is
    recorded and there is no error. *)
Example open_one_of_two :
  let resp := fst (Open (Some vaultServer) openOneTwo 0 (freshWorld vault1)) in
  (Secrets <$> Result resp)
  = Some [{| SecretID := types.Int64Value 1; Value := types.StringValue "secret1" |}]
  /\ length (Warnings (OpenDiagnostics resp)) = 1%nat
  /\ HasError (OpenDiagnostics resp) = false.
Proof. repeat split. Qed.

(** C8, as amended.  For a carry-state whose ids are non-empty and whose
    field name is not the empty string, [Renew] run against a remote
    world gives what a fresh [Open] on the same ids and field name gives
    against that world: the same remote calls and final world, the same
    diagnostics, the same result set (which [Renew] keeps in the
    carry-state, having no result of its own), the same carry-state, and
    a deadline five minutes after the current instant. *)
Theorem renew_repeats_open (W : Type) (client : Server W)
    (privateData : TSSSecretsPrivateData) (data : TSSSecretsEphemeralResourceModel)
    (now : Z) (w : World W) :
  PrivateIDs privateData <> [] -> PrivateField privateData <> EmptyString ->
  IDs data = PrivateIDs privateData ->
  Field data = types.StringValue (PrivateField privateData) ->
  exists opened renewed w',
    Open (Some client) data now w = (opened, w')
    /\ Renew client (Some (inr privateData)) now w = (renewed, w')
    /\ RenewDiagnostics renewed = OpenDiagnostics opened
    /\ RenewPrivate renewed = Private opened
    /\ (PrivateSecrets <$> RenewPrivate renewed) = (Secrets <$> Result opened)
    /\ (PrivateIDs <$> RenewPrivate renewed) = Some (PrivateIDs privateData)
    /\ (PrivateField <$> RenewPrivate renewed) = Some (PrivateField privateData)
    /\ RenewRenewAt renewed = Some (now + 5 * Minute)
    /\ RenewAt opened = Some (now + 5 * Minute).
Proof.
  intros Hids Hfield Hdi Hdf.
  rewrite (Renew_valid client privateData now w Hids Hfield).
  rewrite (Open_valid client data now w); [|by rewrite Hdi | by rewrite Hdf].
  rewrite Hdi, Hdf. simpl.
  destruct (fetchOutcomes client _ (PrivateIDs privateData) (remote w)) as [outs r].
  eexists _, _, _. split; [reflexivity|]. split; [reflexivity|]. by repeat split.
Qed.

Lemma renew_repeats_open_witness :
  PrivateIDs carryOneTwo <> [] /\ PrivateField carryOneTwo <> EmptyString
  /\ exists opened renewed w',
       Open (Some vaultServer) openOneTwo 0 (freshWorld vault1) = (opened, w')
       /\ Renew vaultServer (Some (inr carryOneTwo)) 0 (freshWorld vault1) = (renewed, w')
       /\ RenewDiagnostics renewed = OpenDiagnostics opened
       /\ RenewPrivate renewed = Private opened.
Proof.
  assert (H1 : PrivateIDs carryOneTwo <> []) by discriminate.
  assert (H2 : PrivateField carryOneTwo <> EmptyString) by discriminate.
  split; [exact H1|]. split; [exact H2|].
  destruct (renew_repeats_open Vault vaultServer carryOneTwo openOneTwo 0
              (freshWorld vault1) H1 H2 eq_refl eq_refl)
    as (opened & renewed & w' & Ho & Hr & Hd & Hp & _).
  exists opened, renewed, w'. repeat split; assumption.
Defined.

(** C8 as the specification states it, for every carry-state, fails on
    a carry-state with an empty field name: a fresh [Open] on ids [2]
    and the field name "" passes its guard (the name is not null),
    fetches id 2 and ends with a warning, a deadline and this very
    carry-state; [Renew] rejects the carry-state without a fetch. *)
Lemma renew_empty_field_counterexample :
  let opened := Open (Some vaultServer) (configOf carryEmptyField) 0 (freshWorld vault1) in
  let renewed := Renew vaultServer (Some (inr carryEmptyField)) 0 (freshWorld vault1) in
  calls (snd opened) = [CallSecret 2]
  /\ Private (fst opened) = Some carryEmptyField
  /\ HasError (OpenDiagnostics (fst opened)) = false
  /\ RenewAt (fst opened) = Some (5 * Minute)
  /\ calls (snd renewed) = []
  /\ RenewDiagnostics (fst renewed)
     = [NewErrorDiagnostic "Missing Private Data Fields"
          "Secret ID and field are required." []]
  /\ RenewRenewAt (fst renewed) = None.
Proof. repeat split. Qed.

(** C10.  With a configured provider, [Open] on an empty list of ids or
    a null field name returns the "Missing Required Field" error and
    leaves the remote world and the call log as they were; without a
    configured provider it fails even earlier, again without a fetch.
    [Renew] on a carry-state whose ids are empty or whose field name is
    the empty string returns the "Missing Private Data Fields" error,
    likewise without a fetch. *)
Theorem incomplete_inputs_rejected_before_fetch :
  (forall (W : Type) (client : Server W) data now (w : World W),
      IDs data = [] \/ Field data = types.StringNull ->
      Open (Some client) data now w
      = ({| Result := None; RenewAt := None; Private := None;
            OpenDiagnostics :=
              [NewErrorDiagnostic "Missing Required Field"
                 "Both secret_ids and field are required" []] |}, w))
  /\ (forall (W : Type) (client : option (Server W)) data now (w : World W),
      IDs data = [] \/ Field data = types.StringNull ->
      exists resp, Open client data now w = (resp, w)
                   /\ HasError (OpenDiagnostics resp) = true /\ Result resp = None)
  /\ (forall (W : Type) (client : Server W) privateData now (w : World W),
      PrivateIDs privateData = [] \/ PrivateField privateData = EmptyString ->
      Renew client (Some (inr privateData)) now w
      = ({| RenewRenewAt := None; RenewPrivate := None;
            RenewDiagnostics :=
              [NewErrorDiagnostic "Missing Private Data Fields"
                 "Secret ID and field are required." []] |}, w)).
Proof.
  assert (Hguard : forall data, IDs data = [] \/ Field data = types.StringNull ->
            (length (IDs data) =? 0)%nat || types.IsNull (Field data) = true).
  { intros data [-> | ->]; [done|]. apply orb_true_r. }
  split; [|split].
  - intros W client data now w H. unfold Open. by rewrite (Hguard data H).
  - intros W [client|] data now w H; unfold Open.
    + rewrite (Hguard data H). by eexists.
    + by eexists.
  - intros W client privateData now w H. unfold Renew.
    assert ((length (PrivateIDs privateData) =? 0)%nat
            || isEmptyString (PrivateField privateData) = true) as ->; [|done].
    destruct H as [-> | ->]; [done|]. apply orb_true_r.
Qed.

Lemma incomplete_inputs_rejected_before_fetch_witness :
  (IDs (configOf carryEmptyField) = []
   \/ Field {| IDs := []; Field := types.StringNull; Secrets := [] |} = types.StringNull)
  /\ calls (snd (Open (Some vaultServer)
                      {| IDs := []; Field := types.StringNull; Secrets := [] |}
                      0 (freshWorld vault1))) = []
  /\ (PrivateIDs carryEmptyField = [] \/ PrivateField carryEmptyField = EmptyString)
  /\ calls (snd (Renew vaultServer (Some (inr carryEmptyField)) 0 (freshWorld vault1))) = [].
Proof.
  destruct incomplete_inputs_rejected_before_fetch as (Hopen & _ & Hrenew).
  split; [by right|]. split.
  - by rewrite (Hopen Vault vaultServer
                  {| IDs := []; Field := types.StringNull; Secrets := [] |}
                  0 (freshWorld vault1) (or_intror eq_refl)).
  - split; [by right|].
    by rewrite (Hrenew Vault vaultServer carryEmptyField 0 (freshWorld vault1)
                  (or_intror eq_refl)).
Defined.




(** * Further properties of the code *)

(** ** The field reconciler, continued *)

Lemma appendUnplanned_fresh (acc R : list SecretField) :
  exists E,
    appendUnplanned acc R = acc ++ E
    /\ freshAgainst acc E
    /\ forall x, x ∈ E -> x ∈ R.
Proof.
  revert acc. induction R as [|r R IH]; intros acc; simpl.
  - exists []. rewrite app_nil_r. repeat split. by intros x ?%elem_of_nil.
  - destruct (existsb _ acc) eqn:Ex.
    + destruct (IH acc) as (E & HE & Hf & Hin). exists E. repeat split; [done..|].
      intros x Hx. apply elem_of_cons. right. by apply Hin.
    + destruct (IH (acc ++ [r])) as (E & HE & Hf & Hin).
      exists (r :: E). split; [by rewrite HE, <- app_assoc|]. split.
      * simpl. split; [|done]. intros a Ha.
        destruct (sameName r a) eqn:Hra; [|done].
        assert (existsb (fun reorderedField =>
                  strings.EqualFold (fieldNameOf r) (fieldNameOf reorderedField)) acc = true)
          as Hex; [|congruence].
        apply existsb_exists. exists a. split; [by apply list_elem_of_In|done].
      * intros x [->|Hx]%elem_of_cons; apply elem_of_cons; [by left|right; by apply Hin].
Qed.

Lemma appendUnplanned_of_fresh (acc E : list SecretField) :
  freshAgainst acc E -> appendUnplanned acc E = acc ++ E.
Proof.
  revert acc. induction E as [|x E IH]; intros acc; simpl; [by rewrite app_nil_r|].
  intros [Hx Hf].
  assert (existsb (fun reorderedField =>
            strings.EqualFold (fieldNameOf x) (fieldNameOf reorderedField)) acc = false) as ->.
  { apply not_true_is_false. intros (a & Ha & Hs)%existsb_exists.
    apply list_elem_of_In in Ha. unfold sameName in Hx. by rewrite (Hx a Ha) in Hs. }
  rewrite (IH _ Hf). by rewrite <- app_assoc.
Qed.

Lemma appendUnplanned_all_found (acc L : list SecretField) :
  (forall x, x ∈ L -> exists a, a ∈ acc /\ sameName x a = true) ->
  appendUnplanned acc L = acc.
Proof.
  induction L as [|x L IH]; simpl; [done|]. intros H.
  assert (existsb (fun reorderedField =>
            strings.EqualFold (fieldNameOf x) (fieldNameOf reorderedField)) acc = true) as ->.
  { destruct (H x) as (a & Ha & Hs); [apply elem_of_cons; by left|].
    apply existsb_exists. exists a. split; [by apply list_elem_of_In|done]. }
  apply IH. intros y Hy. apply H, elem_of_cons. by right.
Qed.

Lemma appendUnplanned_app (acc L1 L2 : list SecretField) :
  appendUnplanned acc (L1 ++ L2) = appendUnplanned (appendUnplanned acc L1) L2.
Proof.
  revert acc. induction L1 as [|x L1 IH]; intros acc; simpl; [done|].
  destruct (existsb _ acc); apply IH.
Qed.

Lemma matchPlanFields_ext (m m' : gmap string SecretField) (D : list SecretField) :
  (forall p, p ∈ D -> m !! fieldKey p = m' !! fieldKey p) ->
  matchPlanFields m D = matchPlanFields m' D.
Proof.
  induction D as [|p D IH]; simpl; [done|]. intros H.
  fold (fieldKey p). rewrite <- (H p) by (apply elem_of_cons; by left).
  rewrite IH; [done|]. intros q Hq. apply H, elem_of_cons. by right.
Qed.

Lemma matchPlanFields_length (m : gmap string SecretField) (D : list SecretField) :
  (length (matchPlanFields m D) <= length D)%nat.
Proof.
  induction D as [|p D IH]; simpl; [done|].
  destruct (m !! _); simpl; lia.
Qed.

Lemma freshAgainst_elem (acc E : list SecretField) x a :
  freshAgainst acc E -> x ∈ E -> a ∈ acc -> sameName x a = false.
Proof.
  revert acc. induction E as [|y E IH]; intros acc; simpl; [by intros _ ?%elem_of_nil|].
  intros [Hy Hf] [->|Hx]%elem_of_cons Ha; [by apply Hy|].
  apply (IH (acc ++ [y])); [done..|]. apply elem_of_app. by left.
Qed.

Lemma distinctNames_fresh (acc R : list SecretField) :
  distinctNames acc R = true <-> freshAgainst acc R.
Proof.
  revert acc. induction R as [|r R IH]; intros acc; simpl; [done|].
  rewrite andb_true_iff, IH, negb_true_iff. split; intros [Hr Hf]; (split; [|done]).
  - intros a Ha. destruct (sameName r a) eqn:E; [|done].
    assert (existsb (sameName r) acc = true) as Hex; [|congruence].
    apply existsb_exists. exists a. split; [by apply list_elem_of_In|done].
  - apply not_true_is_false. intros (a & Ha & Hs)%existsb_exists.
    apply list_elem_of_In in Ha. by rewrite (Hr a Ha) in Hs.
Qed.

Lemma sameKeySameName_spec (R : list SecretField) :
  sameKeySameName R = true ->
  forall r r', r ∈ R -> r' ∈ R -> fieldKey r = fieldKey r' -> sameName r r' = true.
Proof.
  unfold sameKeySameName. intros H r r' Hr Hr' Hk.
  rewrite forallb_forall in H. apply list_elem_of_In in Hr, Hr'.
  specialize (H r Hr). rewrite forallb_forall in H. specialize (H r' Hr').
  rewrite Hk, String.eqb_refl in H. exact H.
Qed.

(** X1.  Reconciling is idempotent when the remote fields that share a
    lower-cased name, the key of the map of lines 840-843, also share
    their name under case folding, the test of lines 865-870 (as they do
    for names of ASCII bytes): reconciling the result of a reconciliation
    against the same desired sequence then changes nothing, whatever the
    desired sequence is.  The proof uses nothing else of the two
    library functions but that a name folds to itself. *)
Theorem reorder_idempotent (D R : list SecretField) :
  sameKeySameName R = true ->
  reorderFieldsToMatchPlan D (reorderFieldsToMatchPlan D R)
  = reorderFieldsToMatchPlan D R.
Proof.
  intros Hkeys. pose proof (sameKeySameName_spec R Hkeys) as Hsame. clear Hkeys.
  unfold reorderFieldsToMatchPlan at 2 3.
  set (M := matchPlanFields (stateFieldMap R) D).
  destruct (appendUnplanned_fresh M R) as (E & -> & Hfresh & HER).
  assert (HM : forall x, x ∈ M -> x ∈ R) by (intros x; apply matchPlanFields_elem).
  assert (Hlookup : forall p, p ∈ D ->
            stateFieldMap (M ++ E) !! fieldKey p = stateFieldMap R !! fieldKey p).
  { intros p Hp. destruct (stateFieldMap R !! fieldKey p) as [f|] eqn:Ef.
    - assert (HfM : f ∈ M) by (apply matchPlanFields_elem_of; by exists p).
      destruct (fold_lookup_is_Some ∅ (M ++ E) (fieldKey p)) as [g Hg].
      { left. exists f. split; [apply elem_of_app; by left|].
        by apply stateFieldMap_Some in Ef as [_ ?]. }
      change (stateFieldMap (M ++ E) !! fieldKey p = Some g) in Hg.
      rewrite Hg. f_equal.
      apply stateFieldMap_Some in Hg as [[Hg|Hg]%elem_of_app Hk].
      + apply matchPlanFields_elem_of in Hg as (q & Hq & Hmq).
        apply stateFieldMap_Some in Hmq as Hq'. destruct Hq' as [_ Hkq].
        rewrite <- Hkq, Hk in Hmq. congruence.
      + exfalso. apply stateFieldMap_Some in Ef as [_ Hkf].
        assert (sameName g f = true) as Hs.
        { apply Hsame; [by apply HER|by apply HM|congruence]. }
        by rewrite (freshAgainst_elem M E g f Hfresh Hg HfM) in Hs.
    - destruct (stateFieldMap (M ++ E) !! fieldKey p) as [g|] eqn:Eg; [|done].
      exfalso. apply stateFieldMap_Some in Eg as [Hg Hk].
      assert (g ∈ R) as HgR by (apply elem_of_app in Hg as [?|?]; auto).
      destruct (fold_lookup_is_Some ∅ R (fieldKey p)) as [h Hh].
      { left. by exists g. }
      change (stateFieldMap R !! fieldKey p = Some h) in Hh. congruence. }
  unfold reorderFieldsToMatchPlan.
  rewrite (matchPlanFields_ext _ _ D Hlookup). fold M.
  rewrite appendUnplanned_app.
  rewrite (appendUnplanned_all_found M M).
  - by apply appendUnplanned_of_fresh.
  - intros x Hx. exists x. split; [done|apply EqualFold_refl].
Qed.

(** Two remote fields of one name up to case: the first reconciliation
    keeps the second of them, and so does the next. *)
Lemma reorder_idempotent_witness :
  reorderFieldsToMatchPlan planUsername
    (reorderFieldsToMatchPlan planUsername remoteTwoUsernames)
  = reorderFieldsToMatchPlan planUsername remoteTwoUsernames.
Proof. exact (reorder_idempotent planUsername remoteTwoUsernames eq_refl). Defined.

(** X2.  Reconciling neither invents nor loses a remote field name:
    every entry of the result is an entry of the remote sequence, every
    remote entry has a same-named entry in the result, and the result is
    no longer than the two sequences together. *)
Theorem reorder_keeps_remote_names (D R : list SecretField) :
  (forall x, x ∈ reorderFieldsToMatchPlan D R -> x ∈ R)
  /\ (forall r, r ∈ R ->
        exists x, x ∈ reorderFieldsToMatchPlan D R /\ sameName r x = true)
  /\ (length (reorderFieldsToMatchPlan D R) <= length D + length R)%nat.
Proof.
  split; [|split].
  - intros x. apply reorder_elem.
  - intros r Hr. by apply appendUnplanned_complete.
  - unfold reorderFieldsToMatchPlan.
    destruct (appendUnplanned_spec (matchPlanFields (stateFieldMap R) D) R)
      as (extras & -> & Hsub & _).
    rewrite length_app. apply sublist_length in Hsub.
    pose proof (matchPlanFields_length (stateFieldMap R) D). lia.
Qed.

Lemma reorder_nil_plan R :
  distinctNames [] R = true -> reorderFieldsToMatchPlan [] R = R.
Proof.
  intros Hd%distinctNames_fresh. unfold reorderFieldsToMatchPlan. simpl.
  by apply (appendUnplanned_of_fresh [] R).
Qed.

(** X3.  Two edge cases of reconciling: against an empty remote
    sequence the result is empty, every desired field being dropped;
    with an empty desired sequence, as after an import, the result is the
    remote sequence itself exactly when no remote field has, under
    [strings.EqualFold], the name of an earlier one; otherwise the later
    field is missing from the result. *)
Theorem reorder_empty_sides :
  (forall D, reorderFieldsToMatchPlan D [] = [])
  /\ (forall R, reorderFieldsToMatchPlan [] R = R <-> distinctNames [] R = true).
Proof.
  split.
  - intros D. unfold reorderFieldsToMatchPlan.
    change (stateFieldMap []) with (∅ : gmap string SecretField). simpl.
    induction D as [|p D IH]; simpl; [done|]. by rewrite lookup_empty.
  - intros R. split; [|apply reorder_nil_plan].
    unfold reorderFieldsToMatchPlan. simpl.
    destruct (appendUnplanned_fresh [] R) as (E & -> & Hfresh & _). simpl.
    intros ->. by apply distinctNames_fresh.
Qed.

Lemma reorder_empty_sides_witness :
  distinctNames [] remoteUsernamePassword = true
  /\ reorderFieldsToMatchPlan [] remoteUsernamePassword = remoteUsernamePassword.
Proof.
  split; [reflexivity|].
  exact (proj2 (proj2 reorder_empty_sides remoteUsernamePassword) eq_refl).
Defined.

(** ** Identifiers written by [flattenSecret] and parsed by the callbacks *)

Lemma parse_digits_cons (c : ascii) (s : string) (acc d : Z) :
  strconv.digit_of c = Some d ->
  strconv.parse_digits (String c s) acc
  = if strconv.cutoff <=? acc then strconv.Overflow
    else if strconv.uint64_max <? 10 * acc + d then strconv.Overflow
         else strconv.parse_digits s (10 * acc + d).
Proof. intros H. simpl. by rewrite H. Qed.

Lemma uint64_max_value : strconv.uint64_max = 18446744073709551615.
Proof. reflexivity. Qed.

Lemma cutoff_value : strconv.cutoff = 1844674407370955162.
Proof. reflexivity. Qed.

Lemma of_uint_acc_ge (d : Decimal.uint) (acc : positive) :
  Z.pos acc <= Z.pos (Pos.of_uint_acc d acc).
Proof.
  revert acc. induction d as [|d IH|d IH|d IH|d IH|d IH|d IH|d IH|d IH|d IH|d IH];
    intros acc; cbn [Pos.of_uint_acc]; [lia|..];
    (etransitivity; [|apply IH]); lia.
Qed.

Lemma parse_digits_step (c : ascii) (rest : Decimal.uint) (acc acc' : positive) (k : Z) :
  strconv.digit_of c = Some k -> Z.pos acc' = 10 * Z.pos acc + k ->
  (forall a, Z.pos a <= strconv.uint64_max ->
      strconv.parse_digits (NilEmpty.string_of_uint rest) (Z.pos a)
      = scanned (Z.pos (Pos.of_uint_acc rest a))) ->
  strconv.parse_digits (String c (NilEmpty.string_of_uint rest)) (Z.pos acc)
  = scanned (Z.pos (Pos.of_uint_acc rest acc')).
Proof.
  intros Hc Hacc IH. rewrite (parse_digits_cons c _ _ k Hc).
  pose proof (of_uint_acc_ge rest acc') as Hge.
  assert (Hk : 0 <= k <= 9).
  { unfold strconv.digit_of in Hc. destruct (_ && _) eqn:E; [|done].
    injection Hc as <-. apply andb_prop in E as [E1 E2].
    apply Nat.leb_le in E1, E2. lia. }
  unfold scanned in *. rewrite uint64_max_value, cutoff_value in *.
  destruct (Z.leb_spec 1844674407370955162 (Z.pos acc)).
  { destruct (Z.leb_spec (Z.pos (Pos.of_uint_acc rest acc')) 18446744073709551615);
      [lia|done]. }
  destruct (Z.ltb_spec 18446744073709551615 (10 * Z.pos acc + k)).
  { destruct (Z.leb_spec (Z.pos (Pos.of_uint_acc rest acc')) 18446744073709551615);
      [lia|done]. }
  rewrite <- Hacc. apply IH. lia.
Qed.

Lemma parse_digits_of_uint_acc (d : Decimal.uint) (acc : positive) :
  Z.pos acc <= strconv.uint64_max ->
  strconv.parse_digits (NilEmpty.string_of_uint d) (Z.pos acc)
  = scanned (Z.pos (Pos.of_uint_acc d acc)).
Proof.
  revert acc. induction d as [|d IH|d IH|d IH|d IH|d IH|d IH|d IH|d IH|d IH|d IH];
    intros acc Hacc; cbn [NilEmpty.string_of_uint Pos.of_uint_acc].
  - simpl. unfold scanned. by destruct (Z.leb_spec (Z.pos acc) strconv.uint64_max); [|lia].
  - apply (parse_digits_step "0" d acc _ 0 eq_refl); [lia|apply IH].
  - apply (parse_digits_step "1" d acc _ 1 eq_refl); [lia|apply IH].
  - apply (parse_digits_step "2" d acc _ 2 eq_refl); [lia|apply IH].
  - apply (parse_digits_step "3" d acc _ 3 eq_refl); [lia|apply IH].
  - apply (parse_digits_step "4" d acc _ 4 eq_refl); [lia|apply IH].
  - apply (parse_digits_step "5" d acc _ 5 eq_refl); [lia|apply IH].
  - apply (parse_digits_step "6" d acc _ 6 eq_refl); [lia|apply IH].
  - apply (parse_digits_step "7" d acc _ 7 eq_refl); [lia|apply IH].
  - apply (parse_digits_step "8" d acc _ 8 eq_refl); [lia|apply IH].
  - apply (parse_digits_step "9" d acc _ 9 eq_refl); [lia|apply IH].
Qed.

Lemma parse_digits_of_uint (d : Decimal.uint) :
  strconv.parse_digits (NilEmpty.string_of_uint d) 0 = scanned (Z.of_N (Pos.of_uint d)).
Proof.
  assert (Hsmall : forall k : positive, (k <= 9)%positive -> Z.pos k <= strconv.uint64_max).
  { intros k Hk. rewrite uint64_max_value. lia. }
  induction d as [|d IH|d IH|d IH|d IH|d IH|d IH|d IH|d IH|d IH|d IH];
    [reflexivity|..]; cbn [NilEmpty.string_of_uint Pos.of_uint].
  - by rewrite (parse_digits_cons "0" _ _ 0 eq_refl).
  - rewrite (parse_digits_cons "1" _ _ 1 eq_refl). by apply (parse_digits_of_uint_acc d 1).
  - rewrite (parse_digits_cons "2" _ _ 2 eq_refl). by apply (parse_digits_of_uint_acc d 2).
  - rewrite (parse_digits_cons "3" _ _ 3 eq_refl). by apply (parse_digits_of_uint_acc d 3).
  - rewrite (parse_digits_cons "4" _ _ 4 eq_refl). by apply (parse_digits_of_uint_acc d 4).
  - rewrite (parse_digits_cons "5" _ _ 5 eq_refl). by apply (parse_digits_of_uint_acc d 5).
  - rewrite (parse_digits_cons "6" _ _ 6 eq_refl). by apply (parse_digits_of_uint_acc d 6).
  - rewrite (parse_digits_cons "7" _ _ 7 eq_refl). by apply (parse_digits_of_uint_acc d 7).
  - rewrite (parse_digits_cons "8" _ _ 8 eq_refl). by apply (parse_digits_of_uint_acc d 8).
  - rewrite (parse_digits_cons "9" _ _ 9 eq_refl). by apply (parse_digits_of_uint_acc d 9).
Qed.

(** The decimal string of a positive number: not empty, no sign in
    front, and scanned back to the number. *)
Lemma string_of_pos (p : positive) :
  exists c rest,
    NilZero.string_of_uint (Pos.to_uint p) = String c rest
    /\ Ascii.eqb c "-"%char = false /\ Ascii.eqb c "+"%char = false
    /\ strconv.parse_unsigned (String c rest) = scanned (Z.pos p).
Proof.
  pose proof (DecimalPos.Unsigned.to_uint_nonnil p) as Hnil.
  pose proof (parse_digits_of_uint (Pos.to_uint p)) as Hparse.
  rewrite DecimalPos.Unsigned.of_to in Hparse. simpl in Hparse.
  destruct (Pos.to_uint p) as [|d|d|d|d|d|d|d|d|d|d]; [done|..];
    eexists _, _; (split; [reflexivity|]); repeat split; exact Hparse.
Qed.

Lemma in_range_id (z : Z) :
  strconv.int_min <= z <= strconv.int_max -> strconv.in_range z = (z, None).
Proof.
  intros [Hlo Hhi]. unfold strconv.in_range.
  destruct (Z.ltb_spec z strconv.int_min); [lia|].
  destruct (Z.ltb_spec strconv.int_max z); [lia|done].
Qed.

(** [Atoi] on the string [Itoa] writes: the number within the 64-bit
    [int], the nearest bound and a range error outside it. *)
Lemma Atoi_Itoa_in_range (z : Z) :
  strconv.Atoi (strconv.Itoa z) = strconv.in_range z.
Proof.
  assert (Hmin : strconv.int_min = -9223372036854775808) by reflexivity.
  assert (Hmax : strconv.int_max = 9223372036854775807) by reflexivity.
  unfold strconv.Itoa. destruct z as [|p|p].
  - reflexivity.
  - destruct (string_of_pos p) as (c & rest & Hs & Hm & Hp & Hparse).
    cbn [Z.to_int NilZero.string_of_int]. rewrite Hs.
    unfold strconv.Atoi. rewrite Hm, Hp, Hparse. unfold scanned.
    rewrite uint64_max_value.
    destruct (Z.leb_spec (Z.pos p) 18446744073709551615); [done|].
    unfold strconv.in_range. rewrite Hmin, Hmax.
    destruct (Z.ltb_spec (Z.pos p) (-9223372036854775808)); [lia|].
    by destruct (Z.ltb_spec 9223372036854775807 (Z.pos p)); [|lia].
  - destruct (string_of_pos p) as (c & rest & Hs & Hm & Hp & Hparse).
    cbn [Z.to_int NilZero.string_of_int]. rewrite Hs.
    unfold strconv.Atoi. cbn [Ascii.eqb]. simpl Ascii.eqb.
    rewrite Hparse. unfold scanned. rewrite uint64_max_value.
    destruct (Z.leb_spec (Z.pos p) 18446744073709551615); [done|].
    unfold strconv.in_range. rewrite Hmin.
    by destruct (Z.ltb_spec (Z.neg p) (-9223372036854775808)); [|lia].
Qed.

Lemma Atoi_Itoa (z : Z) :
  strconv.int_min <= z <= strconv.int_max ->
  strconv.Atoi (strconv.Itoa z) = (z, None).
Proof. intros Hz. rewrite Atoi_Itoa_in_range. by apply in_range_id. Qed.

Lemma Atoi_Itoa_inv (z z' : Z) :
  Atoi (strconv.Itoa z) = (z', None) -> z' = z /\ inIntRange z.
Proof.
  unfold Atoi, inIntRange. rewrite Atoi_Itoa_in_range. unfold strconv.in_range.
  destruct (Z.ltb_spec z strconv.int_min); [done|].
  destruct (Z.ltb_spec strconv.int_max z); [done|].
  intros [= <-]. split; [done|lia].
Qed.

(** X4.  The identifiers that [flattenSecret] writes into a state parse
    back to the remote secret's numbers: for a remote secret whose ids
    are values of the 64-bit [int], the secret id, folder id, site id and
    template id of the flattened state pass [Atoi] without error and
    give the numbers of the secret.  A state that comes from a read
    therefore never fails the coercion checks of [getSecretData],
    [readSecretByID], [Update] or [Delete]. *)
Theorem flattened_identifiers_parse (secret : server.Secret) :
  inIntRange (server.ID secret) -> inIntRange (server.FolderID secret) ->
  inIntRange (server.SiteID secret) -> inIntRange (server.SecretTemplateID secret) ->
  let st := flattenedState secret in
  Atoi (types.ValueString (ID st)) = (server.ID secret, None)
  /\ Atoi (types.ValueString (FolderID st)) = (server.FolderID secret, None)
  /\ Atoi (types.ValueString (SiteID st)) = (server.SiteID secret, None)
  /\ Atoi (types.ValueString (SecretTemplateID st)) = (server.SecretTemplateID secret, None).
Proof.
  intros H1 H2 H3 H4. unfold Atoi. simpl.
  by rewrite !Atoi_Itoa.
Qed.

Lemma flattened_identifiers_parse_witness :
  inIntRange 1 /\ inIntRange 10 /\ inIntRange 6001
  /\ Atoi (types.ValueString (ID state1)) = (1, None)
  /\ Atoi (types.ValueString (SecretTemplateID state1)) = (6001, None).
Proof.
  assert (H : forall z, 0 <= z <= 6001 -> inIntRange z).
  { intros z Hz. unfold inIntRange, strconv.int_min, strconv.int_max. lia. }
  assert (H1 : inIntRange 1) by (apply H; lia).
  assert (H10 : inIntRange 10) by (apply H; lia).
  assert (H6001 : inIntRange 6001) by (apply H; lia).
  split; [exact H1|]. split; [exact H10|]. split; [exact H6001|]. split.
  - exact (proj1 (flattened_identifiers_parse
                    (storedSecret 1 [remoteField 1 "Username" "username" "alice" false;
                                     remoteField 2 "Password" "password" "secret1" true])
                    H1 H10 H1 H6001)).
  - exact (proj2 (proj2 (proj2 (flattened_identifiers_parse
                    (storedSecret 1 [remoteField 1 "Username" "username" "alice" false;
                                     remoteField 2 "Password" "password" "secret1" true])
                    H1 H10 H1 H6001)))).
Defined.

(** ** What [getSecretData] builds *)

Lemma optInt_nonZeroInt64 (x : Z) : optInt (nonZeroInt64 x) = x.
Proof.
  unfold optInt, nonZeroInt64. destruct (Z.eqb_spec x 0) as [->|]; done.
Qed.

Lemma assemble_flattened (secret : server.Secret) (fields : list server.SecretField) :
  assembleSecret (flattenedState secret) (server.FolderID secret) (server.SiteID secret)
                 (server.SecretTemplateID secret) fields
  = server.with_ID (server.with_Fields secret fields) 0.
Proof.
  destruct secret as [id name folder site template fs active args p1 p2 p3 p4
                      b1 b2 b3 b4 b5 b6 b7 b8 b9 b10 b11].
  unfold assembleSecret, server.with_ID, server.with_Fields. simpl.
  rewrite !optInt_nonZeroInt64. f_equal. by destruct args as [[? ?]|].
Qed.

Lemma buildSecretFields_values template pfs fields0 :
  buildSecretFields template pfs = inr fields0 ->
  Forall2 (fun pf f0 => server.ItemValue f0 = types.ValueString (ItemValue pf)) pfs fields0.
Proof.
  revert fields0. induction pfs as [|p pfs IH]; intros fields0; simpl.
  - intros [= <-]. constructor.
  - destruct (buildSecretField template p) as [e|f] eqn:Ef; [done|].
    destruct (buildSecretFields template pfs) as [e|fs]; [done|].
    intros [= <-]. constructor; [by apply buildSecretField_ItemValue in Ef | by apply IH].
Qed.

(** X5.  Flattening a remote secret and preparing the flattened state
    again gives the remote secret back, up to its id and the metadata of
    its fields: for a remote secret whose ids are values of the 64-bit
    [int], whose template the remote store returns and whose fields all
    bind to that template, [getSecretData] on the flattened state makes
    exactly one remote call, the template fetch, and returns the secret
    with id 0 and rebuilt fields, each rebuilt field carrying the value
    of the remote field at its position. *)
Theorem resubmitting_a_flattened_state (W : Type) (client : Server W)
    (secret : server.Secret) (w : World W) template r fields :
  inIntRange (server.FolderID secret) -> inIntRange (server.SiteID secret) ->
  inIntRange (server.SecretTemplateID secret) ->
  doSecretTemplate client (server.SecretTemplateID secret) (remote w) = (inr template, r) ->
  buildSecretFields template (Fields (flattenedState secret)) = inr fields ->
  getSecretData (flattenedState secret) client w
  = (inr (server.with_ID (server.with_Fields secret fields) 0),
     {| remote := r;
        calls := calls w ++ [CallSecretTemplate (server.SecretTemplateID secret)] |})
  /\ Forall2 (fun f g => server.ItemValue g = server.ItemValue f)
             (server.Fields secret) fields.
Proof.
  intros H2 H3 H4 Ht Hb. split.
  - unfold getSecretData, Atoi.
    change (types.ValueString (FolderID (flattenedState secret)))
      with (strconv.Itoa (server.FolderID secret)).
    change (types.ValueString (SiteID (flattenedState secret)))
      with (strconv.Itoa (server.SiteID secret)).
    change (types.ValueString (SecretTemplateID (flattenedState secret)))
      with (strconv.Itoa (server.SecretTemplateID secret)).
    rewrite !Atoi_Itoa by done.
    unfold SecretTemplate. unfold_M. rewrite Ht, Hb.
    by rewrite assemble_flattened.
  - apply buildSecretFields_values in Hb. simpl in Hb.
    revert fields Hb. induction (server.Fields secret) as [|f fs IH]; intros fields Hb.
    + inversion Hb. constructor.
    + inversion Hb as [|? g ? gs Hv Hrest]; subst. constructor.
      * by rewrite Hv, flattenField_ItemValue.
      * by apply IH.
Qed.

Lemma resubmitting_a_flattened_state_witness :
  getSecretData state1 vaultServer (freshWorld vault1)
  = (inr (server.with_ID
            (storedSecret 1 [remoteField 1 "Username" "username" "alice" false;
                             remoteField 2 "Password" "password" "secret1" true]) 0),
     {| remote := vault1; calls := [CallSecretTemplate 6001] |}).
Proof.
  assert (H : forall z, 0 <= z <= 6001 -> inIntRange z).
  { intros z Hz. unfold inIntRange, strconv.int_min, strconv.int_max. lia. }
  exact (proj1 (resubmitting_a_flattened_state Vault vaultServer
                  (storedSecret 1 [remoteField 1 "Username" "username" "alice" false;
                                   remoteField 2 "Password" "password" "secret1" true])
                  (freshWorld vault1) accountTemplate vault1
                  [remoteField 1 "Username" "username" "alice" false;
                   remoteField 2 "Password" "password" "secret1" true]
                  (H 10 ltac:(lia)) (H 1 ltac:(lia)) (H 6001 ltac:(lia))
                  eq_refl eq_refl)).
Defined.

(** X6.  Attachment data is submitted for file fields only.  The field
    that [getSecretData] builds from a declared field always has item id
    0; when neither the bound template field nor the declared field says
    it is a file, its attachment id is 0 and its filename empty, whatever
    the declaration holds; when one of them does, they are the declared
    attachment id and filename, 0 and empty standing for null. *)
Theorem attachments_only_for_file_fields (template : server.SecretTemplate)
    (field : SecretField) (secretField : server.SecretField) :
  buildSecretField template field = inr secretField ->
  exists tf,
    lookupTemplateField (fieldNameOf field) (server.TemplateFields template) = Some tf
    /\ server.ItemID secretField = 0
    /\ (sendsAttachment tf field = false ->
        server.FileAttachmentID secretField = 0
        /\ server.Filename secretField = EmptyString)
    /\ (sendsAttachment tf field = true ->
        server.FileAttachmentID secretField = optInt (FileAttachmentID field)
        /\ server.Filename secretField = types.ValueString (Filename field)).
Proof.
  unfold buildSecretField, sendsAttachment, optInt.
  destruct (lookupTemplateField _ _) as [tf|]; [|done].
  intros H. exists tf. split; [done|].
  destruct (server.TemplateIsFile tf || _) eqn:E.
  - destruct (FileAttachmentID field), (Filename field); simpl in H;
      injection H as <-; repeat split; done.
  - injection H as <-. repeat split; done.
Qed.

Lemma attachments_only_for_file_fields_witness :
  exists tf,
    lookupTemplateField "password" (server.TemplateFields accountTemplate) = Some tf
    /\ server.ItemID (remoteField 2 "Password" "password" "secret2" true) = 0.
Proof.
  destruct (attachments_only_for_file_fields accountTemplate
              (declaredField "password" types.Int64Null (types.StringValue "secret2"))
              (remoteField 2 "Password" "password" "secret2" true) eq_refl)
    as (tf & Htf & Hid & _).
  exists tf. split; [exact Htf | exact Hid].
Defined.

(** ** Failures of the preparation *)

Lemma buildSecretFields_error template pfs e :
  buildSecretFields template pfs = inl e ->
  exists (i : nat) pf,
    pfs !! i = Some pf
    /\ lookupTemplateField (fieldNameOf pf) (server.TemplateFields template) = None
    /\ e = ErrorfS "field '%s' not found in secret template" (fieldNameOf pf)
    /\ forall (j : nat) q, (j < i)%nat -> pfs !! j = Some q ->
         lookupTemplateField (fieldNameOf q) (server.TemplateFields template) <> None.
Proof.
  induction pfs as [|p pfs IH]; simpl; [done|].
  destruct (buildSecretField template p) as [e'|f] eqn:Ef.
  - intros [= ->]. exists 0%nat, p. unfold buildSecretField in Ef.
    destruct (lookupTemplateField _ _) as [tf|] eqn:El.
    + repeat match type of Ef with context [if ?b then _ else _] => destruct b end;
        discriminate.
    + injection Ef as <-. repeat split; try done. intros j q Hj. lia.
  - destruct (buildSecretFields template pfs) as [e'|fs]; [|done].
    intros [= ->]. destruct (IH eq_refl) as (i & pf & Hi & Hl & He & Hbefore).
    exists (S i), pf. repeat split; try done.
    intros [|j] q Hj Hq; simpl in Hq.
    + injection Hq as <-. unfold buildSecretField in Ef.
      by destruct (lookupTemplateField _ _).
    + apply (Hbefore j); [lia|done].
Qed.

Lemma buildSecretFields_unbound template pfs pf :
  pf ∈ pfs ->
  lookupTemplateField (fieldNameOf pf) (server.TemplateFields template) = None ->
  exists e, buildSecretFields template pfs = inl e.
Proof.
  induction pfs as [|p pfs IH]; [by intros ?%elem_of_nil|].
  intros [->|Hin]%elem_of_cons Hl; simpl.
  - unfold buildSecretField. rewrite Hl. by eexists.
  - destruct (buildSecretField template p); [by eexists|].
    destruct (IH Hin Hl) as [e ->]. by eexists.
Qed.

Section Preparation.

Context {W : Type}.
Implicit Types (client : Server W) (w : World W).

Lemma getSecretData_error_drop_args client plan w e w1 :
  getSecretData plan client w = (inl e, w1) ->
  getSecretData (with_SshKeyArgs plan None) client w = (inl e, w1).
Proof.
  unfold getSecretData.
  change (FolderID (with_SshKeyArgs plan None)) with (FolderID plan).
  change (SiteID (with_SshKeyArgs plan None)) with (SiteID plan).
  change (SecretTemplateID (with_SshKeyArgs plan None)) with (SecretTemplateID plan).
  change (Fields (with_SshKeyArgs plan None)) with (Fields plan).
  destruct (Atoi _) as [folderID [e1|]]; [done|].
  destruct (Atoi _) as [siteID [e2|]]; [done|].
  destruct (Atoi _) as [templateID [e3|]]; [done|].
  unfold SecretTemplate. unfold_M.
  destruct (doSecretTemplate client templateID (remote w)) as [[err|template] r0]; [done|].
  by destruct (buildSecretFields template (Fields plan)).
Qed.

(** X7.  A plan that cannot be prepared never reaches the remote store
    with a change.  When [getSecretData] fails on the plan, be it for an
    identifier, for the template fetch or for a declared field that
    binds to no template field, [Create] and [Update] fail with a
    "Secret Data Error" carrying that error, set no state, and the call
    log holds at most the template fetch.  When the identifiers parse
    and the template is fetched, the error names the first declared
    field that the template does not know. *)
Theorem preparation_failure_changes_nothing client plan state w e w1 :
  getSecretData plan client w = (inl e, w1) ->
  Create (Some client) plan w
  = (failed (AddError [] "Secret Data Error" "Failed to prepare secret data: %s"
               [ArgError e]), w1)
  /\ Update (Some client) plan state w
     = (failed (AddError [] "Secret Data Error" "Failed to prepare secret data: %s"
                  [ArgError e]), w1)
  /\ (calls w1 = calls w
      \/ exists templateID, calls w1 = calls w ++ [CallSecretTemplate templateID])
  /\ (forall folderID siteID templateID template r,
        Atoi (types.ValueString (FolderID plan)) = (folderID, None) ->
        Atoi (types.ValueString (SiteID plan)) = (siteID, None) ->
        Atoi (types.ValueString (SecretTemplateID plan)) = (templateID, None) ->
        doSecretTemplate client templateID (remote w) = (inr template, r) ->
        exists (i : nat) pf,
          Fields plan !! i = Some pf
          /\ lookupTemplateField (fieldNameOf pf) (server.TemplateFields template) = None
          /\ e = ErrorfS "field '%s' not found in secret template" (fieldNameOf pf)
          /\ forall (j : nat) q, (j < i)%nat -> Fields plan !! j = Some q ->
               lookupTemplateField (fieldNameOf q) (server.TemplateFields template)
               <> None).
Proof.
  intros He. split; [|split; [|split]].
  - unfold Create, generatePassword. unfold_M. by rewrite He.
  - unfold Update. unfold_M. by rewrite (getSecretData_error_drop_args _ _ _ _ _ He).
  - by apply getSecretData_calls in He.
  - intros folderID siteID templateID template r Hf Hs Ha Ht. revert He.
    unfold getSecretData. rewrite Hf, Hs, Ha. unfold SecretTemplate. unfold_M.
    rewrite Ht.
    destruct (buildSecretFields template (Fields plan)) as [e'|fields] eqn:Eb; [|done].
    intros [= -> _]. by apply buildSecretFields_error.
Qed.

End Preparation.

Lemma preparation_failure_changes_nothing_witness :
  Create (Some vaultServer) planUnknownField (freshWorld vault1)
  = (failed (AddError [] "Secret Data Error" "Failed to prepare secret data: %s"
               [ArgError (ErrorfS "field '%s' not found in secret template" "pin")]),
     {| remote := vault1; calls := [CallSecretTemplate 6001] |}).
Proof.
  exact (proj1 (preparation_failure_changes_nothing vaultServer planUnknownField
                  planUnknownField (freshWorld vault1)
                  (ErrorfS "field '%s' not found in secret template" "pin")
                  {| remote := vault1; calls := [CallSecretTemplate 6001] |} eq_refl)).
Defined.

(** ** Password generation *)

Section Generation.

Context {W : Type}.
Implicit Types (client : Server W) (w : World W).

Lemma generationSlug_nonempty template field :
  server.ItemValue field <> EmptyString -> generationSlug template field = None.
Proof.
  intros Hne. unfold generationSlug, isEmptyString.
  destruct (findTemplateField _ _) as [tf|]; [|done].
  destruct (String.eqb_spec (server.ItemValue field) EmptyString); [done|].
  by rewrite andb_false_r.
Qed.

Lemma generatePasswords_cons client template f fields w :
  generatePasswords client template (f :: fields) w
  = match generationSlug template f with
    | Some slug =>
        let '(g, r0) := doGeneratePassword client slug template (remote w) in
        let w0 := {| remote := r0;
                     calls := calls w ++ [CallGeneratePassword slug template] |} in
        match g with
        | inl err =>
            (inl (ErrorfSW "failed to generate password for field %s: %w"
                           (server.FieldName f) err), w0)
        | inr g =>
            let '(a, w2) := generatePasswords client template fields w0 in
            (match a with
             | inl err => inl err
             | inr fs => inr (server.with_ItemValue f g :: fs)
             end, w2)
        end
    | None =>
        let '(a, w2) := generatePasswords client template fields w in
        (match a with inl err => inl err | inr fs => inr (f :: fs) end, w2)
    end.
Proof.
  simpl. unfold generationSlug, GeneratePassword. unfold_M.
  destruct (findTemplateField f _) as [tf|].
  - destruct (server.TemplateIsPassword tf && isEmptyString (server.ItemValue f)).
    + destruct (doGeneratePassword client _ template (remote w)) as [[err|g] r0]; [done|].
      by destruct (generatePasswords client template fields _) as [[e|fs] w1].
    + by destruct (generatePasswords client template fields w) as [[e|fs] w1].
  - by destruct (generatePasswords client template fields w) as [[e|fs] w1].
Qed.

Lemma omap_generationCall_cons template f fields :
  omap (generationCall template) (f :: fields)
  = match generationSlug template f with
    | Some slug => CallGeneratePassword slug template
                   :: omap (generationCall template) fields
    | None => omap (generationCall template) fields
    end.
Proof. simpl. unfold generationCall. by destruct (generationSlug template f). Qed.

Lemma generatePasswords_ok client template fields w fields' w' :
  generatePasswords client template fields w = (inr fields', w') ->
  calls w' = calls w ++ omap (generationCall template) fields
  /\ Forall2 (fun f f' =>
                match generationSlug template f with
                | None => f' = f
                | Some _ => exists g, f' = server.with_ItemValue f g
                end) fields fields'.
Proof.
  revert w fields' w'. induction fields as [|f fields IH]; intros w fields' w'.
  - simpl. unfold_M. intros [= <- <-]. split; [by rewrite app_nil_r|constructor].
  - rewrite generatePasswords_cons, omap_generationCall_cons.
    destruct (generationSlug template f) as [slug|] eqn:Es.
    + destruct (doGeneratePassword client slug template (remote w)) as [[err|g] r0];
        [done|]. cbv zeta.
      destruct (generatePasswords client template fields _) as [[e|fs] w1] eqn:Eg;
        [done|].
      intros [= <- <-]. destruct (IH _ _ _ Eg) as [Hc Hf]. simpl in Hc.
      split; [by rewrite Hc, <- app_assoc|].
      constructor; [rewrite Es; by exists g|done].
    + destruct (generatePasswords client template fields w) as [[e|fs] w1] eqn:Eg;
        [done|].
      intros [= <- <-]. destruct (IH _ _ _ Eg) as [Hc Hf].
      split; [done|]. constructor; [by rewrite Es|done].
Qed.

Lemma generatePasswords_error client template fields w e w' :
  generatePasswords client template fields w = (inl e, w') ->
  exists (i : nat) f slug err,
    fields !! i = Some f
    /\ generationSlug template f = Some slug
    /\ e = ErrorfSW "failed to generate password for field %s: %w" (server.FieldName f) err
    /\ calls w' = calls w ++ omap (generationCall template) (take (S i) fields).
Proof.
  revert w w'. induction fields as [|f fields IH]; intros w w'.
  - simpl. by unfold_M.
  - rewrite generatePasswords_cons.
    destruct (generationSlug template f) as [slug|] eqn:Es.
    + destruct (doGeneratePassword client slug template (remote w)) as [[err|g] r0].
      * intros [= <- <-]. exists 0%nat, f, slug, err. repeat split; try done.
        simpl. unfold generationCall. by rewrite Es.
      * cbv zeta.
        destruct (generatePasswords client template fields _) as [[e'|fs] w1] eqn:Eg;
          [|done].
        intros [= -> ->].
        destruct (IH _ _ Eg) as (i & f0 & slug0 & err & Hi & Hs & He & Hc).
        exists (S i), f0, slug0, err. repeat split; try done.
        rewrite Hc. change (take (S (S i)) (f :: fields)) with (f :: take (S i) fields).
        rewrite omap_generationCall_cons, Es. simpl. by rewrite <- app_assoc.
    + destruct (generatePasswords client template fields w) as [[e'|fs] w1] eqn:Eg;
        [|done].
      intros [= -> ->].
      destruct (IH _ _ Eg) as (i & f0 & slug0 & err & Hi & Hs & He & Hc).
      exists (S i), f0, slug0, err. repeat split; try done.
      rewrite Hc. change (take (S (S i)) (f :: fields)) with (f :: take (S i) fields).
      by rewrite omap_generationCall_cons, Es.
Qed.

(** X8.  [generatePasswords] fills exactly the empty password fields.
    When it succeeds, the result has the length of its input, each field
    differs from its input at most in the item value, a field whose value
    is not empty or whose bound template field is not a password field
    (or that is bound to none) is returned as it was, and the remote
    store was asked one value per remaining field, in order and for the
    slug of the bound template field, and nothing else. *)
Theorem generation_fills_only_empty_passwords client template fields w fields' w' :
  generatePasswords client template fields w = (inr fields', w') ->
  length fields' = length fields
  /\ calls w' = calls w ++ omap (generationCall template) fields
  /\ forall (i : nat) f, fields !! i = Some f ->
       exists f', fields' !! i = Some f'
         /\ f' = server.with_ItemValue f (server.ItemValue f')
         /\ (server.ItemValue f <> EmptyString -> f' = f)
         /\ (generationSlug template f = None -> f' = f).
Proof.
  intros H. destruct (generatePasswords_ok _ _ _ _ _ _ H) as [Hc Hf].
  split; [symmetry; by eapply Forall2_length|]. split; [done|].
  intros i f Hi. destruct (Forall2_lookup_l _ _ _ _ _ Hf Hi) as (f' & Hi' & Hrel).
  exists f'. split; [done|].
  destruct (generationSlug template f) as [slug|] eqn:Es.
  - destruct Hrel as [g ->]. split; [done|]. split; [|done].
    intros Hne. by rewrite (generationSlug_nonempty _ _ Hne) in Es.
  - subst f'. split; [by destruct f|]. by split.
Qed.

End Generation.

Lemma generation_fills_only_empty_passwords_witness :
  length [remoteField 1 "Username" "username" "alice" false;
          remoteField 2 "Password" "password" "generated-by-vault" true] = 2%nat
  /\ calls {| remote := vault1;
              calls := [CallGeneratePassword "password" accountTemplate] |}
     = [] ++ omap (generationCall accountTemplate)
                  [remoteField 1 "Username" "username" "alice" false;
                   remoteField 2 "Password" "password" EmptyString true].
Proof.
  destruct (generation_fills_only_empty_passwords vaultServer accountTemplate
              [remoteField 1 "Username" "username" "alice" false;
               remoteField 2 "Password" "password" EmptyString true]
              (freshWorld vault1)
              [remoteField 1 "Username" "username" "alice" false;
               remoteField 2 "Password" "password" "generated-by-vault" true]
              {| remote := vault1;
                 calls := [CallGeneratePassword "password" accountTemplate] |}
              eq_refl) as (Hl & Hc & _).
  split; [exact Hl | exact Hc].
Defined.

(** ** The calls of [Create] *)

Section CreateCalls.

Context {W : Type}.
Implicit Types (client : Server W) (w : World W).

Lemma generatePasswords_prep client template fields w r w' :
  generatePasswords client template fields w = (r, w') ->
  exists prep, calls w' = calls w ++ prep
               /\ Forall (fun c => isPreparationCall c = true) prep.
Proof.
  assert (Hall : forall l, Forall (fun c => isPreparationCall c = true)
                                  (omap (generationCall template) l)).
  { intros l. apply Forall_forall. intros c (f & _ & Hc)%list_elem_of_omap.
    unfold generationCall in Hc. destruct (generationSlug template f); [|done].
    by injection Hc as <-. }
  destruct r as [e|fields'].
  - intros (i & f & slug & err & _ & _ & _ & Hc)%generatePasswords_error. eauto.
  - intros [Hc _]%generatePasswords_ok. eauto.
Qed.

Lemma getSecretData_inr_full client plan w secret w1 :
  getSecretData plan client w = (inr secret, w1) ->
  exists folderID siteID templateID template,
    Atoi (types.ValueString (SecretTemplateID plan)) = (templateID, None)
    /\ doSecretTemplate client templateID (remote w) = (inr template, remote w1)
    /\ buildSecretFields template (Fields plan) = inr (server.Fields secret)
    /\ secret = assembleSecret plan folderID siteID templateID (server.Fields secret)
    /\ calls w1 = calls w ++ [CallSecretTemplate templateID].
Proof.
  unfold getSecretData.
  destruct (Atoi (types.ValueString (FolderID plan))) as [folderID [e1|]]; [done|].
  destruct (Atoi (types.ValueString (SiteID plan))) as [siteID [e2|]]; [done|].
  destruct (Atoi (types.ValueString (SecretTemplateID plan))) as [templateID [e3|]];
    [done|].
  unfold SecretTemplate. unfold_M.
  destruct (doSecretTemplate client templateID (remote w)) as [[err|template] r0] eqn:Et;
    [done|].
  destruct (buildSecretFields template (Fields plan)) as [e|fields] eqn:Eb; [done|].
  intros [= <- <-]. by exists folderID, siteID, templateID, template.
Qed.

Lemma generatePassword_inr client plan w secret w1 :
  generatePassword plan client w = (inr secret, w1) ->
  exists base w0 templateID template,
    getSecretData plan client w = (inr base, w0)
    /\ Atoi (types.ValueString (SecretTemplateID plan)) = (templateID, None)
    /\ fst (doSecretTemplate client templateID (remote w0)) = inr template
    /\ secret = server.with_Fields base (server.Fields secret)
    /\ calls w1 = calls w ++ [CallSecretTemplate templateID; CallSecretTemplate templateID]
                  ++ omap (generationCall template) (server.Fields base)
    /\ Forall2 (fun f f' =>
                  match generationSlug template f with
                  | None => f' = f
                  | Some _ => exists g, f' = server.with_ItemValue f g
                  end) (server.Fields base) (server.Fields secret).
Proof.
  unfold generatePassword. unfold_M.
  destruct (getSecretData plan client w) as [[e|base] w0] eqn:Eg; [done|].
  destruct (getSecretData_inr_full _ _ _ _ _ Eg)
    as (folderID & siteID & templateID & template1 & Ha & _ & _ & _ & Hc0).
  rewrite Ha. unfold SecretTemplate. unfold_M.
  destruct (doSecretTemplate client templateID (remote w0)) as [[err|template] r0] eqn:Et;
    [done|].
  destruct (generatePasswords client template (server.Fields base) _)
    as [[e|fields] w2] eqn:Ep; [done|].
  intros [= <- <-]. destruct (generatePasswords_ok _ _ _ _ _ _ Ep) as [Hc Hf].
  simpl in Hc. exists base, w0, templateID, template.
  repeat split; try done.
  - by rewrite Et.
  - rewrite Hc, Hc0. by rewrite <- !app_assoc.
Qed.

Lemma generatePassword_prep client plan w r w1 :
  generatePassword plan client w = (r, w1) ->
  exists prep, calls w1 = calls w ++ prep
               /\ Forall (fun c => isPreparationCall c = true) prep.
Proof.
  unfold generatePassword. unfold_M.
  destruct (getSecretData plan client w) as [[e|base] w0] eqn:Eg.
  - intros [= _ <-]. destruct (getSecretData_calls _ _ _ _ _ Eg) as [Hc|[t Hc]].
    + exists []. by rewrite app_nil_r.
    + exists [CallSecretTemplate t]. split; [done|]. by repeat constructor.
  - destruct (getSecretData_inr_full _ _ _ _ _ Eg)
      as (folderID & siteID & templateID & template1 & Ha & _ & _ & _ & Hc0).
    rewrite Ha. unfold SecretTemplate. unfold_M.
    destruct (doSecretTemplate client templateID (remote w0)) as [[err|template] r0].
    + intros [= _ <-]. simpl. rewrite Hc0, <- app_assoc. eexists. split; [done|].
      by repeat constructor.
    + destruct (generatePasswords client template (server.Fields base) _)
        as [[e|fields] w2] eqn:Ep.
      * intros [= _ <-]. destruct (generatePasswords_prep _ _ _ _ _ _ Ep) as (prep & Hc & Hp).
        simpl in Hc. rewrite Hc, Hc0, <- !app_assoc. eexists. split; [done|].
        by repeat constructor.
      * intros [= _ <-]. destruct (generatePasswords_prep _ _ _ _ _ _ Ep) as (prep & Hc & Hp).
        simpl in Hc. rewrite Hc, Hc0, <- !app_assoc. eexists. split; [done|].
        by repeat constructor.
Qed.

Lemma readSecretByID_inv client id w rd w' :
  readSecretByID client id w = (rd, w') ->
  match rd with
  | inl ds => HasError ds = true
              /\ (calls w' = calls w
                  \/ exists z, Atoi id = (z, None)
                               /\ calls w' = calls w ++ [CallSecret z])
  | inr st => exists z secret,
                Atoi id = (z, None)
                /\ doSecret client z (remote w) = (inr secret, remote w')
                /\ st = flattenedState secret
                /\ calls w' = calls w ++ [CallSecret z]
  end.
Proof.
  unfold readSecretByID, Secret, flattenSecret. unfold_M.
  destruct (Atoi id) as [z [err|]].
  { intros [= <- <-]. simpl. split; [done|]. by left. }
  destruct (doSecret client z (remote w)) as [[err|secret] r0] eqn:Ed.
  - intros [= <- <-]. simpl. split; [done|]. right. by exists z.
  - intros [= <- <-]. simpl. exists z, secret. by repeat split.
Qed.

(** The three ways [Create] ends: at the preparation, at the remote
    create, or after reading the created secret back. *)
Lemma Create_inv client plan w resp w' :
  Create (Some client) plan w = (resp, w') ->
  (exists e, generatePassword plan client w = (inl e, w')
             /\ resp = failed (AddError [] "Secret Data Error"
                                 "Failed to prepare secret data: %s" [ArgError e]))
  \/ exists secret w1,
       generatePassword plan client w = (inr secret, w1)
       /\ ((exists err,
              fst (doCreateSecret client secret (remote w1)) = inl err
              /\ calls w' = calls w1 ++ [CallCreateSecret secret]
              /\ resp = failed (AddError [] "Secret Creation Error"
                                  "Failed to create secret: %s" [ArgError err]))
           \/ exists created w2 rd,
                fst (doCreateSecret client secret (remote w1)) = inr created
                /\ calls w2 = calls w1 ++ [CallCreateSecret secret]
                /\ readSecretByID client (strconv.Itoa (server.ID created)) w2 = (rd, w')
                /\ match rd with
                   | inl ds => resp = failed ds
                   | inr newState =>
                       Diags resp = []
                       /\ exists st,
                            State resp = Some st
                            /\ Fields st
                               = map (keepPlanAttachment (Fields plan))
                                     (reorderFieldsToMatchPlan (Fields plan)
                                        (Fields newState))
                            /\ sshKeyArgs st
                               = match sshKeyArgs plan with
                                 | Some a => Some a
                                 | None => sshKeyArgs newState
                                 end
                            /\ ID st = ID newState
                            /\ Name st = Name newState
                            /\ FolderID st = FolderID newState
                            /\ SiteID st = SiteID newState
                            /\ SecretTemplateID st = SecretTemplateID newState
                   end).
Proof.
  unfold Create. unfold_M.
  destruct (generatePassword plan client w) as [[e|secret] w1] eqn:Eg.
  { intros [= <- <-]. left. by exists e. }
  intros H. right. exists secret, w1. split; [done|]. revert H.
  unfold CreateSecret. unfold_M.
  destruct (doCreateSecret client secret (remote w1)) as [[err|created] r1].
  { intros [= <- <-]. left. by exists err. }
  destruct (readSecretByID client (strconv.Itoa (server.ID created)) _)
    as [[ds|newState] w3] eqn:Er.
  - intros [= <- <-]. right.
    exists created, {| remote := r1; calls := calls w1 ++ [CallCreateSecret secret] |},
           (inl ds).
    by repeat split.
  - intros [= <- <-]. right.
    exists created, {| remote := r1; calls := calls w1 ++ [CallCreateSecret secret] |},
           (inr newState).
    repeat split; try done.
    eexists. split; [done|]. by destruct (sshKeyArgs plan).
Qed.

(** X9.  The calls of [Create] come in a fixed order.  First come calls
    that change nothing remotely (template fetches and password
    generations), then at most one [CreateSecret], then at most one
    [Secret] reading the created secret back; [Create] never updates or
    deletes.  A state is set only after both the create and the read-back
    were made, with no diagnostic at all, and the read-back asks for the
    identifier the remote create returned; when no state is set the
    diagnostics hold an error. *)
Theorem Create_call_discipline client plan w resp w' :
  Create (Some client) plan w = (resp, w') ->
  exists prep rest,
    calls w' = calls w ++ prep ++ rest
    /\ Forall (fun c => isPreparationCall c = true) prep
    /\ match State resp with
       | Some _ =>
           Diags resp = []
           /\ exists s created r,
                fst (doCreateSecret client s r) = inr created
                /\ rest = [CallCreateSecret s; CallSecret (server.ID created)]
       | None =>
           HasError (Diags resp) = true
           /\ (rest = []
               \/ exists s, rest = [CallCreateSecret s]
                            \/ exists id, rest = [CallCreateSecret s; CallSecret id])
       end.
Proof.
  intros [(e & Hg & ->)|(secret & w1 & Hg & Hrest)]%Create_inv.
  - destruct (generatePassword_prep _ _ _ _ _ Hg) as (prep & Hc & Hp).
    exists prep, []. rewrite app_nil_r. repeat split; try done. by left.
  - destruct (generatePassword_prep _ _ _ _ _ Hg) as (prep & Hc & Hp).
    destruct Hrest as [(err & Hd & Hc' & ->)|(created & w2 & rd & Hd & Hc2 & Hr & Hresp)].
    + exists prep, [CallCreateSecret secret]. rewrite Hc', Hc, <- app_assoc.
      repeat split; try done. right. exists secret. by left.
    + apply readSecretByID_inv in Hr. destruct rd as [ds|newState].
      * subst resp. destruct Hr as [Hds [Hc3|(z & _ & Hc3)]].
        -- exists prep, [CallCreateSecret secret]. rewrite Hc3, Hc2, Hc, <- app_assoc.
           repeat split; try done. right. exists secret. by left.
        -- exists prep, [CallCreateSecret secret; CallSecret z].
           rewrite Hc3, Hc2, Hc, <- !app_assoc.
           repeat split; try done. right. exists secret. right. by exists z.
      * destruct Hresp as (Hdiag & st & Hst & _).
        destruct Hr as (z & remoteSecret & Ha & _ & _ & Hc3).
        exists prep, [CallCreateSecret secret; CallSecret (server.ID created)].
        rewrite Hst. split; [|split; [done|]].
        -- rewrite Hc3, Hc2, Hc, <- !app_assoc. simpl.
           by destruct (Atoi_Itoa_inv _ _ Ha) as [-> _].
        -- split; [done|]. by exists secret, created, (remote w1).
Qed.

(** X10.  What [Create] submits.  The secret handed to the remote create
    has identifier 0, the declared name, and one field per declared
    field, in the declared order; a declared field whose item value is
    not empty is submitted with exactly that value, so password
    generation touches no value the configuration gave. *)
Theorem Create_submits_declared_values client plan w resp w' s :
  Create (Some client) plan w = (resp, w') ->
  CallCreateSecret s ∉ calls w ->
  CallCreateSecret s ∈ calls w' ->
  server.ID s = 0
  /\ server.Name s = types.ValueString (Name plan)
  /\ length (server.Fields s) = length (Fields plan)
  /\ forall (i : nat) pf, Fields plan !! i = Some pf ->
       exists f, server.Fields s !! i = Some f
         /\ (types.ValueString (ItemValue pf) <> EmptyString ->
             server.ItemValue f = types.ValueString (ItemValue pf)).
Proof.
  intros HC Hnot Hin.
  assert (Hsecret : exists w1, generatePassword plan client w = (inr s, w1)).
  { apply Create_inv in HC as [(e & Hg & _)|(secret & w1 & Hg & Hrest)].
    - destruct (generatePassword_prep _ _ _ _ _ Hg) as (prep & Hc & Hp).
      rewrite Hc in Hin. apply elem_of_app in Hin as [Hin|Hin]; [done|].
      by apply (proj1 (Forall_forall _ _) Hp) in Hin.
    - destruct (generatePassword_prep _ _ _ _ _ Hg) as (prep & Hc & Hp).
      assert (Hs : CallCreateSecret s ∈ calls w1 ++ [CallCreateSecret secret]).
      { destruct Hrest as [(err & _ & Hc' & _)|(created & w2 & rd & _ & Hc2 & Hr & _)].
        - by rewrite <- Hc'.
        - rewrite <- Hc2. destruct (readSecretByID_calls _ _ _ _ _ Hr) as [Hc3|[z Hc3]].
          + by rewrite <- Hc3.
          + rewrite Hc3 in Hin. apply elem_of_app in Hin as [Hin|Hin]; [done|].
            by apply list_elem_of_singleton in Hin. }
      rewrite Hc in Hs. apply elem_of_app in Hs as [Hs|Hs].
      + apply elem_of_app in Hs as [Hs|Hs]; [done|].
        by apply (proj1 (Forall_forall _ _) Hp) in Hs.
      + apply list_elem_of_singleton in Hs. injection Hs as ->. by exists w1. }
  destruct Hsecret as [w1 Hg].
  destruct (generatePassword_inr _ _ _ _ _ Hg)
    as (base & w0 & templateID & template & Hb & _ & _ & Hs & _ & Hf).
  destruct (getSecretData_inr_full _ _ _ _ _ Hb)
    as (folderID & siteID & templateID' & template1 & _ & _ & Hbuild & Hbase & _).
  destruct (buildSecretFields_lookup _ _ _ Hbuild) as [Hlen Hlook].
  rewrite Hs, Hbase. repeat split; try done.
  - change (length (server.Fields s) = length (Fields plan)).
    by rewrite <- (Forall2_length _ _ _ Hf).
  - intros i pf Hi. destruct (Hlook i pf Hi) as (f0 & Hf0 & Hbf).
    destruct (Forall2_lookup_l _ _ _ _ _ Hf Hf0) as (f & Hfi & Hrel).
    exists f. split; [done|]. intros Hne.
    rewrite <- (buildSecretField_ItemValue _ _ _ Hbf) in Hne |- *.
    rewrite (generationSlug_nonempty template f0 Hne) in Hrel. by subst f.
Qed.

End CreateCalls.

Lemma Create_call_discipline_witness :
  exists prep rest,
    calls (snd (Create (Some vaultServer) plan1 (freshWorld vault1)))
    = calls (freshWorld vault1) ++ prep ++ rest
    /\ Forall (fun c => isPreparationCall c = true) prep.
Proof.
  destruct (Create_call_discipline vaultServer plan1 (freshWorld vault1)
              (fst (Create (Some vaultServer) plan1 (freshWorld vault1)))
              (snd (Create (Some vaultServer) plan1 (freshWorld vault1)))
              eq_refl) as (prep & rest & Hc & Hp & _).
  exists prep, rest. split; [exact Hc | exact Hp].
Defined.

Lemma Create_submits_declared_values_witness :
  server.ID (assembleSecret plan1 10 1 6001
               [remoteField 1 "Username" "username" "alice" false;
                remoteField 2 "Password" "password" "secret2" true])
  = 0.
Proof.
  refine (proj1 (Create_submits_declared_values vaultServer plan1 (freshWorld vault1)
                   (fst (Create (Some vaultServer) plan1 (freshWorld vault1)))
                   (snd (Create (Some vaultServer) plan1 (freshWorld vault1)))
                   _ eq_refl _ _)).
  - intros H. by apply elem_of_nil in H.
  - vm_compute. apply list_elem_of_In. right. right. left. reflexivity.
Defined.

(** ** The calls of [Update], [Read] and [Delete] *)

Section UpdateCalls.

Context {W : Type}.
Implicit Types (client : Server W) (w : World W).

(** The ways [Update] ends: at the preparation, at the conversion of the
    prior identifier, at the remote update, or after the read-back. *)
Lemma Update_inv client plan state w resp w' :
  Update (Some client) plan state w = (resp, w') ->
  (exists e, getSecretData (with_SshKeyArgs plan None) client w = (inl e, w')
             /\ resp = failed (AddError [] "Secret Data Error"
                                 "Failed to prepare secret data: %s" [ArgError e]))
  \/ exists base w1 s,
       getSecretData (with_SshKeyArgs plan None) client w = (inr base, w1)
       /\ s = server.with_ID
                (server.with_Fields base
                   (map (preserveStateValue (hasSshKeyArgsOf state) (Fields plan)
                           (Fields state))
                        (server.Fields base)))
                (fst (Atoi (types.ValueString (ID state))))
       /\ ((exists err,
              snd (Atoi (types.ValueString (ID state))) = Some err
              /\ w' = w1
              /\ resp = failed (AddError [] "Error converting ID from string to int"
                                  "Failed to update secret: %s" [ArgError err]))
           \/ snd (Atoi (types.ValueString (ID state))) = None
              /\ ((exists err,
                     fst (doUpdateSecret client s (remote w1)) = inl err
                     /\ calls w' = calls w1 ++ [CallUpdateSecret s]
                     /\ resp = failed (AddError [] "Secret Update Error"
                                         "Failed to update secret: %s" [ArgError err]))
                  \/ exists updated w2 rd,
                       fst (doUpdateSecret client s (remote w1)) = inr updated
                       /\ calls w2 = calls w1 ++ [CallUpdateSecret s]
                       /\ readSecretByID client (types.ValueString (ID state)) w2 = (rd, w')
                       /\ match rd with
                          | inl ds => resp = failed ds
                          | inr newState =>
                              Diags resp = []
                              /\ exists st,
                                   State resp = Some st
                                   /\ Fields st
                                      = map (keepUpdateAttachment (hasSshKeyArgsOf state)
                                               (Fields plan) (Fields state))
                                            (reorderFieldsToMatchPlan (Fields plan)
                                               (Fields newState))
                                   /\ sshKeyArgs st
                                      = match sshKeyArgs plan with
                                        | Some a => Some a
                                        | None => sshKeyArgs newState
                                        end
                                   /\ ID st = ID newState
                                   /\ Name st = Name newState
                                   /\ FolderID st = FolderID newState
                                   /\ SiteID st = SiteID newState
                                   /\ SecretTemplateID st = SecretTemplateID newState
                          end)).
Proof.
  unfold Update. unfold_M.
  destruct (getSecretData (with_SshKeyArgs plan None) client w) as [[e|base] w1] eqn:Eg.
  { intros [= <- <-]. left. by exists e. }
  intros H. right. eexists base, w1, _. split; [done|]. split; [reflexivity|].
  revert H. unfold UpdateSecret. unfold_M.
  destruct (Atoi (types.ValueString (ID state))) as [id [err|]].
  { intros [= <- <-]. left. by exists err. }
  simpl fst.
  destruct (doUpdateSecret client _ (remote w1)) as [[err|updated] r1].
  { intros [= <- <-]. right. split; [done|]. left. by exists err. }
  destruct (readSecretByID client (types.ValueString (ID state)) _)
    as [[ds|newState] w3] eqn:Er.
  - intros [= <- <-]. right. split; [done|]. right.
    eexists updated, {| remote := r1; calls := _ |}, (inl ds). by repeat split.
  - intros [= <- <-]. right. split; [done|]. right.
    eexists updated, {| remote := r1; calls := _ |}, (inr newState).
    repeat split; try done.
    eexists. split; [done|]. by destruct (sshKeyArgs plan).
Qed.

(** X11.  The calls of [Update] are a prefix of: one template fetch, one
    [UpdateSecret], one [Secret] reading the secret back.  [Update]
    never generates a password, creates or deletes.  The secret it
    submits carries the prior state's identifier as [Atoi] parsed it,
    the plan's name and no generation intent, whatever the plan holds;
    the read-back asks for the same identifier.  A state is set only
    after all three calls, with no diagnostics; otherwise the
    diagnostics hold an error. *)
Theorem Update_call_discipline client plan state w resp w' :
  Update (Some client) plan state w = (resp, w') ->
  exists rest,
    calls w' = calls w ++ rest
    /\ (rest = []
        \/ exists t,
             Atoi (types.ValueString (SecretTemplateID plan)) = (t, None)
             /\ (rest = [CallSecretTemplate t]
                 \/ exists s,
                      Atoi (types.ValueString (ID state)) = (server.ID s, None)
                      /\ server.Name s = types.ValueString (Name plan)
                      /\ server.sshKeyArgs s = None
                      /\ (rest = [CallSecretTemplate t; CallUpdateSecret s]
                          \/ rest = [CallSecretTemplate t; CallUpdateSecret s;
                                     CallSecret (server.ID s)])))
    /\ match State resp with
       | Some _ => Diags resp = [] /\ length rest = 3%nat
       | None => HasError (Diags resp) = true
       end.
Proof.
  intros [(e & Hg & ->)|(base & w1 & s & Hg & Hs & Hrest)]%Update_inv.
  - destruct (getSecretData_calls _ _ _ _ _ Hg) as [Hc|[t Hc]].
    + exists []. rewrite app_nil_r. repeat split; try done. by left.
    + exists [CallSecretTemplate t]. repeat split; try done. right. exists t.
      split; [|by left]. revert Hg Hc. unfold getSecretData.
      change (FolderID (with_SshKeyArgs plan None)) with (FolderID plan).
      change (SiteID (with_SshKeyArgs plan None)) with (SiteID plan).
      change (SecretTemplateID (with_SshKeyArgs plan None)) with (SecretTemplateID plan).
      destruct (Atoi (types.ValueString (FolderID plan))) as [folderID [e1|]].
      { unfold_M. intros [= _ <-] Hc. apply (f_equal length) in Hc.
        rewrite length_app in Hc. simpl in Hc. lia. }
      destruct (Atoi (types.ValueString (SiteID plan))) as [siteID [e2|]].
      { unfold_M. intros [= _ <-] Hc. apply (f_equal length) in Hc.
        rewrite length_app in Hc. simpl in Hc. lia. }
      destruct (Atoi (types.ValueString (SecretTemplateID plan))) as [templateID [e3|]].
      { unfold_M. intros [= _ <-] Hc. apply (f_equal length) in Hc.
        rewrite length_app in Hc. simpl in Hc. lia. }
      unfold SecretTemplate. unfold_M.
      destruct (doSecretTemplate client templateID (remote w)) as [[err|template] r0].
      * intros [= _ <-] Hc. simpl in Hc. apply app_inv_head in Hc. by injection Hc as ->.
      * destruct (buildSecretFields _ _); intros [= _ <-] Hc; simpl in Hc;
          apply app_inv_head in Hc; by injection Hc as ->.
  - destruct (getSecretData_inr_full _ _ _ _ _ Hg)
      as (folderID & siteID & t & template & Ha & _ & _ & Hbase & Hc).
    change (SecretTemplateID (with_SshKeyArgs plan None)) with (SecretTemplateID plan)
      in Ha.
    assert (Hname : server.Name s = types.ValueString (Name plan)
                    /\ server.sshKeyArgs s = None).
    { rewrite Hs, Hbase. by split. }
    destruct Hname as [Hname Hargs].
    destruct Hrest as [(err & Herr & -> & ->)|[Hok Hrest]].
    { exists [CallSecretTemplate t]. repeat split; try done. right. exists t.
      split; [done|]. by left. }
    assert (Hid : Atoi (types.ValueString (ID state)) = (server.ID s, None)).
    { rewrite Hs. simpl. destruct (Atoi (types.ValueString (ID state))) as [id o].
      simpl in Hok |- *. by subst o. }
    destruct Hrest as [(err & Hd & Hc' & ->)|(updated & w2 & rd & Hd & Hc2 & Hr & Hresp)].
    + exists [CallSecretTemplate t; CallUpdateSecret s]. rewrite Hc', Hc, <- app_assoc.
      repeat split; try done. right. exists t. split; [done|]. right. exists s.
      repeat split; try done. by left.
    + apply readSecretByID_inv in Hr. destruct rd as [ds|newState].
      * subst resp. destruct Hr as [Hds [Hc3|(z & Hz & Hc3)]].
        -- exists [CallSecretTemplate t; CallUpdateSecret s].
           rewrite Hc3, Hc2, Hc, <- app_assoc.
           repeat split; try done. right. exists t. split; [done|]. right. exists s.
           repeat split; try done. by left.
        -- rewrite Hid in Hz. injection Hz as <-.
           exists [CallSecretTemplate t; CallUpdateSecret s; CallSecret (server.ID s)].
           rewrite Hc3, Hc2, Hc, <- !app_assoc.
           repeat split; try done. right. exists t. split; [done|]. right. exists s.
           repeat split; try done. by right.
      * destruct Hresp as (Hdiag & st & Hst & _).
        destruct Hr as (z & remoteSecret & Hz & _ & _ & Hc3).
        rewrite Hid in Hz. injection Hz as <-.
        exists [CallSecretTemplate t; CallUpdateSecret s; CallSecret (server.ID s)].
        rewrite Hst, Hc3, Hc2, Hc, <- !app_assoc.
        repeat split; try done. right. exists t. split; [done|]. right. exists s.
        repeat split; try done. by right.
Qed.

Lemma preserveStateValue_explicit b planFields stateFields f0 pf :
  List.find (sameNameFold (server.FieldName f0)) planFields = Some pf ->
  types.ValueString (ItemValue pf) <> EmptyString ->
  server.ItemValue (preserveStateValue b planFields stateFields f0) = server.ItemValue f0.
Proof.
  unfold preserveStateValue. intros -> Hv.
  assert (types.IsNull (ItemValue pf)
          || isEmptyString (types.ValueString (ItemValue pf)) = false) as ->.
  { unfold isEmptyString. destruct (ItemValue pf) as [| |v]; [done..|]. simpl in *.
    by apply String.eqb_neq. }
  destruct (_ || _); [|done]. destruct (List.find _ stateFields); [|done].
  by destruct (_ && _).
Qed.

Lemma preserveStateValue_unplanned b planFields stateFields f0 sf :
  List.find (sameNameFold (server.FieldName f0)) planFields = None ->
  List.find (sameNameFold (server.FieldName f0)) stateFields = Some sf ->
  preservable b stateFields (server.FieldName f0) = true ->
  server.ItemValue (preserveStateValue b planFields stateFields f0)
  = types.ValueString (ItemValue sf).
Proof.
  unfold preserveStateValue, preservable. intros -> -> ->. by destruct (_ && _).
Qed.

Lemma preserveStateValue_Filename b planFields stateFields f0 sf :
  List.find (sameNameFold (server.FieldName f0)) stateFields = Some sf ->
  preservable b stateFields (server.FieldName f0) = true ->
  types.ValueString (Filename sf) <> EmptyString ->
  server.Filename (preserveStateValue b planFields stateFields f0)
  = types.ValueString (Filename sf).
Proof.
  unfold preserveStateValue, preservable. intros -> -> Hv.
  assert (negb (types.IsNull (Filename sf))
          && negb (isEmptyString (types.ValueString (Filename sf))) = true) as ->.
  { unfold isEmptyString. destruct (Filename sf) as [| |v]; [done..|]. simpl in *.
    by rewrite (proj2 (String.eqb_neq _ _) Hv). }
  by destruct (List.find _ planFields) as [pf|]; [destruct (_ || _)|].
Qed.

Lemma preserveStateValue_shape b planFields stateFields f0 :
  preserveStateValue b planFields stateFields f0
  = server.with_Filename
      (server.with_ItemValue f0
         (server.ItemValue (preserveStateValue b planFields stateFields f0)))
      (server.Filename (preserveStateValue b planFields stateFields f0)).
Proof.
  unfold preserveStateValue. destruct f0.
  repeat match goal with
         | |- context [if ?c then _ else _] => destruct c
         | |- context [match ?c with Some _ => _ | None => _ end] => destruct c
         end; reflexivity.
Qed.

(** X12.  How [Update] resolves the value of a submitted field by name.
    The field [Update] submits at the position of a declared field is the
    field [getSecretData] built, changed at most in item value and
    filename.  When the first plan field that carries the submitted
    (template) name declares a non-empty value, the declared value of
    the field at that position is submitted.  When no plan field carries
    the submitted name, as for a field declared by its slug, and the
    prior state marks the name for preservation, the value of the prior
    field of that name is submitted, whatever the plan declared; and a
    non-empty prior filename of a preserved name is always submitted. *)
Theorem Update_resolves_values_by_name client plan state w resp w' s (i : nat) pfi :
  Update (Some client) plan state w = (resp, w') -> calls w = [] ->
  CallUpdateSecret s ∈ calls w' ->
  Fields plan !! i = Some pfi ->
  exists template f0 f,
    buildSecretField template pfi = inr f0
    /\ server.Fields s !! i = Some f
    /\ f = server.with_Filename (server.with_ItemValue f0 (server.ItemValue f))
                                (server.Filename f)
    /\ (forall pf,
          List.find (sameNameFold (server.FieldName f)) (Fields plan) = Some pf ->
          types.ValueString (ItemValue pf) <> EmptyString ->
          server.ItemValue f = types.ValueString (ItemValue pfi))
    /\ (forall sf,
          List.find (sameNameFold (server.FieldName f)) (Fields state) = Some sf ->
          preservable (hasSshKeyArgsOf state) (Fields state) (server.FieldName f) = true ->
          (List.find (sameNameFold (server.FieldName f)) (Fields plan) = None ->
           server.ItemValue f = types.ValueString (ItemValue sf))
          /\ (types.ValueString (Filename sf) <> EmptyString ->
              server.Filename f = types.ValueString (Filename sf))).
Proof.
  intros Hrun Hw Hin Hi.
  destruct (Update_submitted client plan state w resp w' s Hrun Hw Hin)
    as (template & fields0 & Hb & Hs).
  destruct (buildSecretFields_lookup _ _ _ Hb) as [_ Hlk].
  destruct (Hlk i pfi Hi) as (f0 & Hf0 & Hbuild).
  set (pres := preserveStateValue (hasSshKeyArgsOf state) (Fields plan) (Fields state)) in *.
  exists template, f0, (pres f0).
  assert (Hname : server.FieldName (pres f0) = server.FieldName f0)
    by apply preserveStateValue_FieldName.
  rewrite Hname. split; [done|]. split.
  { rewrite Hs. change (map pres fields0) with (pres <$> fields0).
    by rewrite list_lookup_fmap, Hf0. }
  split; [apply preserveStateValue_shape|]. split.
  - intros pf Hpf Hv. unfold pres.
    rewrite (preserveStateValue_explicit _ _ _ _ _ Hpf Hv).
    by apply (buildSecretField_ItemValue template).
  - intros sf Hsf Hp. split.
    + intros Hnone. by apply preserveStateValue_unplanned.
    + intros Hv. by apply preserveStateValue_Filename.
Qed.

(** The ways [Read] ends. *)
Lemma Read_inv client state w resp w' :
  Read (Some client) state w = (resp, w') ->
  exists rd,
    readSecretByID client (types.ValueString (ID state)) w = (rd, w')
    /\ match rd with
       | inl ds => resp = failed ds
       | inr newState =>
           Diags resp = []
           /\ exists st,
                State resp = Some st
                /\ Fields st
                   = map (keepStateAttachment (hasSshKeyArgsOf state) (Fields state))
                         (reorderFieldsToMatchPlan (Fields state) (Fields newState))
                /\ sshKeyArgs st
                   = match sshKeyArgs state with
                     | Some a => Some a
                     | None => sshKeyArgs newState
                     end
                /\ with_SshKeyArgs (with_Fields st []) None
                   = with_SshKeyArgs (with_Fields newState []) None
       end.
Proof.
  unfold Read. unfold_M.
  destruct (readSecretByID client (types.ValueString (ID state)) w)
    as [[ds|newState] w1] eqn:Er.
  - intros [= <- <-]. by exists (inl ds).
  - intros [= <- <-]. exists (inr newState). repeat split; try done.
    eexists. split; [done|]. by destruct (sshKeyArgs state).
Qed.

(** X13.  [Read] only reads.  It makes no call when the prior
    identifier does not parse and otherwise exactly one [Secret] call,
    for the parsed identifier, and nothing else; the remote world after
    it is the one that call left.  A state is set exactly when the fetch
    succeeded, with no diagnostics: it takes every attribute but the
    fields and the generation intent from the fetched secret as
    [flattenSecret] renders it.  Otherwise the diagnostics hold an
    error. *)
Theorem Read_only_reads client state w resp w' :
  Read (Some client) state w = (resp, w') ->
  match Atoi (types.ValueString (ID state)) with
  | (_, Some _) => w' = w /\ State resp = None /\ HasError (Diags resp) = true
  | (id, None) =>
      calls w' = calls w ++ [CallSecret id]
      /\ remote w' = snd (doSecret client id (remote w))
      /\ match fst (doSecret client id (remote w)) with
         | inl err =>
             resp = failed [NewErrorDiagnostic "Secret Retrieval Error"
                              "Failed to retrieve secret: %s" [ArgError err]]
         | inr secret =>
             Diags resp = []
             /\ exists st,
                  State resp = Some st
                  /\ with_SshKeyArgs (with_Fields st []) None
                     = with_SshKeyArgs (with_Fields (flattenedState secret) []) None
         end
  end.
Proof.
  intros (rd & Hr & Hresp)%Read_inv. revert Hr.
  unfold readSecretByID, Secret, flattenSecret. unfold_M.
  destruct (Atoi (types.ValueString (ID state))) as [id [err|]].
  { intros [= <- <-]. by subst resp. }
  destruct (doSecret client id (remote w)) as [[err|secret] r0].
  - intros [= <- <-]. by subst resp.
  - intros [= <- <-]. simpl. destruct Hresp as (Hd & st & Hst & _ & _ & Hattrs).
    repeat split; try done. by exists st.
Qed.

(** X14.  The generation intent is carried from the request into the new
    state.  A new state set by [Create], [Update] or [Read] comes from
    the secret that the last remote call of the run, a [Secret] call,
    returned, whose identifier and name it shows.  It holds the plan's
    intent ([Create], [Update]) or the prior state's ([Read]) when the
    request has one, and otherwise what [flattenSecret] made of the
    intent of that fetched secret.  [Update] does so although it submits
    the secret without intent. *)
Theorem generation_intent_is_carried client plan state w resp w' st :
  State resp = Some st ->
  (Create (Some client) plan w = (resp, w') \/ Update (Some client) plan state w = (resp, w')
   -> exists id secret w2,
        calls w' = calls w2 ++ [CallSecret id]
        /\ doSecret client id (remote w2) = (inr secret, remote w')
        /\ ID st = ID (flattenedState secret)
        /\ Name st = Name (flattenedState secret)
        /\ sshKeyArgs st = match sshKeyArgs plan with
                           | Some a => Some a
                           | None => sshKeyArgs (flattenedState secret)
                           end)
  /\ (Read (Some client) state w = (resp, w')
      -> exists id secret,
           Atoi (types.ValueString (ID state)) = (id, None)
           /\ calls w' = calls w ++ [CallSecret id]
           /\ doSecret client id (remote w) = (inr secret, remote w')
           /\ ID st = ID (flattenedState secret)
           /\ Name st = Name (flattenedState secret)
           /\ sshKeyArgs st = match sshKeyArgs state with
                              | Some a => Some a
                              | None => sshKeyArgs (flattenedState secret)
                              end).
Proof.
  intros Hst. split.
  - intros [HC|HU].
    + apply Create_inv in HC as [(e & _ & ->)|(secret & w1 & _ & Hrest)]; [done|].
      destruct Hrest as [(err & _ & _ & ->)|(created & w2 & rd & _ & _ & Hr & Hresp)];
        [done|].
      apply readSecretByID_inv in Hr. destruct rd as [ds|newState]; [by subst resp|].
      destruct Hr as (z & remoteSecret & _ & Hd & -> & Hc).
      destruct Hresp as (_ & st' & Hst' & _ & Hargs & Hid & Hname & _).
      rewrite Hst in Hst'. injection Hst' as <-. by exists z, remoteSecret, w2.
    + apply Update_inv in HU as [(e & _ & ->)|(base & w1 & s & _ & _ & Hrest)]; [done|].
      destruct Hrest as [(err & _ & _ & ->)|[_ Hrest]]; [done|].
      destruct Hrest as [(err & _ & _ & ->)|(updated & w2 & rd & _ & _ & Hr & Hresp)];
        [done|].
      apply readSecretByID_inv in Hr. destruct rd as [ds|newState]; [by subst resp|].
      destruct Hr as (z & remoteSecret & _ & Hd & -> & Hc).
      destruct Hresp as (_ & st' & Hst' & _ & Hargs & Hid & Hname & _).
      rewrite Hst in Hst'. injection Hst' as <-. by exists z, remoteSecret, w2.
  - intros (rd & Hr & Hresp)%Read_inv.
    apply readSecretByID_inv in Hr. destruct rd as [ds|newState]; [by subst resp|].
    destruct Hr as (z & remoteSecret & Hz & Hd & -> & Hc).
    destruct Hresp as (_ & st' & Hst' & _ & Hargs & Hattrs).
    rewrite Hst in Hst'. injection Hst' as <-. exists z, remoteSecret.
    repeat split; try done.
    + by apply (f_equal ID) in Hattrs.
    + by apply (f_equal Name) in Hattrs.
Qed.

(** X15.  Reading a state that holds an identifier only, as an import
    leaves it: when the prior state has no fields and no generation
    intent, its identifier parses and the fetch succeeds with a secret
    none of whose fields has, under [strings.EqualFold], the name of an
    earlier one, [Read] sets exactly the state [flattenSecret] makes of
    the fetched secret, with one [Secret] call and no diagnostics. *)
Theorem Read_after_import client state w id secret r :
  Fields state = [] -> sshKeyArgs state = None ->
  Atoi (types.ValueString (ID state)) = (id, None) ->
  doSecret client id (remote w) = (inr secret, r) ->
  distinctNames [] (map flattenField (server.Fields secret)) = true ->
  Read (Some client) state w
  = ({| State := Some (flattenedState secret); Diags := [] |},
     {| remote := r; calls := calls w ++ [CallSecret id] |}).
Proof.
  intros Hf Hargs Hid Hd Hnd.
  unfold Read, readSecretByID, Secret, flattenSecret. unfold_M.
  rewrite Hid, Hd, Hf, Hargs.
  assert (Hre : reorderFieldsToMatchPlan [] (Fields (flattenedState secret))
                = Fields (flattenedState secret)).
  { by apply reorder_nil_plan. }
  rewrite Hre. f_equal. f_equal. f_equal.
  assert (Hkeep : forall b l, map (keepStateAttachment b []) l = l).
  { intros b l. induction l as [|x l IH]; [done|]. simpl. rewrite IH. f_equal.
    unfold keepStateAttachment. simpl. by destruct (_ || _). }
  simpl. rewrite Hkeep. reflexivity.
Qed.

Lemma Atoi_syntax_zero (s : string) (z : Z) :
  strconv.Atoi s = (z, Some strconv.ErrSyntax) -> z = 0.
Proof.
  assert (Hr : forall n, strconv.in_range n = (z, Some strconv.ErrSyntax) -> z = 0).
  { intros n. unfold strconv.in_range. by repeat destruct (_ <? _). }
  unfold strconv.Atoi. destruct s as [|c rest]; [by intros [= <-]|].
  destruct (Ascii.eqb c "-"); [|destruct (Ascii.eqb c "+")];
    (destruct (strconv.parse_unsigned _); [apply Hr|by intros [= <-]|done]).
Qed.

(** X16.  [Delete] with a client always makes exactly one
    [DeleteSecret] call and no other, also when the prior identifier
    does not parse: the conversion error is not returned on, and the
    call asks for the integer [Atoi] gave beside the error, which is 0
    for an identifier that is not a number.  The response holds an
    error exactly when the remote delete failed, and never a state. *)
Theorem Delete_always_calls_remote client state w :
  exists resp w',
    Delete (Some client) state w = (resp, w')
    /\ calls w' = calls w ++ [CallDeleteSecret (fst (Atoi (types.ValueString (ID state))))]
    /\ remote w'
       = snd (doDeleteSecret client (fst (Atoi (types.ValueString (ID state)))) (remote w))
    /\ State resp = None
    /\ match fst (doDeleteSecret client (fst (Atoi (types.ValueString (ID state))))
                                 (remote w)) with
       | Some err =>
           Diags resp = [NewErrorDiagnostic "Secret Deletion Error"
                           "Failed to delete secret: %s" [ArgError err]]
       | None => Diags resp = []
       end
    /\ (forall z kind,
          strconv.Atoi (types.ValueString (ID state)) = (z, Some kind) ->
          fst (Atoi (types.ValueString (ID state))) = z
          /\ (kind = strconv.ErrSyntax -> z = 0)).
Proof.
  unfold Delete, DeleteSecret. unfold_M.
  destruct (Atoi (types.ValueString (ID state))) as [idtoi o] eqn:Ea. simpl.
  destruct (doDeleteSecret client idtoi (remote w)) as [[err|] r0];
    eexists _, _; (split; [reflexivity|]); repeat split; try done.
  all: intros; revert Ea; unfold Atoi;
    destruct (strconv.Atoi (types.ValueString (ID state))) as [z' [k|]] eqn:Es;
    intros [= <- _]; simplify_eq; try done; by eapply Atoi_syntax_zero.
Qed.

(** A run of [Update] that sets a state made the three calls, and the
    state holds the fields the read-back returned, reordered against
    the plan and patched with attachment data. *)
Lemma Update_read_back client plan state w resp w' st :
  Update (Some client) plan state w = (resp, w') -> calls w = [] ->
  State resp = Some st ->
  exists t s secret w2,
    calls w2 = [CallSecretTemplate t; CallUpdateSecret s]
    /\ calls w' = calls w2 ++ [CallSecret (server.ID s)]
    /\ doSecret client (server.ID s) (remote w2) = (inr secret, remote w')
    /\ Fields st
       = map (keepUpdateAttachment (hasSshKeyArgsOf state) (Fields plan) (Fields state))
             (reorderFieldsToMatchPlan (Fields plan)
                (map flattenField (server.Fields secret))).
Proof.
  intros [(e & _ & ->)|(base & w1 & s & Hg & Hs & Hrest)]%Update_inv Hw Hst; [done|].
  apply getSecretData_inr in Hg as (t & template & fields0 & _ & _ & Hc).
  rewrite Hw in Hc. simpl in Hc.
  destruct Hrest as [(err & _ & _ & ->)|[Hok Hrest]]; [done|].
  assert (Hid : Atoi (types.ValueString (ID state)) = (server.ID s, None)).
  { rewrite Hs. simpl. destruct (Atoi (types.ValueString (ID state))) as [id o].
    simpl in Hok |- *. by subst o. }
  destruct Hrest as [(err & _ & _ & ->)|(updated & w2 & rd & _ & Hc2 & Hr & Hresp)];
    [done|].
  apply readSecretByID_inv in Hr. destruct rd as [ds|newState].
  { subst resp. done. }
  destruct Hresp as (_ & st' & Hst' & Hfields & _).
  rewrite Hst in Hst'. injection Hst' as <-.
  destruct Hr as (z & secret & Hz & Hd & -> & Hc3).
  rewrite Hid in Hz. injection Hz as <-.
  exists t, s, secret, w2. rewrite Hc2, Hc. repeat split; try done.
  by rewrite Hc3, Hc2, Hc.
Qed.

End UpdateCalls.

(** ** Prior values on update *)

Lemma reorder_keeps_only_of_its_name (D : list SecretField)
    (fields : list server.SecretField) (h : server.SecretField) :
  h ∈ fields -> onlyOfItsName fields h ->
  flattenField h ∈ reorderFieldsToMatchPlan D (map flattenField fields).
Proof.
  intros Hh Honly.
  assert (Hin : flattenField h ∈ map flattenField fields).
  { by apply list_elem_of_In, in_map, list_elem_of_In. }
  destruct (appendUnplanned_complete
              (matchPlanFields (stateFieldMap (map flattenField fields)) D)
              (map flattenField fields) (flattenField h) Hin) as (x & Hx & Hs).
  fold (reorderFieldsToMatchPlan D (map flattenField fields)) in Hx.
  pose proof (reorder_elem _ _ _ Hx) as Hx'.
  apply list_elem_of_In, in_map_iff in Hx' as (x0 & <- & Hx0).
  apply list_elem_of_In in Hx0.
  rewrite <- (Honly x0 Hx0); [done|].
  unfold sameName, fieldNameOf in Hs. rewrite !flattenField_FieldName in Hs.
  simpl in Hs. by rewrite EqualFold_sym.
Qed.

Lemma preserveStateValue_empty_plan_cases b planFields stateFields f0 pf sf :
  List.find (sameNameFold (server.FieldName f0)) planFields = Some pf ->
  types.ValueString (ItemValue pf) = EmptyString ->
  List.find (sameNameFold (server.FieldName f0)) stateFields = Some sf ->
  server.ItemValue (preserveStateValue b planFields stateFields f0)
  = if preservable b stateFields (server.FieldName f0)
    then types.ValueString (ItemValue sf)
    else server.ItemValue f0.
Proof.
  intros Hpf Hv Hsf.
  destruct (preservable b stateFields (server.FieldName f0)) eqn:Hp.
  - by apply (preserveStateValue_empty_plan _ _ _ _ pf).
  - by rewrite preserveStateValue_not_preservable.
Qed.

(** C3, as amended.  A field whose declared value is null or empty and
    whose prior value [v] is known (non-null and non-empty, as the
    modifier tests it) is planned with [v] by [passwordFieldPlanModifier],
    whatever the plan value was before.  In a run of [Update] that
    submits a secret, the field submitted at the position of a plan
    field has item value [v] when the plan value is [v] and every prior
    field that carries the submitted name holds [v]; and when the plan
    left the value empty (the first plan field of the submitted name
    holds null, unknown or the empty string), the loop of lines 611-673
    submits the value of the first prior field of that name if the prior
    state marks the name for preservation, and the plan's value
    otherwise.  The durable record is built from the read-back alone: a
    run that sets a state read the submitted identifier back from the
    remote store as its last call, every recorded field carries the name
    and the item value of a field the read-back returned, and every
    returned field that is the only one of its name is recorded with the
    value the read-back returned for it.  So the record shows the prior
    value exactly when the remote store returns it. *)
Theorem preserve_carries_prior_value :
  (forall (req : StringRequest) (v : string),
      ConfigValue req = types.StringNull
      \/ ConfigValue req = types.StringValue EmptyString ->
      StateValue req = types.StringValue v -> v <> EmptyString ->
      passwordFieldPlanModifier_PlanModifyString req = types.StringValue v)
  /\ (forall (W : Type) (client : Server W) plan state w resp w' s (i : nat) pfi,
      Update (Some client) plan state w = (resp, w') -> calls w = [] ->
      CallUpdateSecret s ∈ calls w' ->
      Fields plan !! i = Some pfi ->
      exists f,
        server.Fields s !! i = Some f
        /\ (forall v,
              types.ValueString (ItemValue pfi) = v ->
              (forall sf, sf ∈ Fields state ->
                 sameNameFold (server.FieldName f) sf = true ->
                 types.ValueString (ItemValue sf) = v) ->
              server.ItemValue f = v)
        /\ (forall pf sf,
              List.find (sameNameFold (server.FieldName f)) (Fields plan) = Some pf ->
              types.ValueString (ItemValue pf) = EmptyString ->
              List.find (sameNameFold (server.FieldName f)) (Fields state) = Some sf ->
              server.ItemValue f
              = if preservable (hasSshKeyArgsOf state) (Fields state) (server.FieldName f)
                then types.ValueString (ItemValue sf)
                else types.ValueString (ItemValue pfi))
        /\ (forall st, State resp = Some st ->
              exists secret w2,
                calls w' = calls w2 ++ [CallSecret (server.ID s)]
                /\ doSecret client (server.ID s) (remote w2) = (inr secret, remote w')
                /\ (forall g, g ∈ Fields st ->
                      exists h, h ∈ server.Fields secret
                        /\ fieldNameOf g = server.FieldName h
                        /\ ItemValue g = types.StringValue (server.ItemValue h))
                /\ (forall h, h ∈ server.Fields secret ->
                      onlyOfItsName (server.Fields secret) h ->
                      exists g, g ∈ Fields st
                        /\ fieldNameOf g = server.FieldName h
                        /\ ItemValue g = types.StringValue (server.ItemValue h)))).
Proof.
  split.
  - intros req v Hc Hs Hv. apply passwordModifier_preserves; [|done..].
    by destruct Hc as [-> | ->].
  - intros W client plan state w resp w' s i pfi Hrun Hw Hin Hi.
    destruct (Update_submitted client plan state w resp w' s Hrun Hw Hin)
      as (template & fields0 & Hb & Hs).
    destruct (buildSecretFields_lookup _ _ _ Hb) as [_ Hlk].
    destruct (Hlk i pfi Hi) as (f0 & Hf0 & Hbuild).
    apply buildSecretField_ItemValue in Hbuild.
    set (pres := preserveStateValue (hasSshKeyArgsOf state) (Fields plan) (Fields state)) in *.
    assert (Hname : server.FieldName (pres f0) = server.FieldName f0)
      by apply preserveStateValue_FieldName.
    exists (pres f0). rewrite Hname. split; [|split; [|split]].
    + rewrite Hs. change (map pres fields0) with (pres <$> fields0).
      by rewrite list_lookup_fmap, Hf0.
    + intros v Hv Hprior. apply preserveStateValue_value; [congruence|done].
    + intros pf sf Hpf Hv Hsf. rewrite <- Hbuild.
      by apply (preserveStateValue_empty_plan_cases _ _ _ _ pf).
    + intros st Hst.
      destruct (Update_read_back client plan state w resp w' st Hrun Hw Hst)
        as (t & s' & secret & w2 & Hc2 & Hc3 & Hd & Hfields).
      assert (s' = s) as ->.
      { rewrite Hc3, Hc2 in Hin. simpl in Hin. call_cases Hin. congruence. }
      exists secret, w2. split; [done|]. split; [done|].
      set (keep := keepUpdateAttachment (hasSshKeyArgsOf state) (Fields plan)
                     (Fields state)) in *.
      split.
      * intros g Hg. rewrite Hfields in Hg.
        apply list_elem_of_In, in_map_iff in Hg as (x & <- & Hx).
        apply list_elem_of_In, reorder_elem in Hx.
        apply list_elem_of_In, in_map_iff in Hx as (h & <- & Hh).
        exists h. split; [by apply list_elem_of_In|]. unfold keep, fieldNameOf.
        by rewrite keepUpdateAttachment_FieldName, flattenField_FieldName,
             keepUpdateAttachment_ItemValue, flattenField_ItemValue.
      * intros h Hh Honly. exists (keep (flattenField h)). split; [|split].
        -- rewrite Hfields.
           by apply list_elem_of_In, in_map, list_elem_of_In,
                reorder_keeps_only_of_its_name.
        -- unfold keep, fieldNameOf.
           by rewrite keepUpdateAttachment_FieldName, flattenField_FieldName.
        -- unfold keep.
           by rewrite keepUpdateAttachment_ItemValue, flattenField_ItemValue.
Qed.

Lemma preserve_carries_prior_value_witness :
  exists f g st,
    CallUpdateSecret submittedUnchanged
      ∈ calls (snd (Update (Some vaultServer) planEmptyPassword state1
                           (freshWorld vault1)))
    /\ server.Fields submittedUnchanged !! 1%nat = Some f
    /\ server.ItemValue f = "secret1"
    /\ State (fst (Update (Some vaultServer) planEmptyPassword state1
                         (freshWorld vault1))) = Some st
    /\ g ∈ Fields st
    /\ fieldNameOf g = server.FieldName f
    /\ ItemValue g = types.StringValue "secret1".
Proof.
  set (run := Update (Some vaultServer) planEmptyPassword state1 (freshWorld vault1)).
  set (h := remoteField 2 "Password" "password" "secret1" true).
  assert (Hin : CallUpdateSecret submittedUnchanged ∈ calls (snd run)).
  { apply list_elem_of_In. vm_compute. right. left. reflexivity. }
  assert (Hst : exists st, State (fst run) = Some st).
  { vm_compute. eexists. reflexivity. }
  destruct Hst as [st Hst].
  destruct (proj2 preserve_carries_prior_value Vault vaultServer
              planEmptyPassword state1 (freshWorld vault1) (fst run) (snd run)
              submittedUnchanged 1%nat
              (declaredField "password" types.Int64Null (types.StringValue EmptyString))
              (surjective_pairing run) eq_refl Hin eq_refl)
    as (f & Hf & _ & Hloop & Hrec).
  assert (f = h) as -> by (vm_compute in Hf; by injection Hf as <-).
  assert (Hval : server.ItemValue h = "secret1").
  { rewrite (Hloop (declaredField "password" types.Int64Null
                      (types.StringValue EmptyString))
                   (flattenField h)); reflexivity. }
  destruct (Hrec st Hst) as (secret & w2 & _ & Hd & _ & Hcomplete).
  assert (Hsecret : server.Fields secret = server.Fields submittedUnchanged).
  { change (doSecret vaultServer (server.ID submittedUnchanged) (remote w2))
      with (match List.find (hasID 1) (vaultSecrets (remote w2)) with
            | Some s => (inr s, remote w2)
            | None => (inl (ClientError "secret not found"), remote w2)
            end) in Hd.
    destruct (List.find (hasID 1) (vaultSecrets (remote w2))) as [s0|] eqn:E;
      [|discriminate Hd].
    injection Hd as -> Hr. rewrite Hr in E. vm_compute in E. by injection E as <-. }
  destruct (Hcomplete h) as (g & Hg & Hname & Hitem).
  - rewrite Hsecret. apply list_elem_of_In. right. left. reflexivity.
  - intros x Hx Hsame. rewrite Hsecret in Hx. apply list_elem_of_In in Hx.
    destruct Hx as [<-|[<-|[]]]; [discriminate Hsame | reflexivity].
  - exists h, g, st. rewrite Hitem. repeat split; assumption.
Defined.

(** C3, the claim as written fails for the durable record.  The password
    of secret 1 is declared null, its prior value [secret1] is known, the
    modifier plans it and [Update] submits it; the remote store keeps it
    and, write-protecting passwords, withholds it on the read-back: the
    durable record after the update shows the empty string. *)
Lemma preserve_durable_record_counterexample :
  ItemValue <$> Fields state1 !! 1%nat = Some (types.StringValue "secret1")
  /\ ItemValue <$> Fields planPreservedPassword !! 1%nat
     = Some (passwordFieldPlanModifier_PlanModifyString
               (updateRequest types.StringNull (types.StringValue "secret1")
                              types.StringUnknown))
  /\ calls (snd (Update (Some maskingServer) planPreservedPassword state1
                        (freshWorld vault1)))
     = [CallSecretTemplate 6001; CallUpdateSecret submittedUnchanged; CallSecret 1]
  /\ server.ItemValue <$> server.Fields submittedUnchanged !! 1%nat = Some "secret1"
  /\ Diags (fst (Update (Some maskingServer) planPreservedPassword state1
                        (freshWorld vault1))) = []
  /\ (Fields <$> State (fst (Update (Some maskingServer) planPreservedPassword state1
                                    (freshWorld vault1))))
     = Some (Fields state1Masked)
  /\ ItemValue <$> Fields state1Masked !! 1%nat = Some (types.StringValue EmptyString).
Proof. repeat split; vm_compute; reflexivity. Qed.

(** The store of [vaultServer] returns what was submitted, and the same
    update records the prior value. *)
Example preserve_recorded_when_returned :
  Fields <$> State (fst (Update (Some vaultServer) planPreservedPassword state1
                                (freshWorld vault1)))
  = Some (Fields state1).
Proof. vm_compute. reflexivity. Qed.

(** A field that the prior state does not flag as password is not
    filled by the loop: the user name the plan left empty is submitted
    empty, though the prior state holds [alice]. *)
Example Update_submits_empty_username :
  calls (snd (Update (Some vaultServer) planEmptyBoth state1 (freshWorld vault1)))
  = [CallSecretTemplate 6001;
     CallUpdateSecret
       (server.with_ID
          (assembleSecret planEmptyBoth 10 1 6001
             [remoteField 1 "Username" "username" EmptyString false;
              remoteField 2 "Password" "password" "secret1" true])
          1);
     CallSecret 1].
Proof. vm_compute. reflexivity. Qed.

Lemma Update_call_discipline_witness :
  exists rest,
    calls (snd (Update (Some vaultServer) plan1 state1 (freshWorld vault1)))
    = calls (freshWorld vault1) ++ rest.
Proof.
  destruct (Update_call_discipline vaultServer plan1 state1 (freshWorld vault1)
              (fst (Update (Some vaultServer) plan1 state1 (freshWorld vault1)))
              (snd (Update (Some vaultServer) plan1 state1 (freshWorld vault1)))
              eq_refl) as (rest & Hc & _).
  exists rest. exact Hc.
Defined.

(** A password declared by its slug with a new value: the name the
    template gives the field is carried by no plan field, and the prior
    value is submitted. *)
Lemma Update_resolves_values_by_name_witness :
  exists s f,
    CallUpdateSecret s
      ∈ calls (snd (Update (Some slugServer) planBySlug (flattenedState slugSecret)
                           (freshWorld slugVault)))
    /\ (ItemValue <$> Fields planBySlug !! 1%nat) = Some (types.StringValue "new-secret")
    /\ server.Fields s !! 1%nat = Some f
    /\ server.ItemValue f = "old-secret".
Proof.
  set (s := server.with_ID
              (assembleSecret planBySlug 10 1 6001
                 [remoteField 1 "Username" "username" "alice" false;
                  remoteField 2 "Account Password" "password" "old-secret" true]) 1).
  assert (Hin : CallUpdateSecret s
                  ∈ calls (snd (Update (Some slugServer) planBySlug
                                       (flattenedState slugSecret) (freshWorld slugVault)))).
  { apply list_elem_of_In. vm_compute. right. left. reflexivity. }
  destruct (Update_resolves_values_by_name slugServer planBySlug (flattenedState slugSecret)
              (freshWorld slugVault)
              (fst (Update (Some slugServer) planBySlug (flattenedState slugSecret)
                           (freshWorld slugVault)))
              (snd (Update (Some slugServer) planBySlug (flattenedState slugSecret)
                           (freshWorld slugVault)))
              s 1%nat
              (declaredField "password" types.Int64Null (types.StringValue "new-secret"))
              eq_refl eq_refl Hin eq_refl)
    as (template & f0 & f & _ & Hf & _ & _ & Hprior).
  exists s, f. split; [exact Hin|]. split; [reflexivity|]. split; [exact Hf|].
  injection Hf as <-.
  exact (proj1 (Hprior (flattenField (remoteField 2 "Account Password" "password"
                                                  "old-secret" true))
                       eq_refl eq_refl) eq_refl).
Defined.

Lemma Read_only_reads_witness :
  calls (snd (Read (Some vaultServer) state1 (freshWorld vault1))) = [CallSecret 1]
  /\ remote (snd (Read (Some vaultServer) state1 (freshWorld vault1))) = vault1.
Proof.
  pose proof (Read_only_reads vaultServer state1 (freshWorld vault1)
                (fst (Read (Some vaultServer) state1 (freshWorld vault1)))
                (snd (Read (Some vaultServer) state1 (freshWorld vault1)))
                eq_refl) as H.
  change (Atoi (types.ValueString (ID state1))) with (1, @None GoError) in H.
  destruct H as (Hc & Hr & _). split; [exact Hc | exact Hr].
Defined.

(** After the read of secret 1, which the vault returns without
    intent, the new state has none either. *)
Lemma generation_intent_is_carried_witness :
  exists id secret,
    Atoi (types.ValueString (ID state1)) = (id, None)
    /\ doSecret vaultServer id vault1 = (inr secret, vault1)
    /\ sshKeyArgs state1 = sshKeyArgs (flattenedState secret).
Proof.
  destruct (proj2 (generation_intent_is_carried vaultServer plan1 state1
                     (freshWorld vault1)
                     (fst (Read (Some vaultServer) state1 (freshWorld vault1)))
                     (snd (Read (Some vaultServer) state1 (freshWorld vault1)))
                     state1 eq_refl) eq_refl)
    as (id & secret & Hid & _ & Hd & _ & _ & Hargs).
  exists id, secret. split; [exact Hid|]. split; [exact Hd|exact Hargs].
Defined.

Lemma Read_after_import_witness :
  Read (Some vaultServer) importedState (freshWorld vault1)
  = ({| State := Some state1; Diags := [] |},
     {| remote := vault1; calls := [CallSecret 1] |}).
Proof.
  exact (Read_after_import vaultServer importedState (freshWorld vault1) 1
           (storedSecret 1 [remoteField 1 "Username" "username" "alice" false;
                            remoteField 2 "Password" "password" "secret1" true])
           vault1 eq_refl eq_refl eq_refl eq_refl eq_refl).
Defined.

(** ** Plan modifiers *)

Lemma isEmptyString_false v : v <> EmptyString -> isEmptyString v = false.
Proof. intros H. unfold isEmptyString. by apply String.eqb_neq. Qed.

(** X17.  [sshKeyFieldPlanModifier] never plans null, whatever the
    request.  A configuration value that is not null is planned as it
    is, the empty string included; and the modifier plans unknown only
    for an unknown configuration value or, with a null one, on create
    or for a plan value that already was unknown. *)
Theorem sshKey_modifier_never_plans_null (req : StringRequest) :
  types.IsNull (sshKeyFieldPlanModifier_PlanModifyString req) = false
  /\ (types.IsNull (ConfigValue req) = false ->
      sshKeyFieldPlanModifier_PlanModifyString req = ConfigValue req)
  /\ (sshKeyFieldPlanModifier_PlanModifyString req = types.StringUnknown ->
      ConfigValue req = types.StringUnknown
      \/ (ConfigValue req = types.StringNull
          /\ (StateRawIsNull req = true \/ PlanValue req = types.StringUnknown))).
Proof.
  unfold sshKeyFieldPlanModifier_PlanModifyString, shouldComputeSshKeyValue.
  destruct (ConfigValue req) as [| |c] eqn:Ec; simpl.
  2,3: repeat split; try done; by left.
  destruct (StateValue req) as [| |v] eqn:Es; simpl.
  3: { destruct (isEmptyString v) eqn:Ev; simpl; [|done].
       destruct (StateRawIsNull req), (PlanValue req) as [| |p]; simpl;
         repeat match goal with |- context [if ?c then _ else _] => destruct c end;
         repeat split; try done; intros; right; split; try done; by (left + right). }
  all: destruct (StateRawIsNull req), (PlanValue req) as [| |p]; simpl;
    repeat match goal with |- context [if ?c then _ else _] => destruct c end;
    repeat split; try done; intros; right; split; try done; by (left + right).
Qed.

Lemma sshKey_modifier_never_plans_null_witness :
  sshKeyFieldPlanModifier_PlanModifyString
    (createRequest (types.StringValue EmptyString) types.StringUnknown)
  = types.StringValue EmptyString.
Proof.
  exact (proj1 (proj2 (sshKey_modifier_never_plans_null
                         (createRequest (types.StringValue EmptyString)
                                        types.StringUnknown))) eq_refl).
Defined.

(** X18.  What the two modifiers of [itemvalue] plan in sequence, for
    every request.  The planned value is never null.  A known non-empty
    configuration value is planned as it is.  With a null configuration
    value, a known non-empty prior value is planned; without one, on
    create, an empty, null or unknown plan value becomes unknown,
    whatever the field and its path.  An explicit empty string stays the
    empty string when there is no non-empty prior value.  On update no
    known plan value is turned into unknown. *)
Theorem itemvalue_modifier_sequence (req : StringRequest) :
  types.IsNull (itemvaluePlanModifiers req) = false
  /\ (forall c, ConfigValue req = types.StringValue c -> c <> EmptyString ->
        itemvaluePlanModifiers req = types.StringValue c)
  /\ (forall v, ConfigValue req = types.StringNull ->
        StateValue req = types.StringValue v -> v <> EmptyString ->
        itemvaluePlanModifiers req = types.StringValue v)
  /\ (ConfigValue req = types.StringNull -> StateRawIsNull req = true ->
      types.ValueString (StateValue req) = EmptyString ->
      types.ValueString (PlanValue req) = EmptyString ->
      itemvaluePlanModifiers req = types.StringUnknown)
  /\ (ConfigValue req = types.StringValue EmptyString ->
      types.ValueString (StateValue req) = EmptyString ->
      itemvaluePlanModifiers req = types.StringValue EmptyString)
  /\ (forall p, StateRawIsNull req = false -> PlanValue req = types.StringValue p ->
        itemvaluePlanModifiers req <> types.StringUnknown
        \/ ConfigValue req = types.StringUnknown).
Proof.
  unfold itemvaluePlanModifiers, passwordFieldPlanModifier_PlanModifyString,
    sshKeyFieldPlanModifier_PlanModifyString, shouldComputePasswordValue,
    shouldComputeSshKeyValue, with_PlanValue.
  cbn [ConfigValue StateValue PlanValue StateRawIsNull PathSteps].
  split; [|split; [|split; [|split; [|split]]]].
  - destruct (ConfigValue req) as [| |c], (StateValue req) as [| |v],
      (PlanValue req) as [| |p], (StateRawIsNull req); simpl;
      repeat match goal with
             | |- context [isEmptyString ?x] => destruct (isEmptyString x); simpl
             | |- context [if ?c then _ else _] => destruct c; simpl
             end; done.
  - intros c -> Hc. simpl. by rewrite (isEmptyString_false _ Hc).
  - intros v -> -> Hv. simpl. by rewrite (isEmptyString_false _ Hv).
  - intros -> -> Hs Hp. unfold isEmptyString.
    repeat match goal with
           | |- context [Nat.ltb ?n 3] => generalize (Nat.ltb n 3); intro
           | |- context [String.eqb (List.hd ?d ?l) ?s] =>
               generalize (String.eqb (List.hd d l) s); intro
           | |- context [String.eqb (List.last ?l ?d) ?s] =>
               generalize (String.eqb (List.last l d) s); intro
           end.
    destruct (StateValue req) as [| |v], (PlanValue req) as [| |p]; simpl in *;
      subst; simpl;
      repeat match goal with b : bool |- _ => destruct b end; reflexivity.
  - intros -> Hs. simpl.
    destruct (StateValue req) as [| |v]; simpl in *; subst; simpl;
      by destruct (StateRawIsNull req).
  - intros p -> ->.
    destruct (ConfigValue req) as [| |c], (StateValue req) as [| |v]; simpl;
      repeat match goal with
             | |- context [isEmptyString ?x] => destruct (isEmptyString x); simpl
             end; try (by left); try (by right).
Qed.

Lemma itemvalue_modifier_sequence_witness :
  itemvaluePlanModifiers (createRequest types.StringNull types.StringNull)
  = types.StringUnknown
  /\ itemvaluePlanModifiers (createRequest (types.StringValue EmptyString) types.StringNull)
     = types.StringValue EmptyString.
Proof.
  split.
  - exact (proj1 (proj2 (proj2 (proj2 (itemvalue_modifier_sequence
                                          (createRequest types.StringNull
                                                         types.StringNull)))))
             eq_refl eq_refl eq_refl eq_refl).
  - exact (proj1 (proj2 (proj2 (proj2 (proj2 (itemvalue_modifier_sequence
                                                 (createRequest
                                                    (types.StringValue EmptyString)
                                                    types.StringNull))))))
             eq_refl eq_refl).
Defined.

(** ** The ephemeral resource: accounting *)

Section LeaseAccounting.

Context {W : Type}.
Implicit Types (client : Server W) (w : World W).

Lemma fetchOutcomes_ids client fieldName ids (r : W) :
  outcomeId <$> fst (fetchOutcomes client fieldName ids r) = types.ValueInt64 <$> ids.
Proof.
  revert r. induction ids as [|id ids IH]; intros r; simpl; [done|].
  destruct (doSecret client (types.ValueInt64 id) r) as [fetched r1].
  specialize (IH r1). destruct (fetchOutcomes client fieldName ids r1) as [outs r2].
  cbn [fst] in *. rewrite fmap_cons, IH. f_equal.
  unfold outcomeOf. destruct fetched as [err|secret]; [done|].
  by destruct (secretField client secret fieldName).
Qed.

Lemma outcomes_accounting fieldName (outs : list Outcome) :
  (length (omap outcomeResult outs)
   + length (omap (outcomeDiagnostic fieldName) outs))%nat = length outs
  /\ SecretID <$> omap outcomeResult outs
     `sublist_of` (fun o => types.Int64Value (outcomeId o)) <$> outs.
Proof.
  induction outs as [|o outs [IH1 IH2]]; [split; [done|constructor]|].
  destruct o as [id err|id|id value]; unfold omap, fmap in *; simpl in *;
    (split; [lia|]).
  - by apply sublist_cons.
  - by apply sublist_cons.
  - by apply sublist_skip.
Qed.

(** X19.  Accounting of the ephemeral fetch loop.  In a response of
    [Open] that carries a result, and in a response of [Renew] that
    carries a carry-state, every requested id is accounted for exactly
    once: the number of result entries and the number of diagnostics add
    up to the number of ids; and the ids of the result entries are a
    subsequence of the requested ids, each as a known integer, a null
    or unknown id counting as 0. *)
Theorem lease_accounts_for_every_id client now w :
  (forall data resp w' out,
      Open (Some client) data now w = (resp, w') -> Result resp = Some out ->
      (length (Secrets out) + length (OpenDiagnostics resp))%nat = length (IDs data)
      /\ SecretID <$> Secrets out
         `sublist_of` (fun id => types.Int64Value (types.ValueInt64 id)) <$> IDs data)
  /\ (forall private resp w' p,
        Renew client private now w = (resp, w') -> RenewPrivate resp = Some p ->
        (length (PrivateSecrets p) + length (RenewDiagnostics resp))%nat
        = length (PrivateIDs p)
        /\ SecretID <$> PrivateSecrets p
           `sublist_of` (fun id => types.Int64Value (types.ValueInt64 id)) <$> PrivateIDs p).
Proof.
  assert (Hids : forall fieldName ids (r : W),
            (fun o => types.Int64Value (outcomeId o))
              <$> fst (fetchOutcomes client fieldName ids r)
            = (fun id => types.Int64Value (types.ValueInt64 id)) <$> ids).
  { intros fieldName ids r.
    pose proof (fetchOutcomes_ids client fieldName ids r) as H.
    apply (f_equal (fmap types.Int64Value)) in H.
    by rewrite <- !list_fmap_compose in H. }
  split.
  - intros data resp w' out. unfold Open.
    destruct (_ || _); [by intros [= <- _]|].
    unfold_M. rewrite openLoop_outcomes.
    pose proof (fetchOutcomes_length client (types.ValueString (Field data)) (IDs data)
                  (remote w)) as Hlen.
    specialize (Hids (types.ValueString (Field data)) (IDs data) (remote w)).
    destruct (fetchOutcomes client _ (IDs data) (remote w)) as [outs r].
    simpl in *. intros [= <- _] [= <-]. simpl.
    destruct (outcomes_accounting (types.ValueString (Field data)) outs) as [H1 H2].
    split; [by rewrite H1|]. by rewrite <- Hids.
  - intros private resp w' p. unfold Renew.
    destruct private as [[err|privateData]|]; [by intros [= <- _]| |by intros [= <- _]].
    destruct (_ || _); [by intros [= <- _]|].
    unfold_M.
    change (renewLoop client (PrivateField privateData))
      with (renewLoop client
              (types.ValueString (types.StringValue (PrivateField privateData)))).
    rewrite renewLoop_openLoop, openLoop_outcomes.
    pose proof (fetchOutcomes_length client (PrivateField privateData)
                  (PrivateIDs privateData) (remote w)) as Hlen.
    specialize (Hids (PrivateField privateData) (PrivateIDs privateData) (remote w)).
    simpl in *.
    destruct (fetchOutcomes client _ (PrivateIDs privateData) (remote w)) as [outs r].
    simpl in *. intros [= <- _] [= <-]. simpl.
    destruct (outcomes_accounting (PrivateField privateData) outs) as [H1 H2].
    split; [by rewrite H1|]. by rewrite <- Hids.
Qed.

(** X20.  Result, deadline and carry-state are set together.  [Open]
    either sets the result, the carry-state and a deadline five minutes
    after the current instant, having fetched every id, or sets none of
    them, reports exactly one error and reaches the remote store with no
    call; [Renew] likewise for the carry-state and the deadline, and it
    takes the second way whenever the stored carry-state is missing or
    cannot be decoded.  Diagnostics of the fetches, errors included, do
    not keep the response from being set. *)
Theorem lease_set_together client now w :
  (forall data resp w',
      Open (Some client) data now w = (resp, w') ->
      (exists out p,
          Result resp = Some out /\ Private resp = Some p
          /\ RenewAt resp = Some (now + 5 * Minute)
          /\ calls w' = calls w ++ fetchCalls (IDs data))
      \/ (Result resp = None /\ Private resp = None /\ RenewAt resp = None
          /\ w' = w
          /\ exists d, OpenDiagnostics resp = [d] /\ severity d = SeverityError))
  /\ (forall private resp w',
        Renew client private now w = (resp, w') ->
        (exists stored p,
            private = Some (inr stored) /\ RenewPrivate resp = Some p
            /\ RenewRenewAt resp = Some (now + 5 * Minute)
            /\ calls w' = calls w ++ fetchCalls (PrivateIDs stored))
        \/ (RenewPrivate resp = None /\ RenewRenewAt resp = None
            /\ w' = w
            /\ exists d, RenewDiagnostics resp = [d] /\ severity d = SeverityError)).
Proof.
  split.
  - intros data resp w'. unfold Open.
    destruct (_ || _).
    { intros [= <- <-]. right. repeat split; try done. by eexists. }
    unfold_M. rewrite openLoop_outcomes.
    destruct (fetchOutcomes client _ (IDs data) (remote w)) as [outs r].
    intros [= <- <-]. left. by eexists _, _.
  - intros private resp w'. unfold Renew.
    destruct private as [[err|privateData]|].
    { intros [= <- <-]. right. repeat split; try done. by eexists. }
    2: { intros [= <- <-]. right. repeat split; try done. by eexists. }
    destruct (_ || _).
    { intros [= <- <-]. right. repeat split; try done. by eexists. }
    unfold_M.
    change (renewLoop client (PrivateField privateData))
      with (renewLoop client
              (types.ValueString (types.StringValue (PrivateField privateData)))).
    rewrite renewLoop_openLoop, openLoop_outcomes. cbn [types.ValueString].
    destruct (fetchOutcomes client _ (PrivateIDs privateData) (remote w)) as [outs r].
    intros [= <- <-]. left. by eexists privateData, _.
Qed.

End LeaseAccounting.

Lemma lease_accounts_for_every_id_witness :
  (length [{| SecretID := types.Int64Value 1; Value := types.StringValue "secret1" |}]
   + length (OpenDiagnostics (fst (Open (Some vaultServer) openOneTwo 0
                                        (freshWorld vault1)))))%nat
  = length (IDs openOneTwo).
Proof.
  exact (proj1 (proj1 (lease_accounts_for_every_id vaultServer 0 (freshWorld vault1))
                  openOneTwo
                  (fst (Open (Some vaultServer) openOneTwo 0 (freshWorld vault1)))
                  (snd (Open (Some vaultServer) openOneTwo 0 (freshWorld vault1)))
                  {| IDs := IDs openOneTwo; Field := Field openOneTwo;
                     Secrets := [{| SecretID := types.Int64Value 1;
                                    Value := types.StringValue "secret1" |}] |}
                  eq_refl eq_refl)).
Defined.

Lemma lease_set_together_witness :
  (exists stored p,
      @None (GoError + TSSSecretsPrivateData) = Some (inr stored)
      /\ RenewPrivate (fst (Renew vaultServer None 0 (freshWorld vault1))) = Some p
      /\ RenewRenewAt (fst (Renew vaultServer None 0 (freshWorld vault1)))
         = Some (0 + 5 * Minute)
      /\ calls (snd (Renew vaultServer None 0 (freshWorld vault1)))
         = calls (freshWorld vault1) ++ fetchCalls (PrivateIDs stored))
  \/ (RenewPrivate (fst (Renew vaultServer None 0 (freshWorld vault1))) = None
      /\ RenewRenewAt (fst (Renew vaultServer None 0 (freshWorld vault1))) = None
      /\ snd (Renew vaultServer None 0 (freshWorld vault1)) = freshWorld vault1
      /\ exists d,
           RenewDiagnostics (fst (Renew vaultServer None 0 (freshWorld vault1))) = [d]
           /\ severity d = SeverityError).
Proof.
  exact (proj2 (lease_set_together vaultServer 0 (freshWorld vault1)) None
           (fst (Renew vaultServer None 0 (freshWorld vault1)))
           (snd (Renew vaultServer None 0 (freshWorld vault1))) eq_refl).
Defined.

(** ** The data sources *)

Section DataSourceReads.

Context {W : Type}.
Implicit Types (client : Server W) (w : World W).

(** X21.  [TSSSecretDataSource.Read] with a client.  An identifier that
    [Atoi] rejects gives the error "Invalid Secret ID" and no remote
    call.  Otherwise exactly one [Secret] call is made, for the parsed
    identifier; the state is set exactly when the fetch succeeds and the
    secret holds the field, with the extracted value and the configured
    identifier and field name unchanged, and without diagnostics; a
    failed fetch and a missing field each give one error and no state. *)
Theorem data_source_reads_one_secret client state w :
  exists resp w',
    TSSSecretDataSource_Read (Some client) state w = (resp, w')
    /\ match Atoi (types.ValueString (DataSecretID state)) with
       | (_, Some _) =>
           w' = w /\ DataState resp = None
           /\ DataDiagnostics resp
              = [NewErrorDiagnostic "Invalid Secret ID" "Secret ID must be an integer" []]
       | (id, None) =>
           calls w' = calls w ++ [CallSecret id]
           /\ remote w' = snd (doSecret client id (remote w))
           /\ match outcomeOf client (types.ValueString (DataField state)) id
                              (fst (doSecret client id (remote w))) with
              | Extracted _ value =>
                  DataState resp
                  = Some {| DataSecretID := DataSecretID state;
                            DataField := DataField state;
                            DataSecretValue := types.StringValue value |}
                  /\ DataDiagnostics resp = []
              | FetchFailed _ err =>
                  DataState resp = None
                  /\ DataDiagnostics resp
                     = [NewErrorDiagnostic "Secret Fetch Error" "Failed to fetch secret: %s"
                                           [ArgError err]]
              | FieldMissing _ =>
                  DataState resp = None
                  /\ DataDiagnostics resp
                     = [NewErrorDiagnostic "Field Not Found"
                          "The secret does not contain the field '%s'"
                          [ArgString (types.ValueString (DataField state))]]
              end
       end.
Proof.
  unfold TSSSecretDataSource_Read, Secret, outcomeOf. unfold_M.
  destruct (Atoi (types.ValueString (DataSecretID state))) as [id [err|]].
  { by eexists _, _. }
  destruct (doSecret client id (remote w)) as [[err|secret] r]; simpl.
  { by eexists _, _. }
  destruct (secretField client secret (types.ValueString (DataField state)));
    by eexists _, _.
Qed.

Lemma secretsReadLoop_outcomes client field ids results diags w :
  secretsReadLoop client field ids results diags w
  = let '(outs, r) := fetchOutcomes client (types.ValueString field) ids (remote w) in
    ((results ++ omap outcomeResult outs,
      diags ++ omap (dataOutcomeDiagnostic (types.ValueString field)) outs),
     {| remote := r; calls := calls w ++ fetchCalls ids |}).
Proof.
  revert results diags w. induction ids as [|id ids IH]; intros results diags w.
  - simpl. unfold_M. rewrite !app_nil_r. by destruct w.
  - simpl. unfold Secret. unfold_M.
    destruct (doSecret client (types.ValueInt64 id) (remote w)) as [[err|secret] r1].
    + rewrite IH. simpl.
      destruct (fetchOutcomes client _ ids r1) as [outs r2]. simpl.
      unfold AddWarning. by rewrite <- !app_assoc.
    + unfold outcomeOf.
      destruct (secretField client secret (types.ValueString field)) as [v|];
        rewrite IH; simpl;
        destruct (fetchOutcomes client _ ids r1) as [outs r2]; simpl;
        unfold AddError; by rewrite <- !app_assoc.
Qed.

Lemma outcome_headlines fieldName (outs : list Outcome) :
  headline <$> omap (dataOutcomeDiagnostic fieldName) outs
  = headline <$> omap (outcomeDiagnostic fieldName) outs.
Proof.
  induction outs as [|o outs IH]; [done|].
  destruct o; unfold omap, fmap in *; simpl in *; by rewrite ?IH.
Qed.

(** X22.  [TSSSecretsDataSource.Read] and [Open] run the same fetches.
    On the same ids and field name, against the same remote world, they
    make the same calls, leave the same world, give the same result
    entries and diagnostics of the same severities and summaries, when
    [Open] passes its guard (ids not empty, field name not null).  The
    data source has no such guard: whatever its input, it sets its state
    with the ids and field name it was given; on an empty list of ids it
    sets an empty result with no diagnostic and no call, where [Open]
    reports an error. *)
Theorem secrets_data_source_matches_open client ids field now w :
  (exists resp w',
      TSSSecretsDataSource_Read (Some client)
        {| DataIDs := ids; DataFieldName := field; DataSecrets := [] |} w = (resp, w')
      /\ (exists out, SecretsDataState resp = Some out
                      /\ DataIDs out = ids /\ DataFieldName out = field)
      /\ calls w' = calls w ++ fetchCalls ids
      /\ (ids <> [] -> field <> types.StringNull ->
          exists opened,
            Open (Some client) {| IDs := ids; Field := field; Secrets := [] |} now w
            = (opened, w')
            /\ (DataSecrets <$> SecretsDataState resp) = (Secrets <$> Result opened)
            /\ headline <$> SecretsDataDiagnostics resp
               = headline <$> OpenDiagnostics opened)
      /\ (ids = [] ->
          w' = w /\ SecretsDataDiagnostics resp = []
          /\ (DataSecrets <$> SecretsDataState resp) = Some []
          /\ HasError (OpenDiagnostics
                         (fst (Open (Some client)
                                    {| IDs := ids; Field := field; Secrets := [] |} now w)))
             = true)).
Proof.
  pose proof (Open_valid client {| IDs := ids; Field := field; Secrets := [] |} now w)
    as Hopen.
  cbn [IDs Field] in Hopen.
  set (opened := Open (Some client) {| IDs := ids; Field := field; Secrets := [] |} now w)
    in *.
  unfold TSSSecretsDataSource_Read. unfold_M. cbn [DataIDs DataFieldName].
  rewrite secretsReadLoop_outcomes.
  destruct (fetchOutcomes client (types.ValueString field) ids (remote w))
    as [outs r] eqn:Ef.
  eexists _, _. split; [reflexivity|].
  cbn [SecretsDataState SecretsDataDiagnostics calls].
  split; [by eexists|]. split; [done|]. split.
  - intros Hids Hfield. rewrite (Hopen Hids Hfield).
    eexists. split; [reflexivity|]. cbn [Result OpenDiagnostics].
    split; [done|]. apply outcome_headlines.
  - intros ->. simpl in Ef. injection Ef as <- <-.
    cbn [fetchCalls map omap list_omap app]. rewrite app_nil_r.
    split; [by destruct w|]. split; [done|]. split; [done|]. reflexivity.
Qed.

End DataSourceReads.

Lemma secrets_data_source_matches_open_witness :
  exists opened,
    Open (Some vaultServer) openOneTwo 0 (freshWorld vault1)
    = (opened, snd (TSSSecretsDataSource_Read (Some vaultServer)
                      {| DataIDs := IDs openOneTwo; DataFieldName := Field openOneTwo;
                         DataSecrets := [] |} (freshWorld vault1)))
    /\ (Secrets <$> Result opened)
       = Some [{| SecretID := types.Int64Value 1; Value := types.StringValue "secret1" |}].
Proof.
  destruct (secrets_data_source_matches_open vaultServer (IDs openOneTwo)
              (Field openOneTwo) 0 (freshWorld vault1))
    as (resp & w' & Hrun & _ & _ & Hopen & _).
  injection Hrun as <- <-.
  destruct (Hopen ltac:(discriminate) ltac:(discriminate)) as (opened & Ho & Hs & _).
  exists opened. split; [exact Ho|]. rewrite <- Hs. reflexivity.
Defined.

(** ** The provider's configuration and the entry point *)

Lemma orConfig_spec (fromEnv : string) (fromConfig : types.String) :
  (types.ValueString fromConfig <> EmptyString ->
   orConfig fromEnv fromConfig = types.ValueString fromConfig)
  /\ (types.ValueString fromConfig = EmptyString -> orConfig fromEnv fromConfig = fromEnv).
Proof.
  unfold orConfig, isEmptyString. split.
  - intros H. by rewrite (proj2 (String.eqb_neq _ _) H).
  - by intros ->.
Qed.



(** X24.  The entry point.  [main] serves the provider exactly when no
    command-line argument is given.  With exactly one argument it reads
    the missing second one and fails with an index out of range,
    whatever the environment.  With two or more, it stops when the
    passphrase variable is empty; it encrypts or decrypts only for the
    action of that name, with the passphrase of the environment and the
    second argument as file, and arguments after the second are
    ignored. *)
Theorem main_dispatch (Args : list string) (passphrase : string) :
  (main Args passphrase = Serve <-> (length Args < 2)%nat)
  /\ (length Args = 2%nat -> main Args passphrase = IndexOutOfRange)
  /\ ((3 <= length Args)%nat -> passphrase = EmptyString ->
      main Args passphrase = PassphraseNotSet)
  /\ (forall p f, main Args passphrase = EncryptFile p f ->
        p = passphrase /\ passphrase <> EmptyString
        /\ Args !! 1%nat = Some "encrypt" /\ Args !! 2%nat = Some f)
  /\ (forall p f, main Args passphrase = DecryptFile p f ->
        p = passphrase /\ passphrase <> EmptyString
        /\ Args !! 1%nat = Some "decrypt" /\ Args !! 2%nat = Some f)
  /\ ((3 <= length Args)%nat -> main (take 3 Args) passphrase = main Args passphrase).
Proof.
  unfold main, isEmptyString.
  destruct Args as [|program [|action [|stateFile rest]]]; simpl.
  1,2,3: repeat split; try done; try lia.
  destruct (String.eqb_spec passphrase EmptyString) as [Hp|Hp].
  { repeat split; try done; try lia. }
  destruct (String.eqb_spec action "encrypt") as [->|He].
  { repeat split; try done; try lia; by simplify_eq. }
  destruct (String.eqb_spec action "decrypt") as [->|Hd].
  { repeat split; try done; try lia; by simplify_eq. }
  repeat split; try done; lia.
Qed.

Lemma main_dispatch_witness :
  main ["terraform-provider-tss"; "encrypt"] "s3cret" = IndexOutOfRange.
Proof.
  exact (proj1 (proj2 (main_dispatch ["terraform-provider-tss"; "encrypt"] "s3cret"))
           eq_refl).
Defined.

(** ** A second refresh *)

Lemma matchPlanFields_fixed (R L : list SecretField) :
  NoDup (fieldKeys R) -> (forall x, x ∈ L -> x ∈ R) ->
  matchPlanFields (stateFieldMap R) L = L.
Proof.
  intros Hnd. induction L as [|x L IH]; simpl; [done|]. intros Hin.
  assert (Hx : stateFieldMap R !! fieldKey x = Some x).
  { apply (fold_lookup_NoDup ∅ R x Hnd). apply Hin, elem_of_cons. by left. }
  unfold fieldKey in Hx. rewrite Hx, IH; [done|].
  intros y Hy. apply Hin, elem_of_cons. by right.
Qed.

Lemma reorder_fixed (R L : list SecretField) :
  NoDup (fieldKeys R) -> (forall x, x ∈ L -> x ∈ R) ->
  (forall r, r ∈ R -> exists x, x ∈ L /\ sameName r x = true) ->
  reorderFieldsToMatchPlan L R = L.
Proof.
  intros Hnd Hin Hall. unfold reorderFieldsToMatchPlan.
  rewrite (matchPlanFields_fixed R L Hnd Hin). by apply appendUnplanned_all_found.
Qed.

Lemma reorder_map_names (k : SecretField -> SecretField) (L R : list SecretField) :
  (forall x, fieldNameOf (k x) = fieldNameOf x) ->
  reorderFieldsToMatchPlan (map k L) R = reorderFieldsToMatchPlan L R.
Proof.
  intros Hk. unfold reorderFieldsToMatchPlan. f_equal.
  induction L as [|x L IH]; simpl; [done|]. by rewrite Hk, IH.
Qed.

Lemma keepStateAttachment_fieldNameOf b old f :
  fieldNameOf (keepStateAttachment b old f) = fieldNameOf f.
Proof.
  unfold keepStateAttachment, fieldNameOf.
  repeat match goal with
         | |- context [if ?c then _ else _] => destruct c
         | |- context [match ?c with Some _ => _ | None => _ end] => destruct c
         end; reflexivity.
Qed.

Lemma find_map_same_name (k : SecretField -> SecretField) (R L : list SecretField) x :
  (forall y, fieldNameOf (k y) = fieldNameOf y) ->
  NoDup (fieldKeys R) -> (forall y, y ∈ L -> y ∈ R) -> x ∈ L ->
  List.find (sameNameExact (fieldNameOf x)) (map k L) = Some (k x).
Proof.
  intros Hk Hnd. induction L as [|y L IH]; [by intros _ ?%elem_of_nil|].
  intros Hin Hx. simpl. unfold sameNameExact at 1. rewrite Hk.
  destruct (String.eqb_spec (fieldNameOf y) (fieldNameOf x)) as [Heq|Hne].
  - f_equal. f_equal. apply (fieldKeys_inj R y x Hnd).
    + apply Hin, elem_of_cons. by left.
    + by apply Hin.
    + unfold sameName. rewrite Heq. apply EqualFold_refl.
  - apply elem_of_cons in Hx as [->|Hx]; [done|]. apply IH; [|done].
    intros z Hz. apply Hin, elem_of_cons. by right.
Qed.

(** A field that comes from [flattenSecret] has its attachment id and
    filename set; carrying attachments over from fields that already
    went through the loop changes nothing more. *)
Lemma keepStateAttachment_again b D F x :
  types.IsNull (FileAttachmentID x) = false -> types.IsNull (Filename x) = false ->
  List.find (sameNameExact (fieldNameOf x)) F = Some (keepStateAttachment b D x) ->
  keepStateAttachment b F x = keepStateAttachment b D x.
Proof.
  intros Ha Hf Hfind. unfold keepStateAttachment at 1. rewrite Hfind.
  unfold keepStateAttachment, isEmptyString.
  destruct (types.ValueBool (IsFile x) || _); [|done].
  destruct x as [n iv ii fi fa sl fd fn isf isn isp isl lt]. simpl in *.
  destruct fa as [| |a']; [discriminate|..];
    (destruct fn as [| |s']; [discriminate|..]);
    (destruct (List.find _ D) as [old|];
     [destruct (FileAttachmentID old) as [| |a], (Filename old) as [| |s]|]);
    simpl;
    repeat match goal with
           | |- context [String.eqb ?u ?v] => destruct (String.eqb u v) eqn:?; simpl
           end;
    try reflexivity; try congruence.
Qed.

Lemma flattenField_attachment_known (f : server.SecretField) :
  types.IsNull (FileAttachmentID (flattenField f)) = false
  /\ types.IsNull (Filename (flattenField f)) = false.
Proof.
  unfold flattenField.
  repeat match goal with |- context [if ?c then _ else _] => destruct c end;
    by split.
Qed.

Section Refresh.

Context {W : Type}.
Implicit Types (client : Server W) (w : World W).

Lemma Read_refreshed client state w id secret r :
  Atoi (types.ValueString (ID state)) = (id, None) ->
  doSecret client id (remote w) = (inr secret, r) ->
  Read (Some client) state w
  = ({| State := Some (refreshedState state secret); Diags := [] |},
     {| remote := r; calls := calls w ++ [CallSecret id] |}).
Proof.
  intros Hid Hd. unfold Read, readSecretByID, Secret, flattenSecret. unfold_M.
  by rewrite Hid, Hd.
Qed.

Lemma refreshedState_Fields state secret :
  Fields (refreshedState state secret)
  = map (keepStateAttachment (hasSshKeyArgsOf state) (Fields state))
        (reorderFieldsToMatchPlan (Fields state) (map flattenField (server.Fields secret))).
Proof. unfold refreshedState. by destruct (sshKeyArgs state). Qed.

Lemma refreshedState_eq state secret :
  refreshedState state secret
  = with_SshKeyArgs
      (with_Fields (flattenedState secret)
         (map (keepStateAttachment (hasSshKeyArgsOf state) (Fields state))
              (reorderFieldsToMatchPlan (Fields state)
                 (map flattenField (server.Fields secret)))))
      (match sshKeyArgs state with
       | Some a => Some a
       | None => sshKeyArgs (flattenedState secret)
       end).
Proof. unfold refreshedState. by destruct (sshKeyArgs state). Qed.

Lemma refreshedState_stable state secret :
  (sshKeyArgs state = None -> server.sshKeyArgs secret = None) ->
  NoDup (submittedKeys (server.Fields secret)) ->
  refreshedState (refreshedState state secret) secret = refreshedState state secret.
Proof.
  intros Hargs Hnd. rewrite <- fieldKeys_flatten in Hnd.
  set (R := map flattenField (server.Fields secret)) in *.
  set (D := Fields state).
  set (b := hasSshKeyArgsOf state).
  set (L := reorderFieldsToMatchPlan D R).
  assert (Hb : hasSshKeyArgsOf (refreshedState state secret) = b).
  { unfold refreshedState, hasSshKeyArgsOf, b, hasSshKeyArgsOf.
    destruct (sshKeyArgs state) as [a|] eqn:Ea; simpl; [done|].
    by rewrite (Hargs eq_refl). }
  assert (Ha : sshKeyArgs (refreshedState state secret)
               = match sshKeyArgs state with
                 | Some a => Some a
                 | None => sshKeyArgs (flattenedState secret)
                 end).
  { unfold refreshedState. by destruct (sshKeyArgs state). }
  assert (HF : Fields (refreshedState state secret) = map (keepStateAttachment b D) L)
    by apply refreshedState_Fields.
  assert (HLR : forall x, x ∈ L -> x ∈ R) by (intros x; apply reorder_elem).
  assert (Hre : reorderFieldsToMatchPlan (map (keepStateAttachment b D) L) R = L).
  { rewrite reorder_map_names by apply keepStateAttachment_fieldNameOf.
    apply reorder_fixed; [done..|].
    intros r0 Hr0. exists r0. split; [by apply reorder_complete|apply EqualFold_refl]. }
  assert (Hmap : map (keepStateAttachment b (map (keepStateAttachment b D) L)) L
                 = map (keepStateAttachment b D) L).
  { apply map_ext_in. intros x Hx%list_elem_of_In.
    assert (HxR : x ∈ R) by by apply HLR.
    apply list_elem_of_fmap in HxR as (f & -> & _).
    destruct (flattenField_attachment_known f) as [H1 H2].
    apply keepStateAttachment_again; [done..|].
    apply (find_map_same_name _ R L); [apply keepStateAttachment_fieldNameOf|done..]. }
  rewrite (refreshedState_eq (refreshedState state secret)).
  fold R. rewrite Hb, HF, Hre, Hmap, Ha.
  rewrite (refreshedState_eq state). fold R D b L. f_equal.
  destruct (sshKeyArgs state); [done|].
  by destruct (sshKeyArgs (flattenedState secret)).
Qed.

(** X25.  A second refresh changes nothing.  When [Read] has set a
    state from a fetched secret and is run again on that state while the
    remote store still returns the same secret, it sets the same state
    again, field order and attachment data included, provided the
    secret's field names are distinct up to case, its identifier is a
    value of the 64-bit [int], and the store returns no generation
    intent when the prior state had none. *)
Theorem refresh_is_stable client state w id secret r r' :
  Atoi (types.ValueString (ID state)) = (id, None) ->
  doSecret client id (remote w) = (inr secret, r) ->
  inIntRange (server.ID secret) ->
  doSecret client (server.ID secret) r = (inr secret, r') ->
  (sshKeyArgs state = None -> server.sshKeyArgs secret = None) ->
  NoDup (submittedKeys (server.Fields secret)) ->
  exists st w1,
    Read (Some client) state w = ({| State := Some st; Diags := [] |}, w1)
    /\ Read (Some client) st w1
       = ({| State := Some st; Diags := [] |},
          {| remote := r'; calls := calls w1 ++ [CallSecret (server.ID secret)] |}).
Proof.
  intros Hid Hd Hrange Hd2 Hargs Hnd.
  exists (refreshedState state secret), {| remote := r; calls := calls w ++ [CallSecret id] |}.
  split; [by apply Read_refreshed|].
  rewrite (Read_refreshed client (refreshedState state secret) _ (server.ID secret)
             secret r').
  - by rewrite refreshedState_stable.
  - assert (ID (refreshedState state secret)
            = types.StringValue (strconv.Itoa (server.ID secret))) as ->.
    { unfold refreshedState. by destruct (sshKeyArgs state). }
    unfold Atoi. simpl. by rewrite (Atoi_Itoa _ Hrange).
  - done.
Qed.

End Refresh.

Lemma refresh_is_stable_witness :
  exists st w1,
    Read (Some vaultServer) importedState (freshWorld vault1)
    = ({| State := Some st; Diags := [] |}, w1)
    /\ Read (Some vaultServer) st w1
       = ({| State := Some st; Diags := [] |},
          {| remote := vault1; calls := calls w1 ++ [CallSecret 1] |}).
Proof.
  refine (refresh_is_stable vaultServer importedState (freshWorld vault1) 1
            (storedSecret 1 [remoteField 1 "Username" "username" "alice" false;
                             remoteField 2 "Password" "password" "secret1" true])
            vault1 vault1 eq_refl eq_refl _ eq_refl (fun _ => eq_refl) _).
  - unfold inIntRange, strconv.int_min, strconv.int_max. simpl. lia.
  - apply (bool_decide_unpack _). vm_compute. reflexivity.
Defined.

(** ** Attachment data carried into the new state *)

(** X26.  The loops that carry attachment data into the new state, in
    [Create], [Read] and [Update], change nothing but the attachment id
    and the filename of a field.  A field that is not a file is left as
    it is by [Create]'s loop, and by the loops of [Read] and [Update]
    unless generation intent is recorded and its name looks like a key
    or passphrase.  [Update]'s loop gives the attachment id of [Read]'s
    loop, and the same field whenever that one has a non-empty filename:
    the plan's filename is a fallback only. *)
Theorem attachment_carry_over_is_local (b : bool)
    (planFields stateFields : list SecretField) (field : SecretField) :
  let k1 := keepPlanAttachment planFields field in
  let k2 := keepStateAttachment b stateFields field in
  let k3 := keepUpdateAttachment b planFields stateFields field in
  (k1 = with_Filename (with_FileAttachmentID field (FileAttachmentID k1)) (Filename k1)
   /\ k2 = with_Filename (with_FileAttachmentID field (FileAttachmentID k2)) (Filename k2)
   /\ k3 = with_Filename (with_FileAttachmentID field (FileAttachmentID k3)) (Filename k3))
  /\ (types.ValueBool (IsFile field) = false -> k1 = field)
  /\ (types.ValueBool (IsFile field) = false ->
      b && nameLooksLikeSshKey (fieldNameOf field) = false ->
      k2 = field /\ k3 = field)
  /\ FileAttachmentID k3 = FileAttachmentID k2
  /\ (types.ValueString (Filename k2) <> EmptyString -> k3 = k2).
Proof.
  intros k1 k2 k3. subst k1 k2 k3.
  split; [|split; [|split; [|split]]].
  - unfold keepUpdateAttachment, keepStateAttachment, keepPlanAttachment.
    destruct field as [n iv ii fi fa sl fd fn isf isn isp isl lt]. cbn.
    repeat split;
      repeat match goal with
             | |- context [if ?c then _ else _] => destruct c
             | |- context [match ?c with Some _ => _ | None => _ end] => destruct c
             end; reflexivity.
  - unfold keepPlanAttachment. by intros ->.
  - unfold keepUpdateAttachment, keepStateAttachment. cbn zeta. by intros -> ->.
  - unfold keepUpdateAttachment. cbn zeta.
    destruct (types.ValueBool (IsFile field) || _) eqn:Ec.
    + repeat match goal with
             | |- context [if ?c then _ else _] => destruct c
             | |- context [match List.find ?p planFields with _ => _ end] =>
                 destruct (List.find p planFields)
             end; reflexivity.
    + unfold keepStateAttachment. cbn zeta. by rewrite Ec.
  - intros Hne. unfold keepUpdateAttachment. cbn zeta.
    destruct (types.ValueBool (IsFile field) || _) eqn:Ec.
    + assert (types.IsNull (Filename (keepStateAttachment b stateFields field))
              || isEmptyString
                   (types.ValueString (Filename (keepStateAttachment b stateFields field)))
              = false) as ->; [|done].
      rewrite (isEmptyString_false _ Hne), orb_false_r.
      by destruct (Filename (keepStateAttachment b stateFields field)).
    + unfold keepStateAttachment. cbn zeta. by rewrite Ec.
Qed.
